(** * proc-ws-server: a shallow embedding of [proc-ws-server.py]

    The Python 2 program reads counters from /proc and pushes them to a
    WebSocket client every 500 ms.  This development embeds its two classes,
    [ProcNetDev] (the /proc/net/dev parser) and [WebSocketsHandler] (handshake,
    frame codec and the scheduler-driven [update] tick), and proves properties
    of them.

    Conventions of the embedding:
    - a Python 2 [str] is a list of 8-bit characters ([pystr]);
    - a Python [int]/[long] is a [Z]; a Python [float] is a primitive IEEE
      binary64 [float];
    - a raised exception is the [Raise] outcome of the [result] type; stateful
      methods are state transformers that return the state reached when the
      exception was raised;
    - a [dict] is a [gmap]. *)

From Stdlib Require Import ZArith List Ascii String Lia Bool.
From Stdlib Require Import PrimFloat FloatOps SpecFloat.
From Stdlib Require DecimalString.
From stdpp Require Import gmap strings list.

Open Scope Z_scope.

(** ** Python values and exceptions *)

Abbreviation pystr := (list ascii).

(** String literals: [py "abc"] is the [pystr] of the characters a, b, c. *)
Definition py (s : string) : pystr := list_ascii_of_string s.

Inductive exn : Type :=
| ValueError
| IndexError
| KeyError
| TypeError
| ZeroDivisionError
| OverflowError
| StructError
| IOError
| SocketError.

(** The outcome of running a piece of the program: it returned a value, it
    raised, or the model stopped following it ([Pending]: a loop that was still
    running when the model's fuel, or its list of future inputs, ran out). *)
Inductive result (A : Type) : Type :=
| Ok (a : A)
| Raise (e : exn)
| Pending.

Arguments Ok {A} a.
Arguments Raise {A} e.
Arguments Pending {A}.

Definition rbind {A B} (r : result A) (k : A -> result B) : result B :=
  match r with
  | Ok a => k a
  | Raise e => Raise e
  | Pending => Pending
  end.

Notation "x <- e ;; k" := (rbind e (fun x => k))
  (at level 100, e at next level, right associativity).

(** [ord(c)] and [chr(n)]; [chr] raises ValueError outside range(256). *)
Definition ord (c : ascii) : Z := Z.of_N (N_of_ascii c).

Definition chr (n : Z) : result ascii :=
  if (0 <=? n) && (n <? 256) then Ok (ascii_of_N (Z.to_N n)) else Raise ValueError.

(** [len(s)] *)
Definition len {A} (s : list A) : Z := Z.of_nat (length s).

(** [s[i]] for a non-negative or negative index; IndexError out of range. *)
Definition py_index {A} (s : list A) (i : Z) : result A :=
  let j := if i <? 0 then i + len s else i in
  if j <? 0 then Raise IndexError
  else match s !! Z.to_nat j with
       | Some x => Ok x
       | None => Raise IndexError
       end.

(** ** struct.pack / struct.unpack for the big-endian unsigned formats *)

(** The value of a big-endian byte string. *)
Definition be_value (s : pystr) : Z :=
  fold_left (fun acc c => acc * 256 + ord c) s 0.

(** The [n] low-order bytes of [v], most significant first. *)
Fixpoint be_bytes (n : nat) (v : Z) : pystr :=
  match n with
  | O => []
  | S k => be_bytes k (v / 256) ++ [ascii_of_N (Z.to_N (v mod 256))]
  end.

(** [struct.unpack(">H", s)[0]] (n = 2) and [struct.unpack(">Q", s)[0]]
    (n = 8): struct.error unless [s] has exactly [n] bytes. *)
Definition struct_unpack_be (n : nat) (s : pystr) : result Z :=
  if Nat.eqb (length s) n then Ok (be_value s) else Raise StructError.

(** [struct.pack(">H", v)] (n = 2) and [struct.pack(">Q", v)] (n = 8):
    struct.error when [v] does not fit in [n] unsigned bytes. *)
Definition struct_pack_be (n : nat) (v : Z) : result pystr :=
  if (0 <=? v) && (v <? 256 ^ Z.of_nat n) then Ok (be_bytes n v) else Raise StructError.

(** ** Python string methods used by the program *)

Definition NL : ascii := "010"%char.
Definition CR : ascii := "013"%char.

(** The whitespace of [str.strip()] and [str.split()] in the C locale:
    space, \t, \n, \v, \f and \r. *)
Definition is_space (c : ascii) : bool :=
  let n := N_of_ascii c in
  ((n =? 32) || ((9 <=? n) && (n <=? 13)))%N.

Fixpoint lstrip_by (p : ascii -> bool) (s : pystr) : pystr :=
  match s with
  | [] => []
  | c :: s' => if p c then lstrip_by p s' else s
  end.

Definition strip_by (p : ascii -> bool) (s : pystr) : pystr :=
  rev (lstrip_by p (rev (lstrip_by p s))).

(** [s.strip()] *)
Definition py_strip (s : pystr) : pystr := strip_by is_space s.

(** [s.strip(chars)] *)
Definition py_strip_chars (chars s : pystr) : pystr :=
  strip_by (fun c => bool_decide (c ∈ chars)) s.

(** [s.lower()] in the C locale. *)
Definition lower_char (c : ascii) : ascii :=
  let n := N_of_ascii c in
  if ((65 <=? n) && (n <=? 90))%N then ascii_of_N (n + 32) else c.

Definition py_lower (s : pystr) : pystr := map lower_char s.

(** [s.split()]: the maximal runs of non-whitespace characters. [cur] is the
    run being read, reversed. *)
Fixpoint split_ws (cur s : pystr) : list pystr :=
  match s with
  | [] => match cur with [] => [] | _ => [rev cur] end
  | c :: s' =>
      if is_space c
      then match cur with [] => split_ws [] s' | _ => rev cur :: split_ws [] s' end
      else split_ws (c :: cur) s'
  end.

Definition py_split (s : pystr) : list pystr := split_ws [] s.

(** [s.count(c)] for a one-character [c]. *)
Definition py_count (c : ascii) (s : pystr) : Z :=
  len (filter (fun x => x = c) s).

(** The index, counted from [i], of the first [c] in [s]; -1 when there is none. *)
Fixpoint find_from (c : ascii) (s : pystr) (i : Z) : Z :=
  match s with
  | [] => -1
  | x :: s' => if Ascii.eqb x c then i else find_from c s' (i + 1)
  end.

(** How Python clips a slice bound or a start offset to [0, n]. *)
Definition slice_index (n i : Z) : Z :=
  if i <? 0 then Z.max (i + n) 0 else Z.min i n.

(** [s.find(c, start)] for a one-character [c]. *)
Definition py_find (c : ascii) (s : pystr) (start : Z) : Z :=
  let st := slice_index (len s) start in
  find_from c (drop (Z.to_nat st) s) st.

(** [s[a:b]]; [b = None] is [s[a:]] (also what [s[a:None]] means). *)
Definition py_slice {A} (s : list A) (a : Z) (b : option Z) : list A :=
  let n := len s in
  let lo := slice_index n a in
  let hi := match b with Some b => slice_index n b | None => n end in
  take (Z.to_nat (hi - lo)) (drop (Z.to_nat lo) s).

Fixpoint starts_with (sep s : pystr) : bool :=
  match sep, s with
  | [], _ => true
  | _ :: _, [] => false
  | a :: sep', b :: s' => Ascii.eqb a b && starts_with sep' s'
  end.

(** The offset of the first occurrence of [sep] in [s]. *)
Fixpoint find_sub (sep s : pystr) : option nat :=
  if starts_with sep s then Some O
  else match s with
       | [] => None
       | _ :: s' => option_map S (find_sub sep s')
       end.

(** [s.split(sep, 1)] for a non-empty [sep]. *)
Definition py_split1 (sep s : pystr) : list pystr :=
  match find_sub sep s with
  | Some i => [take i s; drop (i + length sep) s]
  | None => [s]
  end.

(** [s.split(c)] for a one-character [c]: the pieces of [s] between the
    occurrences of [c]. *)
Fixpoint py_split_on (c : ascii) (s : pystr) : list pystr :=
  match s with
  | [] => [[]]
  | x :: s' =>
      if Ascii.eqb x c then [] :: py_split_on c s'
      else match py_split_on c s' with
           | [] => [[x]]
           | p :: ps => (x :: p) :: ps
           end
  end.

(** [int(s)] for a token without whitespace (the tokens come from [split()]):
    an optional sign and at least one decimal digit, ValueError otherwise. *)
Definition is_digit (c : ascii) : bool :=
  let n := N_of_ascii c in ((48 <=? n) && (n <=? 57))%N.

Definition digits_value (s : pystr) : Z :=
  fold_left (fun acc c => 10 * acc + (ord c - 48)) s 0.

Definition py_int (s : pystr) : result Z :=
  let '(neg, ds) :=
    match s with
    | c :: r => if Ascii.eqb c "-" then (true, r)
                else if Ascii.eqb c "+" then (false, r) else (false, s)
    | [] => (false, s)
    end in
  match ds with
  | [] => Raise ValueError
  | _ => if forallb is_digit ds
         then Ok (if neg then - digits_value ds else digits_value ds)
         else Raise ValueError
  end.

(** The lines of a file as [readline()] and [readlines()] return them: each
    keeps its terminating newline, the last one may lack it. *)
Fixpoint py_readlines (text : pystr) : list pystr :=
  match text with
  | [] => []
  | c :: text' =>
      if Ascii.eqb c NL then [c] :: py_readlines text'
      else match py_readlines text' with
           | [] => [[c]]
           | l :: ls => (c :: l) :: ls
           end
  end.

(** ** class ProcNetDev *)

(** [interfaces]: interface name -> section name -> label -> counter. *)
Abbreviation fields := (gmap pystr Z).
Abbreviation interface := (gmap pystr fields).
Abbreviation counters := (gmap pystr interface).

(** A section of the header line: the tuple
    [(last_position, position, name)]; [position] is [None] for the last. *)
Abbreviation section := (Z * option Z * pystr)%type.

Record ProcNetDev : Type := mkProcNetDev {
  pnd_data : option counters;      (* self.data, None before the first update *)
  pnd_updated : option Z;          (* self.updated, the utcnow() of the last update *)
  pnd_auto_update : bool           (* self.auto_update *)
}.

(** One read of /proc/net/dev: the text of the file from offset 0, and the
    clock value [datetime.utcnow()] returns after it. *)
Record ProcRead : Type := mkProcRead {
  proc_text : pystr;
  proc_utcnow : Z
}.

(** The [while position:] loop of [update] (lines 97-105).  [position] is -1
    at entry and an index or [None] afterwards; the loop leaves when it is
    [None] or 0.  [fuel] bounds the iterations. *)
Fixpoint sections_loop (fuel : nat) (headerline : pystr) (position : option Z)
    (sections : list section) : result (list section) :=
  match position with
  | None => Ok sections
  | Some p =>
      if p =? 0 then Ok sections
      else match fuel with
           | O => Pending
           | S fuel' =>
               let last_position := p + 1 in
               let position := py_find "|" headerline last_position in
               let position := if position <? 0 then None else Some position in
               let name := py_lower (py_strip (py_slice headerline last_position position)) in
               sections_loop fuel' headerline position
                 (sections ++ [(last_position, position, name)])
           end
  end.

(** [l.pop(0)], keeping the rest. *)
Definition py_pop0 {A} (l : list A) : result (list A) :=
  match l with
  | [] => Raise IndexError
  | _ :: l' => Ok l'
  end.

(** The [for label_number in range(len(labels[section_number]))] loop
    (lines 137-141): returns [tmp] and [absolute_position].  The right-hand
    side [int(data[absolute_position])] is evaluated before the key. *)
Definition labels_loop (section_labels data : list pystr) (absolute_position : Z)
  : result (fields * Z) :=
  fold_left
    (fun acc label_number =>
       st <- acc;;
       let '(tmp, absolute_position) := st in
       token <- py_index data absolute_position;;
       value <- py_int token;;
       label <- py_index section_labels (Z.of_nat label_number);;
       Ok (<[label := value]> tmp, absolute_position + 1))
    (seq 0 (length section_labels))
    (Ok (∅, absolute_position)).

(** [interfaces[name][key] = tmp] *)
Definition set_section (interfaces : counters) (name key : pystr) (tmp : fields)
  : result counters :=
  match interfaces !! name with
  | Some d => Ok (<[name := <[key := tmp]> d]> interfaces)
  | None => Raise KeyError
  end.

(** The [for section_number in range(len(sections))] loop (lines 132-145). *)
Definition sections_fill (sections : list section) (labels : list (list pystr))
    (name : pystr) (data : list pystr) (interfaces : counters) : result counters :=
  r <- fold_left
         (fun acc section_number =>
            st <- acc;;
            let '(interfaces, absolute_position) := st in
            section_labels <- py_index labels (Z.of_nat section_number);;
            filled <- labels_loop section_labels data absolute_position;;
            let '(tmp, absolute_position) := filled in
            section <- py_index sections (Z.of_nat section_number);;
            interfaces <- set_section interfaces name section.2 tmp;;
            Ok (interfaces, absolute_position))
         (seq 0 (length sections))
         (Ok (interfaces, 0));;
  Ok r.1.

(** The body of [for info in self.proc.readlines()] (lines 119-145). *)
Definition parse_row (sections : list section) (labels : list (list pystr))
    (interfaces : counters) (info : pystr) : result counters :=
  let info := py_strip_chars [NL] info in
  match py_split1 [":"%char] info with
  | [name; data] =>
      let name := py_strip name in
      let data := py_split data in
      sections_fill sections labels name data (<[name := ∅]> interfaces)
  | _ => Raise ValueError
  end.

(** Lines 87-145 of [update]: everything up to the assignment of
    [self.data], as a function of the file's text. *)
Definition parse_table (text : pystr) : result counters :=
  let lines := py_readlines text in
  let headerline := hd [] lines in
  if py_count "|" headerline =? 0 then Raise ValueError
  else
    sections <- sections_loop (S (length headerline)) headerline (Some (-1)) [];;
    sections <- py_pop0 sections;;
    let labelline := py_strip_chars [NL] (hd [] (tl lines)) in
    let labels :=
      map (fun section : section => py_split (py_slice labelline section.1.1 section.1.2))
          sections in
    fold_left (fun acc info => interfaces <- acc;; parse_row sections labels interfaces info)
              (tl (tl lines)) (Ok ∅).

(** [ProcNetDev.update(self)]: the state of [self] after the call and whether
    it raised.  [self.data] and [self.updated] are assigned last. *)
Definition ProcNetDev_update (rd : ProcRead) (self : ProcNetDev)
  : result unit * ProcNetDev :=
  match parse_table (proc_text rd) with
  | Ok interfaces =>
      (Ok tt, mkProcNetDev (Some interfaces) (Some (proc_utcnow rd)) (pnd_auto_update self))
  | Raise e => (Raise e, self)
  | Pending => (Pending, self)
  end.

(** [ProcNetDev.__getitem__(self, key)] *)
Definition ProcNetDev_getitem (rd : ProcRead) (key : pystr) (self : ProcNetDev)
  : result interface * ProcNetDev :=
  let '(r, self) :=
    if pnd_auto_update self then ProcNetDev_update rd self else (Ok tt, self) in
  match r with
  | Ok _ =>
      match pnd_data self with
      | None => (Raise TypeError, self)
      | Some data =>
          match data !! key with
          | Some v => (Ok v, self)
          | None => (Raise KeyError, self)
          end
      end
  | Raise e => (Raise e, self)
  | Pending => (Pending, self)
  end.

(** [ProcNetDev.__init__(self, auto_update)]: [self.data] and [self.updated]
    are [None] when [update] is first called, and the constructor raises
    what [update] raises. *)
Definition ProcNetDev_init (rd : ProcRead) (auto_update : bool) : result ProcNetDev :=
  let self := mkProcNetDev None None auto_update in
  match ProcNetDev_update rd self with
  | (Ok _, self) => Ok self
  | (Raise e, _) => Raise e
  | (Pending, _) => Pending
  end.

(** [ProcNetDev.__len__(self)]: [len(self.data.keys())]; [None] where
    [self.data] is [None] and Python raises AttributeError. *)
Definition ProcNetDev_len (self : ProcNetDev) : option Z :=
  match pnd_data self with
  | Some data => Some (len (map fst (map_to_list data)))
  | None => None
  end.

(** [ProcNetDev.__contains__(self, key)]: [self[key]] with only KeyError
    caught. *)
Definition ProcNetDev_contains (rd : ProcRead) (key : pystr) (self : ProcNetDev)
  : result bool * ProcNetDev :=
  match ProcNetDev_getitem rd key self with
  | (Ok _, self) => (Ok true, self)
  | (Raise KeyError, self) => (Ok false, self)
  | (Raise e, self) => (Raise e, self)
  | (Pending, self) => (Pending, self)
  end.

(** [ProcNetDev.__nonzero__(self)]: whether [self.updated] is set (a
    datetime is always true). *)
Definition ProcNetDev_nonzero (self : ProcNetDev) : bool :=
  match pnd_updated self with
  | Some _ => true
  | None => false
  end.

(** [d[key]] on a dict. *)
Definition py_getitem {V} (d : gmap pystr V) (key : pystr) : result V :=
  match d !! key with
  | Some v => Ok v
  | None => Raise KeyError
  end.

(** ** Floats *)

(** [float(n)] for an integer: the nearest binary64 value, ties to even;
    OverflowError when [n] is beyond the range of a float. *)
Definition float_of_int (n : Z) : result float :=
  let f := SF2Prim (binary_normalize prec emax n 0 false) in
  if PrimFloat.is_infinity f then Raise OverflowError else Ok f.

(** [n / d] for an integer [n] and a float [d]. *)
Definition int_div_float (n : Z) (d : float) : result float :=
  f <- float_of_int n;;
  if PrimFloat.eqb d 0%float then Raise ZeroDivisionError else Ok (PrimFloat.div f d).

(** ** The surroundings of a tick *)

(** What one call of [WebSocketsHandler.update] reads from outside the
    program, in the order it reads it.  The readers of /proc/uptime,
    /proc/loadavg and /proc/meminfo are given by their outcome; /proc/net/dev
    is given as text, once for each of the two [self.pnd['vlan2']]. *)
Record TickEnv : Type := mkTickEnv {
  env_uptime : result float;            (* float(f.readline().split()[0]), line 218 *)
  env_loadavg : result (list pystr);    (* f.readline().split(), line 221 *)
  env_meminfo : result fields;          (* the dict [memory] after line 233 *)
  env_net_dev_tx : ProcRead;            (* /proc/net/dev at line 235 *)
  env_net_dev_rx : ProcRead;            (* /proc/net/dev at line 236 *)
  env_time_ts : float;                  (* time.time() at line 237 *)
  env_time_stamp : float                (* time.time() at line 250 *)
}.

(** The dict that line 250 hands to [json.dumps]. *)
Record Snapshot : Type := mkSnapshot {
  snap_timestamp : float;
  snap_uptime : float;
  snap_cpu : list pystr;
  snap_transmit : Z;
  snap_receive : Z;
  snap_tx_rate : float;
  snap_rx_rate : float;
  snap_free : Z;
  snap_total : Z
}.

(** The library functions the handler calls.  [Message] stands for
    [mimetools.Message(StringIO(text))], as the dict of its headers keyed by
    lower-cased name; [sha1_digest] for [hashlib.sha1(x).digest()];
    [b64encode] for [base64.b64encode]; [json_dumps] for [json.dumps] on the
    dict of line 250. *)
Class Library : Type := mkLibrary {
  Message : pystr -> gmap pystr pystr;
  sha1_digest : pystr -> pystr;
  b64encode : pystr -> pystr;
  json_dumps : Snapshot -> pystr
}.

(** ** class WebSocketsHandler: state *)

(** An event of the [sched.scheduler]: [enter(delay, priority, action, argument)]
    with [action = self.update].  The queue holds the events in the order they
    are due; all have the same delay and priority, so that is the order of
    entry.  An event does not record the handler whose [update] it calls: the
    scheduler is an attribute of the class, and [s_run] below takes every
    event for a tick of the handler that called [run].  That is what the
    program does while the queue holds the one event this handler entered; an
    event left by an earlier connection would call the [update] of that
    handler, on its closed socket, and is outside this model. *)
Record Event : Type := mkEvent {
  ev_delay : float;
  ev_priority : Z
}.

Record Handler : Type := mkHandler {
  (* attributes of the instance *)
  handshake_done : Z;          (* False is 0; then what send() returned *)
  tx : Z;
  rx : Z;
  ts : float;
  (* attributes of the class *)
  s_queue : list Event;        (* the queue of the scheduler s *)
  pnd : ProcNetDev;
  (* the connection: the segments still to be received (an empty segment is
     the end of the stream), and everything sent so far *)
  inbound : list pystr;
  conn_open : bool;            (* False: send() raises socket.error *)
  sent : pystr;
  (* the process: what was printed, and the surroundings of the ticks to come *)
  stdout : list pystr;
  world : list TickEnv
}.

Definition set_handshake_done (v : Z) (h : Handler) : Handler :=
  mkHandler v (tx h) (rx h) (ts h) (s_queue h) (pnd h) (inbound h) (conn_open h)
            (sent h) (stdout h) (world h).

Definition set_baseline (vtx vrx : Z) (vts : float) (h : Handler) : Handler :=
  mkHandler (handshake_done h) vtx vrx vts (s_queue h) (pnd h) (inbound h) (conn_open h)
            (sent h) (stdout h) (world h).

Definition set_s_queue (v : list Event) (h : Handler) : Handler :=
  mkHandler (handshake_done h) (tx h) (rx h) (ts h) v (pnd h) (inbound h) (conn_open h)
            (sent h) (stdout h) (world h).

Definition set_pnd (v : ProcNetDev) (h : Handler) : Handler :=
  mkHandler (handshake_done h) (tx h) (rx h) (ts h) (s_queue h) v (inbound h) (conn_open h)
            (sent h) (stdout h) (world h).

Definition set_inbound (v : list pystr) (h : Handler) : Handler :=
  mkHandler (handshake_done h) (tx h) (rx h) (ts h) (s_queue h) (pnd h) v (conn_open h)
            (sent h) (stdout h) (world h).

Definition set_sent (v : pystr) (h : Handler) : Handler :=
  mkHandler (handshake_done h) (tx h) (rx h) (ts h) (s_queue h) (pnd h) (inbound h)
            (conn_open h) v (stdout h) (world h).

Definition set_stdout (v : list pystr) (h : Handler) : Handler :=
  mkHandler (handshake_done h) (tx h) (rx h) (ts h) (s_queue h) (pnd h) (inbound h)
            (conn_open h) (sent h) v (world h).

Definition set_world (v : list TickEnv) (h : Handler) : Handler :=
  mkHandler (handshake_done h) (tx h) (rx h) (ts h) (s_queue h) (pnd h) (inbound h)
            (conn_open h) (sent h) (stdout h) v.

(** Methods are state transformers: the outcome and the handler afterwards
    (the state reached when an exception was raised, if one was). *)
Definition M (A : Type) : Type := Handler -> result A * Handler.

Definition ret {A} (a : A) : M A := fun h => (Ok a, h).

Definition bind {A B} (m : M A) (k : A -> M B) : M B :=
  fun h =>
    match m h with
    | (Ok a, h') => k a h'
    | (Raise e, h') => (Raise e, h')
    | (Pending, h') => (Pending, h')
    end.

(** A pure computation inside a method. *)
Definition lift {A} (r : result A) : M A := fun h => (r, h).

Definition gets {A} (f : Handler -> A) : M A := fun h => (Ok (f h), h).

Definition modify (f : Handler -> Handler) : M unit := fun h => (Ok tt, f h).

Notation "x <~ m ;; k" := (bind m (fun x => k))
  (at level 100, m at next level, right associativity).

Notation "m >> k" := (bind m (fun _ => k))
  (at level 100, right associativity).

(** [print line] *)
Definition print (line : pystr) : M unit :=
  modify (fun h => set_stdout (stdout h ++ [line]) h).

(** [self.request.send(data)]: the whole of [data] goes out and its length is
    returned; socket.error on a closed connection. *)
Definition request_send (data : pystr) : M Z :=
  fun h =>
    if conn_open h then (Ok (len data), set_sent (sent h ++ data) h)
    else (Raise SocketError, h).

(** [self.request.recv(bufsize)]: at most [bufsize] bytes of the next segment;
    the empty string at the end of the stream; blocks while nothing is known
    to arrive. *)
Definition request_recv (bufsize : Z) : M pystr :=
  fun h =>
    match inbound h with
    | [] => (Pending, h)
    | [] :: _ => (Ok [], h)
    | seg :: rest =>
        let n := Z.to_nat bufsize in
        (Ok (take n seg),
         set_inbound (match drop n seg with [] => rest | more => more :: rest end) h)
    end.

(** The bytes a buffered [read(n)] collects from the segments: exactly [n]
    unless the stream ends first; [None] while it would still block. *)
Fixpoint read_segments (n : nat) (segs : list pystr) : option (pystr * list pystr) :=
  match n with
  | O => Some ([], segs)
  | _ =>
      match segs with
      | [] => None
      | [] :: _ => Some ([], segs)
      | seg :: rest =>
          if (n <=? length seg)%nat
          then Some (take n seg, match drop n seg with [] => rest | more => more :: rest end)
          else match read_segments (n - length seg) rest with
               | Some (got, rest') => Some (seg ++ got, rest')
               | None => None
               end
      end
  end.

(** [self.rfile.read(n)] *)
Definition rfile_read (n : Z) : M pystr :=
  fun h =>
    match read_segments (Z.to_nat n) (inbound h) with
    | Some (got, rest) => (Ok got, set_inbound rest h)
    | None => (Pending, h)
    end.

(** ** class WebSocketsHandler: the frame codec *)

(** [on_message(self, message)]: [print message]. *)
Definition on_message (message : pystr) : M unit := print message.

(** The loop of lines 179-181: [decoded += chr(ord(char) ^ masks[len(decoded) % 4])]. *)
Definition unmask (masks : list Z) (payload : pystr) : result pystr :=
  fold_left
    (fun acc char =>
       decoded <- acc;;
       mask <- py_index masks (len decoded mod 4);;
       c <- chr (Z.lxor (ord char) mask);;
       Ok (decoded ++ [c]))
    payload (Ok []).

(** [read_next_message(self)] (lines 172-182). *)
Definition read_next_message : M unit :=
  head <~ rfile_read 2;;
  second <~ lift (py_index head 1);;
  let length := Z.land (ord second) 127 in
  length <~ (if length =? 126
             then (s <~ rfile_read 2;; lift (struct_unpack_be 2 s))
             else if length =? 127
             then (s <~ rfile_read 8;; lift (struct_unpack_be 8 s))
             else ret length);;
  mask_bytes <~ rfile_read 4;;
  let masks := map ord mask_bytes in
  payload <~ rfile_read length;;
  decoded <~ lift (unmask masks payload);;
  on_message decoded.

(** [send_message(self, message)] (lines 184-195). *)
Definition send_message (message : pystr) : M unit :=
  c <~ lift (chr 129);;
  request_send [c] >>
  let length := len message in
  (if length <=? 125
   then (c <~ lift (chr length);; request_send [c] >> ret tt)
   else if (126 <=? length) && (length <=? 65535)
   then (c <~ lift (chr 126);;
         request_send [c] >>
         packed <~ lift (struct_pack_be 2 length);;
         request_send packed >> ret tt)
   else (c <~ lift (chr 127);;
         request_send [c] >>
         packed <~ lift (struct_pack_be 8 length);;
         request_send packed >> ret tt)) >>
  request_send message >> ret tt.

(** ** class WebSocketsHandler: the tick *)

(** [l.pop(-1)], keeping the rest. *)
Definition py_pop_last {A} (l : list A) : result (list A) :=
  match l with
  | [] => Raise IndexError
  | _ => Ok (removelast l)
  end.

(** [self.pnd[key]] through [ProcNetDev.__getitem__], on the handler's [pnd]. *)
Definition pnd_getitem (rd : ProcRead) (key : pystr) : M interface :=
  fun h =>
    let '(r, p) := ProcNetDev_getitem rd key (pnd h) in
    (r, set_pnd p h).

(** [sc.enter(delay, priority, self.update, (sc,))] *)
Definition s_enter (delay : float) (priority : Z) : M unit :=
  modify (fun h => set_s_queue (s_queue h ++ [mkEvent delay priority]) h).

(** Lines 217-250 of [update]: the readings, the rates, the new baseline and
    the dict handed to [json.dumps]. *)
Definition update_message (env : TickEnv) : M Snapshot :=
  uptime_seconds <~ lift (env_uptime env);;
  cpu <~ lift (env_loadavg env);;
  cpu <~ lift (py_pop_last cpu);;
  cpu <~ lift (py_pop_last cpu);;
  memory <~ lift (env_meminfo env);;
  vlan2 <~ pnd_getitem (env_net_dev_tx env) (py "vlan2");;
  transmit <~ lift (py_getitem vlan2 (py "transmit"));;
  new_tx <~ lift (py_getitem transmit (py "bytes"));;
  vlan2 <~ pnd_getitem (env_net_dev_rx env) (py "vlan2");;
  receive <~ lift (py_getitem vlan2 (py "receive"));;
  new_rx <~ lift (py_getitem receive (py "bytes"));;
  let new_ts := env_time_ts env in
  self_tx <~ gets tx;;
  self_rx <~ gets rx;;
  self_ts <~ gets ts;;
  let diff_tx := new_tx - self_tx in
  let diff_rx := new_rx - self_rx in
  let diff_ts := PrimFloat.sub new_ts self_ts in
  tx_rate <~ lift (int_div_float diff_tx diff_ts);;
  rx_rate <~ lift (int_div_float diff_rx diff_ts);;
  modify (set_baseline new_tx new_rx new_ts) >>
  free <~ lift (py_getitem memory (py "MemFree"));;
  total <~ lift (py_getitem memory (py "MemTotal"));;
  ret (mkSnapshot (env_time_stamp env) uptime_seconds cpu new_tx new_rx
                  tx_rate rx_rate free total).

(** [update(self, sc)] (lines 216-255). *)
Definition update `{Library} (env : TickEnv) : M unit :=
  snapshot <~ update_message env;;
  let message := json_dumps snapshot in
  send_message message >>
  s_enter 0.5 1.

(** [sched.scheduler.run]: while the queue is not empty, take the first event
    out of the queue and call its action, which is taken to be the [update]
    of the handler that called [run] (see [Event]).  The surroundings of each
    call are the next element of [world]; the sleep until an event is due is
    not modelled. *)
Fixpoint s_run `{Library} (fuel : nat) : M unit :=
  q <~ gets s_queue;;
  match q with
  | [] => ret tt
  | _ :: q' =>
      match fuel with
      | O => lift Pending
      | S fuel' =>
          w <~ gets world;;
          match w with
          | [] => lift Pending
          | env :: w' =>
              modify (set_s_queue q') >>
              modify (set_world w') >>
              update env >>
              s_run fuel'
          end
      end
  end.

(** ** class WebSocketsHandler: handshake and main loop *)

Definition magic : pystr := py "258EAFA5-E914-47DA-95CA-C5AB0DC85B11".

Definition CRLF : pystr := [CR; NL].

Definition hex_digit (n : N) : ascii :=
  if (n <? 10)%N then ascii_of_N (48 + n) else ascii_of_N (87 + n).

(** Two lower-case hexadecimal digits per byte. *)
Definition hex_encode (s : pystr) : pystr :=
  flat_map (fun c => let n := N_of_ascii c in [hex_digit (n / 16); hex_digit (n mod 16)]) s.

Definition hex_value (c : ascii) : option N :=
  let n := N_of_ascii c in
  if ((48 <=? n) && (n <=? 57))%N then Some (n - 48)%N
  else if ((97 <=? n) && (n <=? 102))%N then Some (n - 87)%N
  else if ((65 <=? n) && (n <=? 70))%N then Some (n - 55)%N
  else None.

(** [s.decode('hex')]: TypeError on an odd length or a character that is not
    a hexadecimal digit. *)
Fixpoint hex_decode (s : pystr) : result pystr :=
  match s with
  | [] => Ok []
  | [_] => Raise TypeError
  | a :: b :: s' =>
      match hex_value a, hex_value b with
      | Some x, Some y => r <- hex_decode s';; Ok (ascii_of_N (16 * x + y) :: r)
      | _, _ => Raise TypeError
      end
  end.

(** [hashlib.sha1(x).hexdigest()]: the digest in hexadecimal. *)
Definition hexdigest `{Library} (x : pystr) : pystr := hex_encode (sha1_digest x).

(** Lines 204-205: [b64encode(sha1(key + self.magic).hexdigest().decode('hex'))]. *)
Definition accept_digest `{Library} (key : pystr) : result pystr :=
  raw <- hex_decode (hexdigest (key ++ magic));;
  Ok (b64encode raw).

(** Lines 206-209. *)
Definition handshake_response (digest : pystr) : pystr :=
  py "HTTP/1.1 101 Switching Protocols" ++ CRLF ++
  py "Upgrade: websocket" ++ CRLF ++
  py "Connection: Upgrade" ++ CRLF ++
  py "Sec-WebSocket-Accept: " ++ digest ++ CRLF ++ CRLF.

(** [headers.get(name, None)] of a [Message]. *)
Definition headers_get (headers : gmap pystr pystr) (name : pystr) : option pystr :=
  headers !! py_lower name.

(** [handshake(self)] (lines 197-211).  [self.s.run()] is given as much fuel
    as there are surroundings left. *)
Definition handshake `{Library} : M unit :=
  data <~ request_recv 1024;;
  let data := py_strip data in
  rest <~ lift (py_index (py_split1 CRLF data) 1);;
  let headers := Message rest in
  if bool_decide (headers_get headers (py "Upgrade") = Some (py "websocket"))
  then
    print (py "Handshaking...") >>
    key <~ lift (py_getitem headers (py_lower (py "Sec-WebSocket-Key")));;
    digest <~ lift (accept_digest key);;
    n <~ request_send (handshake_response digest);;
    modify (set_handshake_done n) >>
    w <~ gets world;;
    s_run (S (length w))
  else ret tt.

(** [setup(self)] (lines 159-163); [client_address] is the printed form of
    [self.client_address]. *)
Definition setup (client_address : pystr) : M unit :=
  print (py "connection established " ++ client_address) >>
  modify (set_handshake_done 0) >>
  s_enter 0.5 1.

(** [handle(self)] (lines 165-170): [fuel] iterations of the [while True]. *)
Fixpoint handle `{Library} (fuel : nat) : M unit :=
  match fuel with
  | O => lift Pending
  | S fuel' =>
      done <~ gets handshake_done;;
      (if done =? 0 then handshake else read_next_message) >>
      handle fuel'
  end.

(** A connection as SocketServer serves it: [setup()], then [handle()]. *)
Definition serve `{Library} (client_address : pystr) (fuel : nat) : M unit :=
  setup client_address >> handle fuel.

(** A freshly constructed handler: the class attributes [tx = 0], [rx = 0],
    [ts = 0], the class's scheduler queue and [pnd], and the connection. *)
Definition new_handler (queue : list Event) (p : ProcNetDev) (segments : list pystr)
    (ticks : list TickEnv) : Handler :=
  mkHandler 0 0 0 0%float queue p segments true [] [] ticks.

(** ** Models of the library functions

    A concrete [Library], used to run the handler on sample connections:
    SHA-1 as FIPS 180 defines it, Base64 as RFC 4648 does, header blocks
    without continuation lines, and a stand-in for [json.dumps]. *)

Module Lib.

Definition w32 (x : Z) : Z := x mod 2 ^ 32.

Definition rotl (n x : Z) : Z := w32 (Z.lor (Z.shiftl x n) (Z.shiftr x (32 - n))).

(** The message followed by 0x80, zero bytes and its length in bits. *)
Definition sha1_pad (msg : pystr) : pystr :=
  msg ++ ["128"%char] ++ repeat "000"%char (Z.to_nat ((55 - len msg) mod 64))
      ++ be_bytes 8 (8 * len msg).

Fixpoint chunks (fuel n : nat) (s : pystr) : list pystr :=
  match fuel, s with
  | O, _ | _, [] => []
  | S fuel', _ => take n s :: chunks fuel' n (drop n s)
  end.

(** Words 16 to 79 of the message schedule. *)
Fixpoint sha1_schedule (k : nat) (w : list Z) : list Z :=
  match k with
  | O => w
  | S k' =>
      let t := length w in
      let x := Z.lxor (Z.lxor (nth (t - 3) w 0) (nth (t - 8) w 0))
                      (Z.lxor (nth (t - 14) w 0) (nth (t - 16) w 0)) in
      sha1_schedule k' (w ++ [rotl 1 x])
  end.

Abbreviation sha1_state := (Z * Z * Z * Z * Z)%type.

Definition sha1_round (st : sha1_state) (tw : nat * Z) : sha1_state :=
  let '(a, b, c, d, e) := st in
  let '(t, w) := tw in
  let '(f, k) :=
    if (t <? 20)%nat
    then (Z.lor (Z.land b c) (Z.land (Z.lxor b 4294967295) d), 1518500249)
    else if (t <? 40)%nat then (Z.lxor (Z.lxor b c) d, 1859775393)
    else if (t <? 60)%nat
    then (Z.lor (Z.lor (Z.land b c) (Z.land b d)) (Z.land c d), 2400959708)
    else (Z.lxor (Z.lxor b c) d, 3395469782) in
  (w32 (rotl 5 a + f + e + k + w), a, rotl 30 b, c, d).

Definition sha1_block (st : sha1_state) (block : pystr) : sha1_state :=
  let w := sha1_schedule 64 (map be_value (chunks 16 4 block)) in
  let '(a, b, c, d, e) := fold_left sha1_round (combine (seq 0 80) w) st in
  let '(h0, h1, h2, h3, h4) := st in
  (w32 (h0 + a), w32 (h1 + b), w32 (h2 + c), w32 (h3 + d), w32 (h4 + e)).

Definition sha1 (msg : pystr) : pystr :=
  let padded := sha1_pad msg in
  let '(h0, h1, h2, h3, h4) :=
    fold_left sha1_block (chunks (length padded) 64 padded)
              (1732584193, 4023233417, 2562383102, 271733878, 3285377520) in
  be_bytes 4 h0 ++ be_bytes 4 h1 ++ be_bytes 4 h2 ++ be_bytes 4 h3 ++ be_bytes 4 h4.

Definition b64_alphabet : pystr :=
  py "ABCDEFGHIJKLMNOPQRSTUVWXYZabcdefghijklmnopqrstuvwxyz0123456789+/".

Definition b64_char (n : Z) : ascii := nth (Z.to_nat n) b64_alphabet "="%char.

Fixpoint base64 (s : pystr) : pystr :=
  match s with
  | [] => []
  | [a] =>
      let n := ord a * 65536 in
      [b64_char (n / 262144); b64_char (n / 4096 mod 64); "="%char; "="%char]
  | [a; b] =>
      let n := ord a * 65536 + ord b * 256 in
      [b64_char (n / 262144); b64_char (n / 4096 mod 64); b64_char (n / 64 mod 64); "="%char]
  | a :: b :: c :: s' =>
      let n := ord a * 65536 + ord b * 256 + ord c in
      [b64_char (n / 262144); b64_char (n / 4096 mod 64); b64_char (n / 64 mod 64);
       b64_char (n mod 64)] ++ base64 s'
  end.

(** The headers of a block of [name: value] lines, up to the first line that
    is not one; a later header of the same name replaces an earlier one. *)
Fixpoint headers_of_lines (lines : list pystr) (d : gmap pystr pystr) : gmap pystr pystr :=
  match lines with
  | [] => d
  | line :: lines' =>
      match py_split1 [":"%char] line with
      | [name; value] => headers_of_lines lines' (<[py_lower name := py_strip value]> d)
      | _ => d
      end
  end.

Definition headers (text : pystr) : gmap pystr pystr :=
  headers_of_lines (py_split_on NL text) ∅.

(** A stand-in for [json.dumps], to run the sample sessions: it prints the
    two byte counters only and is not the text Python gives.  The properties
    are stated for any [json_dumps], and the samples name the message as
    [json_dumps] of its snapshot, never by its characters. *)
Definition decimal (n : Z) : pystr :=
  py (DecimalString.NilZero.string_of_int (Z.to_int n)).

Definition dumps (snapshot : Snapshot) : pystr :=
  py "{transmit: " ++ decimal (snap_transmit snapshot) ++
  py ", receive: " ++ decimal (snap_receive snapshot) ++ py "}".

End Lib.

#[export] Instance python_library : Library :=
  mkLibrary Lib.headers Lib.sha1 Lib.base64 Lib.dumps.

(** ** Vocabulary of the properties *)

(** The three-tier length encoding of a frame, in the words of the format:
    the length itself in one byte up to 125; the byte 126 and the length in
    two big-endian bytes up to 65535; the byte 127 and the length in eight
    big-endian bytes beyond. *)
Definition three_tier_length (n : Z) (prefix : pystr) : Prop :=
  (n <= 125 /\ exists b, prefix = [b] /\ ord b = n) \/
  (126 <= n <= 65535 /\
   exists hi lo, prefix = ["126"%char; hi; lo] /\ ord hi * 256 + ord lo = n) \/
  (65535 < n /\
   exists bs, prefix = "127"%char :: bs /\ length bs = 8%nat /\ be_value bs = n).

(** The bitwise exclusive or of two bytes. *)
Definition xor_char (c m : ascii) : ascii :=
  ascii_of_N (N.lxor (N_of_ascii c) (N_of_ascii m)).

(** Masking as a client does it: the byte at position [i] is xor-ed with
    [mask[i mod 4]]. *)
Fixpoint xor_mask_from (i : nat) (mask : list ascii) (payload : pystr) : pystr :=
  match payload with
  | [] => []
  | c :: payload' =>
      xor_char c (nth (i mod 4) mask "000"%char) :: xor_mask_from (S i) mask payload'
  end.

Definition xor_mask (mask : list ascii) (payload : pystr) : pystr :=
  xor_mask_from 0 mask payload.

(** The segments of a connection whose next bytes are [bytes]. *)
Definition push_segment (bytes : pystr) (segments : list pystr) : list pystr :=
  match bytes with
  | [] => segments
  | _ => bytes :: segments
  end.

(** The same length prefix with the mask bit of its first byte set, as a
    client writes it. *)
Definition set_mask_bit (prefix : pystr) : pystr :=
  match prefix with
  | [] => []
  | b :: ext => ascii_of_N (N_of_ascii b + 128) :: ext
  end.

(** The connection delivers [bytes] next, in whatever segments, and then
    goes on as [rest]: a buffered read of their number returns them. *)
Definition delivers (segments : list pystr) (bytes : pystr) (rest : list pystr) : Prop :=
  read_segments (length bytes) segments = Some (bytes, rest).

(** [m[name][sec][label]], when all three keys are there. *)
Definition counter (m : counters) (name sec label : pystr) : option Z :=
  d ← m !! name; f ← d !! sec; f !! label.

(** The column groups of a header line cut at its delimiters: each piece with
    the offsets where it starts and stops; the last runs to the end of the
    line. *)
Fixpoint spans (start : Z) (pieces : list pystr) : list section :=
  match pieces with
  | [] => []
  | [p] => [(start, None, p)]
  | p :: ps => (start, Some (start + len p), p) :: spans (start + len p + 1) ps
  end.

(** The groups of a table: the header line cut at "|", the first piece
    discarded, and for each other piece its name and the words of the label
    line between the same offsets. *)
Definition header_groups (headerline labelline : pystr) : list (pystr * list pystr) :=
  map (fun s : section =>
         (py_lower (py_strip s.2), py_split (py_slice labelline s.1.1 s.1.2)))
      (tl (spans 0 (py_split_on "|" headerline))).

(** The flattened field list: (group, field) by group, then by field. *)
Definition flattened (groups : list (pystr * list pystr)) : list (pystr * pystr) :=
  flat_map (fun g => map (pair g.1) g.2) groups.

Definition int_option (token : pystr) : option Z :=
  match py_int token with
  | Ok v => Some v
  | _ => None
  end.

(** A data row read against [n] fields: its name, stripped, and the integers
    of all its tokens, when it has a colon, at least [n] tokens, and every
    token is an integer. *)
Definition row_parse (n : nat) (row : pystr) : option (pystr * list Z) :=
  match py_split1 [":"%char] (py_strip_chars [NL] row) with
  | [name; data] =>
      let tokens := py_split data in
      if (n <=? length tokens)%nat
      then values ← mapM int_option tokens; Some (py_strip name, values)
      else None
  | _ => None
  end.

(** A data row with a colon and integer tokens, whatever their number. *)
Definition row_tokens (row : pystr) : option (pystr * list Z) := row_parse 0 row.

(** The dict [tmp] of a section: its labels bound to the values of the same
    rank, a later label replacing an earlier one of the same name. *)
Definition fields_of (labels : list pystr) (values : list Z) : fields :=
  fold_left (fun tmp lv => <[lv.1 := lv.2]> tmp) (zip labels values) ∅.

(** The dict of an interface: each group bound to the dict of its fields,
    the values taken in flattened order; a later group replaces an earlier one
    of the same name. *)
Fixpoint iface_fill (groups : list (pystr * list pystr)) (values : list Z)
    (d : interface) : interface :=
  match groups with
  | [] => d
  | g :: groups' =>
      iface_fill groups' (drop (length g.2) values)
                 (<[g.1 := fields_of g.2 (take (length g.2) values)]> d)
  end.

(** The names of the rows that can be read against [n] fields. *)
Definition row_names (n : nat) (rows : list pystr) : list pystr :=
  omap (fun row => fst <$> row_parse n row) rows.

(** The dict of a table: each row's name bound to the dict of its interface. *)
Definition table_fill (groups : list (pystr * list pystr)) (n : nat)
    (rows : list pystr) (base : counters) : counters :=
  fold_left
    (fun m row =>
       match row_parse n row with
       | Some (name, values) => <[name := iface_fill groups values ∅]> m
       | None => m
       end)
    rows base.

(** The readings of a tick: every reader succeeds, the load average line has
    at least two tokens after [cpu], the memory dict has MemFree and
    MemTotal, and the two parses of /proc/net/dev give the byte counters
    [new_tx] and [new_rx] of vlan2. *)
Definition tick_reads (env : TickEnv) (uptime : float) (cpu : list pystr)
    (free total new_tx new_rx : Z) : Prop :=
  env_uptime env = Ok uptime /\
  (exists a b, env_loadavg env = Ok (cpu ++ [a; b])) /\
  (exists memory,
      env_meminfo env = Ok memory /\
      memory !! py "MemFree" = Some free /\ memory !! py "MemTotal" = Some total) /\
  (exists t,
      parse_table (proc_text (env_net_dev_tx env)) = Ok t /\
      counter t (py "vlan2") (py "transmit") (py "bytes") = Some new_tx) /\
  (exists t,
      parse_table (proc_text (env_net_dev_rx env)) = Ok t /\
      counter t (py "vlan2") (py "receive") (py "bytes") = Some new_rx).

(** A string without the character [c]. *)
Definition no_char (c : ascii) (s : pystr) : Prop := Forall (fun x => x <> c) s.

(** A section as the loop records it: the piece stripped and lower-cased. *)
Definition named (s : section) : section := (s.1.1, s.1.2, py_lower (py_strip s.2)).

(** A method keeps a component of the handler when it returns a handler
    with the same value of it, whatever its outcome. *)
Definition keeps {A B} (f : Handler -> B) (m : M A) : Prop :=
  forall h, f (m h).2 = f h.

(** The first [n] tokens of a row read in order as [int] reads them:
    IndexError when the tokens run out, the error of [int] at the first
    token that is not an integer. *)
Fixpoint read_tokens (n : nat) (tokens : list pystr) : result (list Z) :=
  match n with
  | O => Ok []
  | S n' =>
      match tokens with
      | [] => Raise IndexError
      | t :: ts => v <- py_int t;; vs <- read_tokens n' ts;; Ok (v :: vs)
      end
  end.

(** A data row read against [n] fields: its name, stripped, and the integers
    of its first [n] tokens; ValueError when the row has no colon. *)
Definition row_read (n : nat) (row : pystr) : result (pystr * list Z) :=
  match py_split1 [":"%char] (py_strip_chars [NL] row) with
  | [name; data] => vs <- read_tokens n (py_split data);; Ok (py_strip name, vs)
  | _ => Raise ValueError
  end.

(** The dict of a table read row by row, each row against [n] fields. *)
Definition table_read (groups : list (pystr * list pystr)) (n : nat)
    (rows : list pystr) (base : counters) : result counters :=
  fold_left
    (fun acc row =>
       m <- acc;;
       nv <- row_read n row;;
       Ok (<[nv.1 := iface_fill groups nv.2 ∅]> m))
    rows (Ok base).

(** The names of the rows that can be read against [n] fields. *)
Definition read_names (n : nat) (rows : list pystr) : list pystr :=
  omap (fun row => match row_read n row with
                   | Ok nv => Some nv.1
                   | _ => None
                   end) rows.

(** The main loop without its second branch: [while True: self.handshake()]. *)
Fixpoint handshake_loop `{Library} (fuel : nat) : M unit :=
  match fuel with
  | O => lift Pending
  | S fuel' => handshake >> handshake_loop fuel'
  end.

(** ** Sample inputs *)

(** A table with two interfaces, each with a receive and a transmit section
    holding bytes, packets and errs. *)
Definition sample_header : pystr :=
  py "Inter-|   Receive           |  Transmit" ++ [NL].

Definition sample_labels : pystr :=
  py " face |bytes    packets errs|bytes    packets errs" ++ [NL].

Definition sample_row_lo : pystr :=
  py "    lo:    1234      10    0     1234      10    0" ++ [NL].

Definition sample_row_eth0 : pystr :=
  py "  eth0: 9876543210 123456  7   42       0   13" ++ [NL].

Definition sample_table : pystr :=
  sample_header ++ sample_labels ++ sample_row_lo ++ sample_row_eth0.

Definition sample_counters : counters :=
  <[py "lo" :=
      <[py "receive" :=
          <[py "bytes" := 1234]> (<[py "packets" := 10]> (<[py "errs" := 0]> ∅))]>
      (<[py "transmit" :=
          <[py "bytes" := 1234]> (<[py "packets" := 10]> (<[py "errs" := 0]> ∅))]> ∅)]>
  (<[py "eth0" :=
      <[py "receive" :=
          <[py "bytes" := 9876543210]> (<[py "packets" := 123456]> (<[py "errs" := 7]> ∅))]>
      (<[py "transmit" :=
          <[py "bytes" := 42]> (<[py "packets" := 0]> (<[py "errs" := 13]> ∅))]> ∅)]> ∅).

(** The same table with a last row of five counters for six fields. *)
Definition sample_row_short : pystr :=
  py "  eth1: 5 4 3 2 1" ++ [NL].

Definition sample_short_table : pystr :=
  sample_header ++ sample_labels ++ sample_row_lo ++ sample_row_short.

(** A /proc/net/dev with the interface vlan2 and the given byte counters. *)
Definition vlan2_table (rx_bytes tx_bytes : Z) : pystr :=
  py "Inter-|   Receive   |  Transmit" ++ [NL] ++
  py " face |bytes packets|bytes packets" ++ [NL] ++
  py "    lo: 100 1 100 1" ++ [NL] ++
  py " vlan2: " ++ Lib.decimal rx_bytes ++ py " 7 " ++ Lib.decimal tx_bytes ++ py " 9" ++ [NL].

(** The surroundings of a tick at time [now] with the given byte counters
    of vlan2. *)
Definition sample_tick (rx_bytes tx_bytes : Z) (now : float) : TickEnv :=
  mkTickEnv (Ok 86400.5%float)
            (Ok [py "0.10"; py "0.20"; py "0.30"; py "1/123"; py "4567"])
            (Ok (<[py "MemFree" := 1000]> (<[py "MemTotal" := 2000]> ∅)))
            (mkProcRead (vlan2_table rx_bytes tx_bytes) 0)
            (mkProcRead (vlan2_table rx_bytes tx_bytes) 0)
            now now.

(** The surroundings of a tick that finds a /proc/net/dev whose first line
    has no "|". *)
Definition sample_bad_tick (now : float) : TickEnv :=
  mkTickEnv (Ok 86400.5%float)
            (Ok [py "0.10"; py "0.20"; py "0.30"; py "1/123"; py "4567"])
            (Ok (<[py "MemFree" := 1000]> (<[py "MemTotal" := 2000]> ∅)))
            (mkProcRead (py "no header here" ++ [NL]) 0)
            (mkProcRead (py "no header here" ++ [NL]) 0)
            now now.

(** The class attribute [pnd = ProcNetDev()], constructed when /proc/net/dev
    had zero counters for vlan2. *)
Definition sample_pnd : ProcNetDev :=
  (ProcNetDev_update (mkProcRead (vlan2_table 0 0) 0) (mkProcNetDev None None true)).2.

(** A request that asks for no upgrade, and the upgrade request of RFC 6455,
    section 1.2. *)
Definition sample_plain_request : pystr :=
  py "GET /status HTTP/1.1" ++ CRLF ++
  py "Host: 192.168.1.1:9999" ++ CRLF ++ CRLF.

Definition sample_upgrade_request : pystr :=
  py "GET /chat HTTP/1.1" ++ CRLF ++
  py "Host: 192.168.1.1:9999" ++ CRLF ++
  py "Upgrade: websocket" ++ CRLF ++
  py "Connection: Upgrade" ++ CRLF ++
  py "Sec-WebSocket-Key: dGhlIHNhbXBsZSBub25jZQ==" ++ CRLF ++
  py "Sec-WebSocket-Version: 13" ++ CRLF ++ CRLF.

(** The frame of RFC 6455, section 5.7, for the masked text "Hello"
    (0x81 0x85 0x37 0xfa 0x21 0x3d 0x7f 0x9f 0x4d 0x51 0x58), arriving in two
    segments. *)
Definition sample_frame_head : pystr :=
  ["129"%char; "133"%char; "055"%char].

Definition sample_frame_tail : pystr :=
  ["250"%char; "033"%char; "061"%char;
   "127"%char; "159"%char; "077"%char; "081"%char; "088"%char].

Definition sample_frame_connection : Handler :=
  new_handler [] sample_pnd [sample_frame_head; sample_frame_tail] [].

(** What [vlan2_table] parses to. *)
Definition vlan2_counters (rx_bytes tx_bytes : Z) : counters :=
  <[py "lo" :=
      <[py "receive" := <[py "bytes" := 100]> (<[py "packets" := 1]> ∅)]>
      (<[py "transmit" := <[py "bytes" := 100]> (<[py "packets" := 1]> ∅)]> ∅)]>
  (<[py "vlan2" :=
      <[py "receive" := <[py "bytes" := rx_bytes]> (<[py "packets" := 7]> ∅)]>
      (<[py "transmit" := <[py "bytes" := tx_bytes]> (<[py "packets" := 9]> ∅)]> ∅)]> ∅).

(** A handler whose baseline was recorded by two ticks: 1000 bytes sent at
    time 10.0, then 1500 at time 11.0. *)
Definition sample_handler : Handler := new_handler [] sample_pnd [] [].

Definition sample_after_two_ticks : Handler :=
  (update_message (sample_tick 2500 1500 11)
     (update_message (sample_tick 2000 1000 10) sample_handler).2).2.

(** A connection on which a plain request is followed by an upgrade request
    and one tick, and one on which only the upgrade request arrives; the
    second then lives through a good tick, a tick with an unreadable
    /proc/net/dev, and would have had a good tick after it. *)
Definition sample_retry_connection : Handler :=
  new_handler [] sample_pnd [sample_plain_request; sample_upgrade_request]
              [sample_tick 2000 1000 10].

Definition sample_streaming_connection : Handler :=
  new_handler [] sample_pnd [sample_upgrade_request]
              [sample_tick 2000 1000 10; sample_bad_tick 11; sample_tick 2500 1500 12].

Definition sample_client : pystr := py "('192.168.1.2', 50000)".

Definition sample_accept : pystr := py "s3pPLMBiTxaQ9kYGzzhZRbK+xOo=".

(** The snapshot of a first tick that reads 2000 bytes received and 1000
    sent at time 10. *)
Definition sample_snapshot : Snapshot :=
  mkSnapshot 10 86400.5 [py "0.10"; py "0.20"; py "0.30"] 1000 2000 100 200 1000 2000.

(** A streaming handler about to run a tick that cannot read /proc/net/dev. *)
Definition sample_before_bad_tick : Handler :=
  new_handler [mkEvent 0.5 1] sample_pnd []
              [sample_bad_tick 11; sample_tick 2500 1500 12].

(** The sample table with an empty line between its two rows. *)
Definition sample_blank_table : pystr :=
  sample_header ++ sample_labels ++ sample_row_lo ++ [NL] ++ sample_row_eth0.

(** The sample table with a second row whose second counter is not a number. *)
Definition sample_row_dash : pystr :=
  py "  eth0: 98 - 7 42 0 13" ++ [NL].

Definition sample_dash_table : pystr :=
  sample_header ++ sample_labels ++ sample_row_lo ++ sample_row_dash.

(** The sample table with words after the six counters of its first row. *)
Definition sample_row_surplus : pystr :=
  py "    lo:    1234      10    0     1234      10    0   7 up" ++ [NL].

Definition sample_surplus_table : pystr :=
  sample_header ++ sample_labels ++ sample_row_surplus ++ sample_row_eth0.

(** A table whose header line starts with the delimiter. *)
Definition sample_bare_table : pystr :=
  py "|   Receive           |  Transmit" ++ [NL] ++ sample_labels ++ sample_row_lo.

(** The sample table followed by a second row for lo. *)
Definition sample_row_lo_again : pystr :=
  py "    lo:    1       2     3     4       5     6" ++ [NL].

Definition sample_twice_table : pystr :=
  sample_table ++ sample_row_lo_again.

Definition sample_twice_counters : counters :=
  <[py "lo" :=
      <[py "receive" :=
          <[py "bytes" := 1]> (<[py "packets" := 2]> (<[py "errs" := 3]> ∅))]>
      (<[py "transmit" :=
          <[py "bytes" := 4]> (<[py "packets" := 5]> (<[py "errs" := 6]> ∅))]> ∅)]>
  sample_counters.

(** The masked frame for "Hello" cut after three bytes of its payload, on a
    connection the peer then closed. *)
Definition sample_cut_connection : Handler :=
  new_handler [] sample_pnd
    [["129"%char; "133"%char; "055"%char; "250"%char; "033"%char; "061"%char;
      "127"%char; "159"%char; "077"%char]; []] [].

(** A frame that announces a two-byte length and is cut after one byte of
    it, on a connection the peer then closed. *)
Definition sample_cut_length_connection : Handler :=
  new_handler [] sample_pnd [["129"%char; "254"%char; "000"%char]; []] [].

(** The masked frame for "Hello" with its length, 5, in the two-byte form. *)
Definition sample_long_form_connection : Handler :=
  new_handler [] sample_pnd
    [["129"%char; "254"%char; "000"%char; "005"%char;
      "055"%char; "250"%char; "033"%char; "061"%char;
      "127"%char; "159"%char; "077"%char; "081"%char; "088"%char]] [].

(** A connection the peer closed without sending anything. *)
Definition sample_closed_connection : Handler :=
  new_handler [] sample_pnd [[]] [sample_tick 2000 1000 10].

(** A request without header lines, and an upgrade request without a key. *)
Definition sample_bare_request : pystr :=
  py "GET /chat HTTP/1.1" ++ CRLF ++ CRLF.

Definition sample_keyless_request : pystr :=
  py "GET /chat HTTP/1.1" ++ CRLF ++
  py "Upgrade: websocket" ++ CRLF ++
  py "Connection: Upgrade" ++ CRLF ++ CRLF.

(** The surroundings of a tick that finds no vlan2 in /proc/net/dev, and of
    one that finds no MemFree line in /proc/meminfo. *)
Definition sample_no_vlan2_tick (now : float) : TickEnv :=
  mkTickEnv (Ok 86400.5%float)
            (Ok [py "0.10"; py "0.20"; py "0.30"; py "1/123"; py "4567"])
            (Ok (<[py "MemFree" := 1000]> (<[py "MemTotal" := 2000]> ∅)))
            (mkProcRead sample_table 0)
            (mkProcRead sample_table 0)
            now now.

Definition sample_no_memfree_tick (rx_bytes tx_bytes : Z) (now : float) : TickEnv :=
  mkTickEnv (Ok 86400.5%float)
            (Ok [py "0.10"; py "0.20"; py "0.30"; py "1/123"; py "4567"])
            (Ok (<[py "MemTotal" := 2000]> ∅))
            (mkProcRead (vlan2_table rx_bytes tx_bytes) 0)
            (mkProcRead (vlan2_table rx_bytes tx_bytes) 0)
            now now.

(** A frame header followed by two of the four bytes of the mask, on a
    connection the peer then closed. *)
Definition sample_cut_mask_connection : Handler :=
  new_handler [] sample_pnd
    [["129"%char; "133"%char; "055"%char; "250"%char]; []] [].

(** The surroundings of a tick that finds an empty /proc/loadavg. *)
Definition sample_no_loadavg_tick (now : float) : TickEnv :=
  mkTickEnv (Ok 86400.5%float)
            (Ok [])
            (Ok (<[py "MemFree" := 1000]> (<[py "MemTotal" := 2000]> ∅)))
            (mkProcRead (vlan2_table 2000 1000) 0)
            (mkProcRead (vlan2_table 2000 1000) 0)
            now now.

(** * Properties *)

(** ** Bytes and big-endian numbers *)

Lemma ord_range (c : ascii) : 0 <= ord c < 256.
Proof.
  unfold ord. pose proof (N_ascii_bounded c). lia.
Qed.

Lemma ord_ascii_of_N (n : Z) : 0 <= n < 256 -> ord (ascii_of_N (Z.to_N n)) = n.
Proof.
  intros Hn. unfold ord. rewrite N_ascii_embedding by lia. lia.
Qed.

Lemma ascii_of_ord (c : ascii) : ascii_of_N (Z.to_N (ord c)) = c.
Proof.
  unfold ord. rewrite N2Z.id. apply ascii_N_embedding.
Qed.

Lemma chr_ok (n : Z) : 0 <= n < 256 -> chr n = Ok (ascii_of_N (Z.to_N n)).
Proof.
  intros Hn. unfold chr.
  destruct (Z.leb_spec 0 n); [|lia]. destruct (Z.ltb_spec n 256); [|lia]. reflexivity.
Qed.

Lemma len_app {A} (s t : list A) : len (s ++ t) = len s + len t.
Proof. unfold len. rewrite length_app. lia. Qed.

Lemma len_nonneg {A} (s : list A) : 0 <= len s.
Proof. unfold len. lia. Qed.

Lemma be_value_snoc (s : pystr) (c : ascii) : be_value (s ++ [c]) = be_value s * 256 + ord c.
Proof.
  unfold be_value. rewrite fold_left_app. reflexivity.
Qed.

Lemma length_be_bytes (n : nat) (v : Z) : length (be_bytes n v) = n.
Proof.
  revert v. induction n as [|n IH]; intros v; simpl; [reflexivity|].
  rewrite length_app, IH. simpl. lia.
Qed.

Lemma be_value_be_bytes (n : nat) (v : Z) :
  0 <= v < 256 ^ Z.of_nat n -> be_value (be_bytes n v) = v.
Proof.
  revert v. induction n as [|n IH]; intros v Hv.
  - simpl in *. unfold be_value. simpl. lia.
  - simpl be_bytes. rewrite be_value_snoc.
    rewrite Nat2Z.inj_succ, Z.pow_succ_r in Hv by lia.
    rewrite IH.
    + rewrite ord_ascii_of_N by (apply Z.mod_pos_bound; lia).
      pose proof (Z.div_mod v 256). lia.
    + split; [apply Z.div_pos; lia|].
      apply Z.div_lt_upper_bound; lia.
Qed.

(** ** The frame codec *)

Lemma bind_ok {A B} (m : M A) (k : A -> M B) (h h' : Handler) (a : A) :
  m h = (Ok a, h') -> bind m k h = k a h'.
Proof. intros E. unfold bind. rewrite E. reflexivity. Qed.

Lemma request_send_ok (data : pystr) (h : Handler) :
  conn_open h = true ->
  request_send data h = (Ok (len data), set_sent (sent h ++ data) h).
Proof. intros E. unfold request_send. rewrite E. reflexivity. Qed.

Lemma send_message_stream (message prefix : pystr) (h : Handler) :
  conn_open h = true ->
  (if len message <=? 125 then chr (len message) = Ok (hd "000"%char prefix) /\ length prefix = 1%nat
   else if (126 <=? len message) && (len message <=? 65535)
   then exists p, struct_pack_be 2 (len message) = Ok p /\ prefix = "126"%char :: p
   else exists p, struct_pack_be 8 (len message) = Ok p /\ prefix = "127"%char :: p) ->
  send_message message h
  = (Ok tt, set_sent (sent h ++ ["129"%char] ++ prefix ++ message) h).
Proof.
  intros Hopen Hpre. unfold send_message.
  change (chr 129) with (Ok (A:=ascii) "129"%char).
  unfold bind at 1. unfold lift at 1.
  unfold bind at 1. rewrite request_send_ok by assumption.
  set (h1 := set_sent (sent h ++ ["129"%char]) h).
  assert (Hopen1 : conn_open h1 = true) by exact Hopen.
  destruct (len message <=? 125).
  - destruct Hpre as [Hc Hl].
    destruct prefix as [|b [|? ?]]; try discriminate. simpl in Hc.
    unfold bind, lift. rewrite Hc. rewrite request_send_ok by assumption.
    unfold ret. rewrite request_send_ok by assumption.
    unfold h1. simpl. rewrite <- !app_assoc. reflexivity.
  - destruct ((126 <=? len message) && (len message <=? 65535)).
    + destruct Hpre as (p & Hp & ->).
      change (chr 126) with (Ok (A:=ascii) "126"%char).
      unfold bind, lift. rewrite request_send_ok by assumption.
      rewrite Hp. rewrite request_send_ok by assumption.
      unfold ret. rewrite request_send_ok by assumption.
      unfold h1. simpl. rewrite <- !app_assoc. reflexivity.
    + destruct Hpre as (p & Hp & ->).
      change (chr 127) with (Ok (A:=ascii) "127"%char).
      unfold bind, lift. rewrite request_send_ok by assumption.
      rewrite Hp. rewrite request_send_ok by assumption.
      unfold ret. rewrite request_send_ok by assumption.
      unfold h1. simpl. rewrite <- !app_assoc. reflexivity.
Qed.

(** C8.  On an open connection, [send_message] of a payload shorter than
    2^64 bytes sends the byte 0x81, the three-tier encoding of the payload's
    length (no mask bytes), and then the payload itself, whole. *)
Theorem send_message_format (message : pystr) (h : Handler) :
  conn_open h = true ->
  len message < 2 ^ 64 ->
  exists prefix,
    three_tier_length (len message) prefix /\
    send_message message h
    = (Ok tt, set_sent (sent h ++ ["129"%char] ++ prefix ++ message) h).
Proof.
  intros Hopen Hlen. pose proof (len_nonneg message) as Hpos.
  destruct (Z.leb_spec (len message) 125) as [Hs|Hs].
  - exists [ascii_of_N (Z.to_N (len message))]. split.
    + left. split; [assumption|]. eexists. split; [reflexivity|].
      apply ord_ascii_of_N. lia.
    + apply send_message_stream; [assumption|].
      destruct (Z.leb_spec (len message) 125); [|lia].
      split; [|reflexivity]. simpl. apply chr_ok. lia.
  - destruct (Z.leb_spec (len message) 65535) as [Hm|Hm].
    + exists ("126"%char :: be_bytes 2 (len message)). split.
      * right. left. split; [lia|].
        pose proof (be_value_be_bytes 2 (len message)) as Hv.
        pose proof (length_be_bytes 2 (len message)) as Hl.
        destruct (be_bytes 2 (len message)) as [|hi [|lo [|? ?]]]; try discriminate.
        exists hi, lo. split; [reflexivity|].
        unfold be_value in Hv. simpl in Hv. apply Hv. simpl. lia.
      * apply send_message_stream; [assumption|].
        destruct (Z.leb_spec (len message) 125); [lia|].
        destruct (Z.leb_spec 126 (len message)); [|lia].
        destruct (Z.leb_spec (len message) 65535); [|lia]. simpl.
        eexists. split; [|reflexivity]. unfold struct_pack_be.
        destruct (Z.leb_spec 0 (len message)); [|lia].
        destruct (Z.ltb_spec (len message) (256 ^ Z.of_nat 2)); [reflexivity|simpl in *; lia].
    + exists ("127"%char :: be_bytes 8 (len message)). split.
      * right. right. split; [lia|].
        eexists. split; [reflexivity|]. split; [apply length_be_bytes|].
        apply be_value_be_bytes. change (256 ^ Z.of_nat 8) with (2 ^ 64). lia.
      * apply send_message_stream; [assumption|].
        destruct (Z.leb_spec (len message) 125); [lia|].
        destruct (Z.leb_spec (len message) 65535); [lia|].
        rewrite andb_false_r.
        eexists. split; [|reflexivity]. unfold struct_pack_be.
        destruct (Z.leb_spec 0 (len message)); [|lia].
        change (256 ^ Z.of_nat 8) with (2 ^ 64).
        destruct (Z.ltb_spec (len message) (2 ^ 64)); [reflexivity|lia].
Qed.

Lemma send_message_format_witness :
  exists prefix,
    three_tier_length 5 prefix /\
    send_message (py "Hello") sample_handler
    = (Ok tt, set_sent (["129"%char] ++ prefix ++ py "Hello") sample_handler).
Proof.
  exact (send_message_format (py "Hello") sample_handler eq_refl eq_refl).
Defined.

Lemma lxor_byte (a b : N) : (a < 256 -> b < 256 -> N.lxor a b < 256)%N.
Proof.
  intros Ha Hb.
  destruct (N.eq_dec (N.lxor a b) 0%N) as [E|E]; [rewrite E; reflexivity|].
  change 256%N with (2 ^ 8)%N. apply N.log2_lt_pow2; [lia|].
  pose proof (N.log2_lxor a b) as Hl.
  assert (Hla : (N.log2 a < 8)%N).
  { destruct (N.eq_dec a 0%N) as [->|]; [reflexivity|].
    apply N.log2_lt_pow2; [lia|exact Ha]. }
  assert (Hlb : (N.log2 b < 8)%N).
  { destruct (N.eq_dec b 0%N) as [->|]; [reflexivity|].
    apply N.log2_lt_pow2; [lia|exact Hb]. }
  lia.
Qed.

(** What line 181 computes for a masked byte is the unmasked byte. *)
Lemma chr_unmask (c m : ascii) : chr (Z.lxor (ord (xor_char c m)) (ord m)) = Ok c.
Proof.
  unfold xor_char, ord.
  pose proof (N_ascii_bounded c) as Hc. pose proof (N_ascii_bounded m) as Hm.
  rewrite N_ascii_embedding by (apply lxor_byte; assumption).
  rewrite <- N2Z.inj_lxor, N.lxor_assoc, N.lxor_nilpotent, N.lxor_0_r.
  rewrite chr_ok by lia. rewrite N2Z.id, ascii_N_embedding. reflexivity.
Qed.

Lemma py_index_nth {A} (l : list A) (i : nat) (d : A) :
  (i < length l)%nat -> py_index l (Z.of_nat i) = Ok (nth i l d).
Proof.
  intros Hi. unfold py_index.
  destruct (Z.ltb_spec (Z.of_nat i) 0); [lia|].
  destruct (Z.ltb_spec (Z.of_nat i) 0); [lia|].
  rewrite Nat2Z.id.
  destruct (l !! i) eqn:E.
  - f_equal. symmetry. apply nth_lookup_Some with (d := d) in E. exact E.
  - apply lookup_ge_None in E. lia.
Qed.

Lemma unmask_from (mask : list ascii) (rest done : pystr) :
  length mask = 4%nat ->
  fold_left
    (fun acc char =>
       decoded <- acc;;
       m <- py_index (map ord mask) (len decoded mod 4);;
       c <- chr (Z.lxor (ord char) m);;
       Ok (decoded ++ [c]))
    (xor_mask_from (length done) mask rest) (Ok done)
  = Ok (done ++ rest).
Proof.
  intros Hmask. revert done.
  induction rest as [|c rest IH]; intros done.
  - simpl. rewrite app_nil_r. reflexivity.
  - simpl.
    assert (Hidx : len done mod 4 = Z.of_nat (length done mod 4)).
    { unfold len. rewrite Nat2Z.inj_mod. reflexivity. }
    rewrite Hidx.
    assert (Hlt : (length done mod 4 < 4)%nat) by (apply Nat.mod_upper_bound; lia).
    rewrite (py_index_nth _ _ (ord "000"%char)) by (rewrite length_map; lia).
    simpl. rewrite (map_nth ord). rewrite chr_unmask. simpl.
    replace (S (length done)) with (length (done ++ [c])) by (rewrite length_app; simpl; lia).
    rewrite IH. rewrite <- app_assoc. reflexivity.
Qed.

Lemma unmask_xor_mask (mask : list ascii) (payload : pystr) :
  length mask = 4%nat ->
  unmask (map ord mask) (xor_mask mask payload) = Ok payload.
Proof.
  intros Hmask. unfold unmask, xor_mask.
  exact (unmask_from mask payload [] Hmask).
Qed.

Lemma set_inbound_twice (a b : list pystr) (h : Handler) :
  set_inbound a (set_inbound b h) = set_inbound a h.
Proof. reflexivity. Qed.

Lemma length_xor_mask_from (i : nat) (mask : list ascii) (payload : pystr) :
  length (xor_mask_from i mask payload) = length payload.
Proof.
  revert i. induction payload as [|c payload IH]; intros i; simpl; [reflexivity|].
  rewrite IH. reflexivity.
Qed.

Lemma read_segments_cons (n : nat) (seg : pystr) (tl : list pystr) :
  (0 < n)%nat -> seg <> [] ->
  read_segments n (seg :: tl)
  = if (n <=? length seg)%nat
    then Some (take n seg, push_segment (drop n seg) tl)
    else match read_segments (n - length seg) tl with
         | Some (got, rest') => Some (seg ++ got, rest')
         | None => None
         end.
Proof.
  intros Hn Hseg. destruct n as [|n]; [lia|]. destruct seg as [|c seg]; [contradiction|].
  cbn [read_segments]. destruct (S n <=? length (c :: seg))%nat; [|reflexivity].
  unfold push_segment. destruct (drop (S n) (c :: seg)); reflexivity.
Qed.

Lemma length_pos_nonempty {A} (l : list A) : l <> [] -> (0 < length l)%nat.
Proof. destruct l; [contradiction|simpl; lia]. Qed.

Lemma read_segments_zero (segs : list pystr) : read_segments 0 segs = Some ([], segs).
Proof. destruct segs; reflexivity. Qed.

(** A read of the bytes [x ++ y] is a read of [x] followed by a read of [y]. *)
Lemma delivers_app (segs : list pystr) :
  forall (x y : pystr) (rest : list pystr),
    delivers segs (x ++ y) rest ->
    exists mid, delivers segs x mid /\ delivers mid y rest.
Proof.
  unfold delivers. induction segs as [|seg tl IH]; intros x y rest E.
  - destruct x as [|a x]; [|simpl in E; discriminate].
    destruct y as [|b y]; [|simpl in E; discriminate].
    exists []. auto.
  - destruct (decide (x = [])) as [->|Hx0].
    { exists (seg :: tl). split; [apply read_segments_zero|exact E]. }
    pose proof (length_pos_nonempty x Hx0) as Hxpos.
    destruct (decide (seg = [])) as [->|Hseg0].
    { destruct x; [contradiction|]. simpl in E. discriminate. }
    rewrite length_app in E.
    rewrite read_segments_cons in E by (assumption || lia).
    rewrite read_segments_cons by (assumption || lia).
    destruct (Nat.leb_spec (length x + length y) (length seg)) as [Hle|Hgt].
    + injection E as Etake Erest. subst rest.
      destruct (Nat.leb_spec (length x) (length seg)) as [_|]; [|lia].
      assert (Hx : take (length x) seg = x).
      { transitivity (take (length x) (x ++ y)); [|apply take_app_length].
        rewrite <- Etake, take_take. f_equal. lia. }
      assert (Hy : take (length y) (drop (length x) seg) = y).
      { rewrite take_drop_commute, Etake. apply drop_app_length. }
      exists (push_segment (drop (length x) seg) tl).
      split; [rewrite Hx; reflexivity|].
      destruct (decide (y = [])) as [->|Hy0].
      * rewrite Nat.add_0_r. apply read_segments_zero.
      * pose proof (length_pos_nonempty y Hy0) as Hypos.
        assert (Hd : drop (length x) seg <> []).
        { intros Ed. apply (f_equal length) in Ed. rewrite length_drop in Ed.
          simpl in Ed. lia. }
        unfold push_segment at 1.
        destruct (drop (length x) seg) as [|d ds] eqn:Ed; [contradiction|].
        rewrite read_segments_cons by (assumption || lia).
        assert (Hdl : length (d :: ds) = (length seg - length x)%nat)
          by (rewrite <- Ed; apply length_drop).
        destruct (Nat.leb_spec (length y) (length (d :: ds))) as [_|]; [|lia].
        rewrite Hy. f_equal. f_equal. f_equal.
        rewrite <- Ed, drop_drop. reflexivity.
    + destruct (read_segments (length x + length y - length seg) tl)
        as [[got rest']|] eqn:E'; [|discriminate].
      injection E as Eapp Erest. subst rest.
      assert (Hgot : length got = (length x + length y - length seg)%nat).
      { apply (f_equal length) in Eapp. rewrite !length_app in Eapp. lia. }
      destruct (Nat.leb_spec (length x) (length seg)) as [Hxle|Hxgt].
      * assert (Hx : take (length x) seg = x).
        { rewrite <- (take_app_le seg got) by lia.
          rewrite Eapp. apply take_app_length. }
        assert (Hy : y = drop (length x) seg ++ got).
        { rewrite <- (drop_app_le seg got) by lia.
          rewrite Eapp, drop_app_length. reflexivity. }
        exists (push_segment (drop (length x) seg) tl).
        split; [rewrite Hx; reflexivity|].
        assert (Hdl : length (drop (length x) seg) = (length seg - length x)%nat)
          by apply length_drop.
        unfold push_segment.
        destruct (drop (length x) seg) as [|d ds] eqn:Ed.
        -- simpl in Hy. subst y. rewrite <- E'. f_equal. simpl in Hdl. lia.
        -- rewrite read_segments_cons by (discriminate || (subst y; simpl; lia)).
           destruct (Nat.leb_spec (length y) (length (d :: ds))) as [Hyle|_].
           ++ exfalso. subst y. rewrite length_app in Hyle. lia.
           ++ replace (length y - length (d :: ds))%nat
                with (length x + length y - length seg)%nat
                by (subst y; rewrite length_app; lia).
              rewrite E'. subst y. reflexivity.
      * assert (Hseg : seg = take (length seg) x).
        { rewrite <- (take_app_le x y) by lia.
          rewrite <- Eapp, take_app_length. reflexivity. }
        assert (Hgot' : got = drop (length seg) x ++ y).
        { rewrite <- (drop_app_le x y) by lia.
          rewrite <- Eapp, drop_app_length. reflexivity. }
        destruct (IH (drop (length seg) x) y rest') as (mid & Hmid & Hrest).
        { rewrite <- Hgot', <- E'. f_equal. rewrite Hgot. reflexivity. }
        exists mid. split; [|exact Hrest].
        rewrite length_drop in Hmid. rewrite Hmid.
        f_equal. f_equal. rewrite Hseg at 1. apply take_drop.
Qed.

Lemma rfile_read_delivers (x : pystr) (rest : list pystr) (h : Handler) :
  delivers (inbound h) x rest ->
  rfile_read (len x) h = (Ok x, set_inbound rest h).
Proof.
  intros E. unfold rfile_read, len. rewrite Nat2Z.id, E. reflexivity.
Qed.

Lemma delivers_nil (segs rest : list pystr) : delivers segs [] rest -> rest = segs.
Proof.
  unfold delivers. simpl length. rewrite read_segments_zero. congruence.
Qed.

Lemma land_127_small (n : Z) : 0 <= n <= 127 -> Z.land n 127 = n.
Proof.
  intros Hn. change 127 with (Z.ones 7). rewrite Z.land_ones by lia.
  apply Z.mod_small. simpl. lia.
Qed.

Lemma land_127_mask_bit (b : ascii) :
  ord b <= 127 -> Z.land (ord (ascii_of_N (N_of_ascii b + 128))) 127 = ord b.
Proof.
  intros Hb. pose proof (ord_range b) as Hr. unfold ord in *.
  rewrite N_ascii_embedding by lia.
  change 127 with (Z.ones 7). rewrite Z.land_ones by lia.
  rewrite N2Z.inj_add. change (Z.of_N 128) with (1 * 2 ^ 7).
  rewrite Z.mod_add by lia. apply Z.mod_small. simpl. lia.
Qed.

(** Reading a frame whose second byte has the length code [code] in its low
    seven bits and whose extended length is [ext]. *)
Lemma read_frame (control second : ascii) (ext mask payload : pystr)
    (rest : list pystr) (h : Handler) :
  (Z.land (ord second) 127 = len payload /\ len payload <= 125 /\ ext = []) \/
  (Z.land (ord second) 127 = 126 /\ length ext = 2%nat /\ be_value ext = len payload) \/
  (Z.land (ord second) 127 = 127 /\ length ext = 8%nat /\ be_value ext = len payload) ->
  length mask = 4%nat ->
  delivers (inbound h) (control :: second :: ext ++ mask ++ xor_mask mask payload) rest ->
  read_next_message h
  = (Ok tt, set_stdout (stdout h ++ [payload]) (set_inbound rest h)).
Proof.
  intros Hcode Hmask Hin.
  change (control :: second :: ext ++ mask ++ xor_mask mask payload)
    with ([control; second] ++ ext ++ mask ++ xor_mask mask payload) in Hin.
  destruct (delivers_app _ _ _ _ Hin) as (mid1 & Hhead & Hin1).
  destruct (delivers_app _ _ _ _ Hin1) as (mid2 & Hext & Hin2).
  destruct (delivers_app _ _ _ _ Hin2) as (mid3 & Hmid & Hpayload).
  assert (Htail : forall h1,
    inbound h1 = mid2 ->
    (mask_bytes <~ rfile_read 4;;
     let masks := map ord mask_bytes in
     body <~ rfile_read (len payload);;
     decoded <~ lift (unmask masks body);;
     on_message decoded) h1
    = (Ok tt, set_stdout (stdout h1 ++ [payload]) (set_inbound rest h1))).
  { intros h1 E1.
    erewrite bind_ok; cycle 1.
    { replace 4 with (len mask) by (unfold len; rewrite Hmask; reflexivity).
      apply rfile_read_delivers. rewrite E1. exact Hmid. }
    cbv zeta.
    erewrite bind_ok; cycle 1.
    { replace (len payload) with (len (xor_mask mask payload))
        by (unfold len, xor_mask; rewrite length_xor_mask_from; reflexivity).
      apply rfile_read_delivers. exact Hpayload. }
    unfold bind, lift. rewrite unmask_xor_mask by assumption.
    reflexivity. }
  unfold read_next_message.
  erewrite bind_ok; cycle 1.
  { apply (rfile_read_delivers [control; second]). exact Hhead. }
  unfold bind at 1. unfold lift at 1.
  change (py_index [control; second] 1) with (Ok (A:=ascii) second).
  cbv iota beta zeta.
  destruct Hcode as [(Hland & Hsmall & ->)|[(Hland & Hl & Hv)|(Hland & Hl & Hv)]];
    rewrite Hland.
  - apply delivers_nil in Hext. subst mid2.
    destruct (Z.eqb_spec (len payload) 126); [lia|].
    destruct (Z.eqb_spec (len payload) 127); [lia|].
    unfold bind at 1, ret at 1.
    rewrite Htail by reflexivity. reflexivity.
  - change (126 =? 126) with true. cbv iota.
    erewrite bind_ok; cycle 1.
    { erewrite bind_ok; cycle 1.
      { replace 2 with (len ext) by (unfold len; rewrite Hl; reflexivity).
        apply rfile_read_delivers. exact Hext. }
      unfold lift, struct_unpack_be. rewrite Hl. simpl Nat.eqb. cbv iota.
      rewrite Hv. reflexivity. }
    rewrite Htail by reflexivity. reflexivity.
  - change (127 =? 126) with false. change (127 =? 127) with true. cbv iota.
    erewrite bind_ok; cycle 1.
    { erewrite bind_ok; cycle 1.
      { replace 8 with (len ext) by (unfold len; rewrite Hl; reflexivity).
        apply rfile_read_delivers. exact Hext. }
      unfold lift, struct_unpack_be. rewrite Hl. simpl Nat.eqb. cbv iota.
      rewrite Hv. reflexivity. }
    rewrite Htail by reflexivity. reflexivity.
Qed.

(** C1.  A frame made of one control byte, the three-tier encoding of the
    payload's length (with or without the mask bit in its first byte), four
    mask bytes and the payload xor-ed with [mask[i mod 4]] is decoded to
    exactly the payload, in whatever segments the frame arrives:
    [read_next_message] hands the original bytes to [on_message] and leaves
    what follows the frame in the stream.  A length has a three-tier encoding
    when it is below 2^64. *)
Theorem frame_round_trip (payload prefix : pystr) (masked : bool)
    (control m0 m1 m2 m3 : ascii) (rest : list pystr) (h : Handler) :
  three_tier_length (len payload) prefix ->
  delivers (inbound h)
           (control :: (if masked then set_mask_bit prefix else prefix)
                    ++ [m0; m1; m2; m3] ++ xor_mask [m0; m1; m2; m3] payload)
           rest ->
  read_next_message h
  = (Ok tt, set_stdout (stdout h ++ [payload]) (set_inbound rest h)).
Proof.
  intros Htier Hin.
  assert (Hsplit : exists second ext,
    (if masked then set_mask_bit prefix else prefix) = second :: ext /\
    ((Z.land (ord second) 127 = len payload /\ len payload <= 125 /\ ext = []) \/
     (Z.land (ord second) 127 = 126 /\ length ext = 2%nat /\ be_value ext = len payload) \/
     (Z.land (ord second) 127 = 127 /\ length ext = 8%nat /\ be_value ext = len payload))).
  { pose proof (len_nonneg payload) as Hpos.
    destruct Htier as [(Hn & b & -> & Hb)|[(Hn & hi & lo & -> & Hv)|(Hn & bs & -> & Hl & Hv)]].
    - destruct masked; eexists _, _; (split; [reflexivity|]); left;
        (split; [|split; [assumption|reflexivity]]).
      + rewrite land_127_mask_bit by lia. exact Hb.
      + rewrite land_127_small by lia. exact Hb.
    - destruct masked; eexists _, _; (split; [reflexivity|]); right; left;
        (split; [reflexivity|split; [reflexivity|]]);
        unfold be_value; simpl; lia.
    - destruct masked; eexists _, _; (split; [reflexivity|]); right; right;
        (split; [reflexivity|split; assumption]). }
  destruct Hsplit as (second & ext & Hprefix & Hcode).
  rewrite Hprefix in Hin.
  exact (read_frame control second ext [m0; m1; m2; m3] payload rest h Hcode eq_refl Hin).
Qed.

Lemma frame_round_trip_witness :
  read_next_message sample_frame_connection
  = (Ok tt, set_stdout [py "Hello"] (set_inbound [] sample_frame_connection)).
Proof.
  apply (frame_round_trip (py "Hello") ["005"%char] true "129"%char
           "055"%char "250"%char "033"%char "061"%char [] sample_frame_connection).
  - left. split; [unfold len; simpl; lia|].
    exists "005"%char. split; reflexivity.
  - reflexivity.
Defined.

Lemma read_two (tail : pystr) (segs : list pystr) :
  exists o : option (pystr * list pystr),
    forall c : ascii,
      read_segments 2 ((c :: tail) :: segs)
      = match o with
        | Some (x, rest) => Some (c :: x, rest)
        | None => None
        end.
Proof.
  destruct tail as [|t tail].
  - exists (read_segments 1 segs). intros c. simpl.
    destruct (read_segments 1 segs) as [[got rest]|]; reflexivity.
  - exists (Some ([t], match tail with [] => segs | _ => tail :: segs end)).
    intros c. simpl. destruct tail; reflexivity.
Qed.

Lemma read_next_message_control (tail : pystr) (segs : list pystr) (h : Handler) :
  exists o : option (result unit * Handler),
    forall c : ascii,
      read_next_message (set_inbound ((c :: tail) :: segs) h)
      = match o with
        | Some res => res
        | None => (Pending, set_inbound ((c :: tail) :: segs) h)
        end.
Proof.
  destruct (read_two tail segs) as [[[x rest]|] Ho].
  - eexists (Some _). intros c.
    unfold read_next_message. unfold bind at 1. unfold rfile_read at 1.
    change (Z.to_nat 2) with 2%nat. cbn [inbound set_inbound].
    rewrite (Ho c), set_inbound_twice.
    unfold bind at 1. unfold lift at 1.
    replace (py_index (c :: x) 1) with (py_index x 0); [reflexivity|].
    unfold py_index. simpl Z.ltb. cbv iota. reflexivity.
  - exists None. intros c.
    unfold read_next_message. unfold bind at 1. unfold rfile_read at 1.
    change (Z.to_nat 2) with 2%nat. cbn [inbound set_inbound].
    rewrite (Ho c). reflexivity.
Qed.

(** C10.  Two streams that differ only in the first byte of a frame are
    decoded alike: [read_next_message] has the same outcome and prints the
    same payload, and whenever it does not block it leaves the same state.
    The control byte (FIN and opcode) is never looked at. *)
Theorem control_byte_ignored (control control' : ascii) (tail : pystr)
    (segs : list pystr) (h : Handler) :
  let r := read_next_message (set_inbound ((control :: tail) :: segs) h) in
  let r' := read_next_message (set_inbound ((control' :: tail) :: segs) h) in
  r.1 = r'.1 /\ stdout r.2 = stdout r'.2 /\ (r.1 <> Pending -> r.2 = r'.2).
Proof.
  destruct (read_next_message_control tail segs h) as [o Ho].
  cbv zeta. rewrite (Ho control), (Ho control').
  destruct o as [res|]; simpl.
  - split; [reflexivity|]. split; [reflexivity|]. intros _. reflexivity.
  - split; [reflexivity|]. split; [reflexivity|]. intros H. contradiction.
Qed.

(** The frame for "Hello" read as a text frame (0x81) and as a close frame
    (0x88). *)
Lemma control_byte_ignored_witness :
  (read_next_message
     (set_inbound [["129"%char; "133"%char; "055"%char]; sample_frame_tail]
                  sample_handler)).1
  = (read_next_message
       (set_inbound [["136"%char; "133"%char; "055"%char]; sample_frame_tail]
                    sample_handler)).1 /\
  stdout (read_next_message
            (set_inbound [["136"%char; "133"%char; "055"%char]; sample_frame_tail]
                         sample_handler)).2
  = [py "Hello"].
Proof.
  destruct (control_byte_ignored "129"%char "136"%char ["133"%char; "055"%char]
              [sample_frame_tail] sample_handler) as (Hout & Hprint & _).
  split; [exact Hout|]. rewrite <- Hprint. reflexivity.
Defined.

(** ** The handshake *)

Lemma hex_value_digit (k : N) : (k < 16)%N -> hex_value (hex_digit k) = Some k.
Proof.
  intros Hk. destruct k as [|p]; [reflexivity|].
  do 4 (destruct p as [p|p|]; try reflexivity); exfalso; lia.
Qed.

(** [decode('hex')] undoes [hexdigest]'s encoding. *)
Lemma hex_decode_encode (s : pystr) : hex_decode (hex_encode s) = Ok s.
Proof.
  induction s as [|c s IH]; [reflexivity|].
  unfold hex_encode in *. simpl flat_map. cbv zeta.
  change (?a :: ?b :: [] ++ ?r) with (a :: b :: r). cbn [app hex_decode].
  pose proof (N_ascii_bounded c) as Hc.
  rewrite !hex_value_digit.
  - rewrite IH. simpl rbind.
    rewrite <- N.div_mod by lia. rewrite ascii_N_embedding. reflexivity.
  - apply N.mod_lt. lia.
  - apply N.Div0.div_lt_upper_bound. exact Hc.
Qed.

(** C6.  For every nonce, the accept token the handshake computes is the
    Base64 encoding of the raw SHA-1 digest of the nonce followed by the magic
    string 258EAFA5-E914-47DA-95CA-C5AB0DC85B11. *)
Theorem accept_token_is_base64_sha1 `{Library} (key : pystr) :
  accept_digest key
  = Ok (b64encode (sha1_digest (key ++ py "258EAFA5-E914-47DA-95CA-C5AB0DC85B11"))).
Proof.
  unfold accept_digest, hexdigest. rewrite hex_decode_encode. reflexivity.
Qed.

(** The sample of RFC 6455, section 1.3, with SHA-1 and Base64 as the
    standards define them. *)
Example accept_token_rfc6455 :
  accept_digest (py "dGhlIHNhbXBsZSBub25jZQ==") = Ok (py "s3pPLMBiTxaQ9kYGzzhZRbK+xOo=").
Proof. vm_compute. reflexivity. Qed.

(** ** The parser of /proc/net/dev: the header line *)

(** The first piece of a split and what follows it. *)
Lemma py_split_on_inv (c : ascii) (s p : pystr) (rest : list pystr) :
  py_split_on c s = p :: rest ->
  no_char c p /\
  ((rest = [] /\ s = p) \/
   (exists s', s = p ++ c :: s' /\ py_split_on c s' = rest /\ rest <> [])).
Proof.
  revert p rest. induction s as [|x s IH]; intros p rest E.
  - simpl in E. injection E as <- <-. split; [constructor|]. left. auto.
  - simpl in E. destruct (Ascii.eqb_spec x c) as [->|Hne].
    + injection E as <- <-. split; [constructor|]. right.
      exists s. split; [reflexivity|]. split; [reflexivity|].
      destruct s; simpl; [discriminate|].
      destruct (Ascii.eqb a c); [discriminate|].
      destruct (py_split_on c s); discriminate.
    + destruct (py_split_on c s) as [|q qs] eqn:Es.
      * injection E as <- <-. exfalso.
        destruct s; simpl in Es; [discriminate|].
        destruct (Ascii.eqb a c); [discriminate|].
        destruct (py_split_on c s); discriminate.
      * injection E as <- <-.
        destruct (IH q qs eq_refl) as [Hq Hcase].
        split; [constructor; assumption|].
        destruct Hcase as [[-> ->]|(s' & -> & Hs' & Hne')].
        -- left. auto.
        -- right. exists s'. auto.
Qed.

Lemma find_from_none (c : ascii) (p : pystr) (i : Z) :
  no_char c p -> find_from c p i = -1.
Proof.
  intros Hp. revert i. induction Hp as [|x p Hx Hp IH]; intros i; simpl; [reflexivity|].
  destruct (Ascii.eqb_spec x c); [contradiction|]. apply IH.
Qed.

Lemma find_from_first (c : ascii) (p s : pystr) (i : Z) :
  no_char c p -> find_from c (p ++ c :: s) i = i + len p.
Proof.
  intros Hp. revert i. induction Hp as [|x p Hx Hp IH]; intros i; simpl.
  - rewrite Ascii.eqb_refl. unfold len. simpl. lia.
  - destruct (Ascii.eqb_spec x c); [contradiction|].
    rewrite IH. unfold len. simpl length. lia.
Qed.

Lemma slice_index_inside (n i : Z) : 0 <= i <= n -> slice_index n i = i.
Proof.
  intros Hi. unfold slice_index. destruct (Z.ltb_spec i 0); lia.
Qed.

Lemma py_find_after (c : ascii) (pre s : pystr) :
  py_find c (pre ++ s) (len pre) = find_from c s (len pre).
Proof.
  unfold py_find. rewrite slice_index_inside.
  - unfold len at 1. rewrite Nat2Z.id, drop_app_length. reflexivity.
  - rewrite len_app. pose proof (len_nonneg pre). pose proof (len_nonneg s). lia.
Qed.

Lemma py_slice_middle {A} (pre p post : list A) :
  py_slice (pre ++ p ++ post) (len pre) (Some (len pre + len p)) = p.
Proof.
  unfold py_slice. rewrite !len_app.
  pose proof (len_nonneg pre). pose proof (len_nonneg p). pose proof (len_nonneg post).
  rewrite !slice_index_inside by lia.
  replace (len pre + len p - len pre) with (len p) by lia.
  unfold len. rewrite !Nat2Z.id, drop_app_length, take_app_length. reflexivity.
Qed.

Lemma py_slice_to_end {A} (pre s : list A) :
  py_slice (pre ++ s) (len pre) None = s.
Proof.
  unfold py_slice. rewrite !len_app.
  pose proof (len_nonneg pre). pose proof (len_nonneg s).
  rewrite slice_index_inside by lia.
  replace (len pre + len s - len pre) with (len s) by lia.
  unfold len. rewrite !Nat2Z.id, drop_app_length, firstn_all. reflexivity.
Qed.

Lemma sections_loop_spans (pieces : list pystr) :
  forall (s pre : pystr) (acc : list section) (fuel : nat),
    py_split_on "|" s = pieces ->
    len pre <> 1 ->
    (pre = [] -> hd [] pieces <> []) ->
    (length pieces <= fuel)%nat ->
    sections_loop fuel (pre ++ s) (Some (len pre - 1)) acc
    = Ok (acc ++ map named (spans (len pre) pieces)).
Proof.
  induction pieces as [|p rest IH]; intros s pre acc fuel Es Hpre Hhd Hfuel.
  - destruct s; simpl in Es; [discriminate|].
    destruct (Ascii.eqb a "|"); [discriminate|].
    destruct (py_split_on "|" s); discriminate.
  - destruct (py_split_on_inv _ _ _ _ Es) as [Hp Hcase].
    destruct fuel as [|fuel]; [simpl in Hfuel; lia|].
    cbn [sections_loop].
    destruct (Z.eqb_spec (len pre - 1) 0) as [E0|_]; [lia|].
    replace (len pre - 1 + 1) with (len pre) by lia.
    rewrite py_find_after.
    destruct Hcase as [[-> ->]|(s' & -> & Es' & Hne)].
    + rewrite find_from_none by assumption. simpl Z.ltb. cbv iota.
      rewrite py_slice_to_end. destruct fuel; reflexivity.
    + rewrite find_from_first by assumption.
      pose proof (len_nonneg pre). pose proof (len_nonneg p).
      destruct (Z.ltb_spec (len pre + len p) 0) as [|_]; [lia|].
      rewrite py_slice_middle.
      assert (Hlen' : len (pre ++ p ++ ["|"%char]) = len pre + len p + 1)
        by (rewrite !len_app; unfold len; simpl; lia).
      specialize (IH s' (pre ++ p ++ ["|"%char])
                    (acc ++ [(len pre, Some (len pre + len p), py_lower (py_strip p))])
                    fuel Es').
      rewrite Hlen' in IH.
      replace (len pre + len p + 1 - 1) with (len pre + len p) in IH by lia.
      rewrite <- !app_assoc in IH. simpl app in IH.
      rewrite IH.
      * destruct rest as [|q rest]; [contradiction|]. reflexivity.
      * destruct pre as [|x pre].
        -- specialize (Hhd eq_refl). simpl in Hhd.
           destruct p; [contradiction|]. unfold len. simpl. lia.
        -- unfold len. simpl. lia.
      * intros Hnil. exfalso. apply (f_equal length) in Hnil.
        rewrite !length_app in Hnil. simpl in Hnil. lia.
      * simpl in Hfuel. lia.
Qed.

Lemma find_from_bounds (c : ascii) (s : pystr) (i : Z) :
  find_from c s i = -1 \/ i <= find_from c s i < i + len s.
Proof.
  revert i. induction s as [|x s IH]; intros i; simpl; [left; reflexivity|].
  unfold len. simpl length. destruct (Ascii.eqb x c); [right; lia|].
  destruct (IH (i + 1)) as [E|E]; [left; exact E|right]. unfold len in E. lia.
Qed.

Lemma py_find_bounds (c : ascii) (s : pystr) (start : Z) :
  0 <= start ->
  py_find c s start = -1 \/ start <= py_find c s start < len s.
Proof.
  intros Hstart. unfold py_find, slice_index.
  destruct (Z.ltb_spec start 0) as [|_]; [lia|].
  pose proof (len_nonneg s) as Hlen.
  destruct (find_from_bounds c (drop (Z.to_nat (Z.min start (len s))) s)
              (Z.min start (len s))) as [E|E]; [left; exact E|].
  unfold len in *. rewrite length_drop in E.
  destruct (Z.le_gt_cases start (Z.of_nat (length s))).
  - rewrite Z.min_l in * by lia. right. lia.
  - rewrite Z.min_r in * by lia. rewrite Nat2Z.id, Nat.sub_diag in E. lia.
Qed.

(** The loop over the header line ends within the fuel [update] is given,
    whatever the line. *)
Lemma sections_loop_ends (headerline : pystr) (fuel : nat) :
  forall (p : Z) (acc : list section),
    p = -1 \/ 0 <= p < len headerline ->
    len headerline - p <= Z.of_nat fuel ->
    exists sections, sections_loop fuel headerline (Some p) acc = Ok sections.
Proof.
  induction fuel as [|fuel IH]; intros p acc Hp Hfuel.
  - simpl. destruct (Z.eqb_spec p 0); [eauto|].
    pose proof (len_nonneg headerline). lia.
  - cbn [sections_loop]. destruct (Z.eqb_spec p 0); [eauto|].
    destruct (py_find_bounds "|" headerline (p + 1)) as [E|E]; [lia| |].
    + rewrite E. simpl Z.ltb. cbv iota. destruct fuel; simpl; eauto.
    + destruct (Z.ltb_spec (py_find "|" headerline (p + 1)) 0); [lia|].
      apply IH; [right; lia|lia].
Qed.

Lemma sections_loop_total (headerline : pystr) :
  exists sections,
    sections_loop (S (length headerline)) headerline (Some (-1)) [] = Ok sections.
Proof.
  apply sections_loop_ends; [left; reflexivity|]. unfold len. lia.
Qed.

(** ** The parser of /proc/net/dev: the data rows *)

Lemma fold_rbind_raise {A B} (k : B -> A -> result A) (l : list B) (e : exn) :
  fold_left (fun acc i => rbind acc (k i)) l (Raise e) = Raise e.
Proof. induction l as [|i l IH]; simpl; [reflexivity|exact IH]. Qed.

Lemma py_index_lookup {A} (l : list A) (i : nat) (x : A) :
  l !! i = Some x -> py_index l (Z.of_nat i) = Ok x.
Proof.
  intros E. unfold py_index.
  destruct (Z.ltb_spec (Z.of_nat i) 0); [lia|].
  destruct (Z.ltb_spec (Z.of_nat i) 0); [lia|].
  rewrite Nat2Z.id, E. reflexivity.
Qed.

Lemma py_index_beyond {A} (l : list A) (i : nat) :
  (length l <= i)%nat -> py_index l (Z.of_nat i) = Raise IndexError.
Proof.
  intros Hi. unfold py_index.
  destruct (Z.ltb_spec (Z.of_nat i) 0); [lia|].
  destruct (Z.ltb_spec (Z.of_nat i) 0); [lia|].
  rewrite Nat2Z.id. rewrite (proj2 (lookup_ge_None l i)) by lia. reflexivity.
Qed.

Section Row.

(** The tokens of a row and the integers they denote. *)
Variable data : list pystr.
Variable vals : list Z.
Hypothesis Hvals : Forall2 (fun t v => py_int t = Ok v) data vals.

Lemma labels_fold (suf pre : list pystr) (tmp : fields) (pos : nat) :
  (pos <= length data)%nat ->
  fold_left
    (fun acc label_number =>
       st <- acc;;
       let '(tmp, absolute_position) := st in
       token <- py_index data absolute_position;;
       value <- py_int token;;
       label <- py_index (pre ++ suf) (Z.of_nat label_number);;
       Ok (<[label := value]> tmp, absolute_position + 1))
    (seq (length pre) (length suf)) (Ok (tmp, Z.of_nat pos))
  = if (pos + length suf <=? length data)%nat
    then Ok (fold_left (fun tmp lv => <[lv.1 := lv.2]> tmp)
                       (zip suf (take (length suf) (drop pos vals))) tmp,
             Z.of_nat (pos + length suf))
    else Raise IndexError.
Proof.
  revert pre tmp pos. induction suf as [|x suf IH]; intros pre tmp pos Hpos.
  - simpl. rewrite Nat.add_0_r.
    destruct (Nat.leb_spec pos (length data)); [reflexivity|lia].
  - cbn [length seq fold_left]. cbn [rbind].
    destruct (data !! pos) as [t|] eqn:Et.
    + destruct (Forall2_lookup_l _ _ _ _ _ Hvals Et) as (v & Ev & Hv).
      rewrite (py_index_lookup _ _ t Et). cbn [rbind]. rewrite Hv. cbn [rbind].
      rewrite (py_index_lookup _ _ x)
        by (rewrite lookup_app_r by lia; rewrite Nat.sub_diag; reflexivity).
      cbn [rbind].
      pose proof (lookup_lt_Some _ _ _ Et) as Hlt.
      replace (Z.of_nat pos + 1) with (Z.of_nat (S pos)) by lia.
      specialize (IH (pre ++ [x]) (<[x := v]> tmp) (S pos)).
      rewrite <- app_assoc in IH. simpl app in IH.
      rewrite length_app in IH. simpl length in IH.
      replace (length pre + 1)%nat with (S (length pre)) in IH by lia.
      rewrite IH by lia.
      replace (S pos + length suf)%nat with (pos + S (length suf))%nat by lia.
      destruct (Nat.leb_spec (pos + S (length suf)) (length data)); [|reflexivity].
      rewrite (drop_S _ _ _ Ev). reflexivity.
    + pose proof (lookup_ge_None_1 _ _ Et) as Hge.
      rewrite py_index_beyond by assumption. cbn [rbind].
      rewrite fold_rbind_raise.
      destruct (Nat.leb_spec (pos + S (length suf)) (length data)); [lia|reflexivity].
Qed.

Lemma labels_loop_result (labels : list pystr) (pos : nat) :
  (pos <= length data)%nat ->
  labels_loop labels data (Z.of_nat pos)
  = if (pos + length labels <=? length data)%nat
    then Ok (fields_of labels (take (length labels) (drop pos vals)),
             Z.of_nat (pos + length labels))
    else Raise IndexError.
Proof.
  intros Hpos. unfold labels_loop, fields_of.
  exact (labels_fold labels [] ∅ pos Hpos).
Qed.

Lemma length_flattened_cons (g : pystr * list pystr) (groups : list (pystr * list pystr)) :
  length (flattened (g :: groups)) = (length g.2 + length (flattened groups))%nat.
Proof.
  unfold flattened. simpl. rewrite length_app, length_map. reflexivity.
Qed.

Lemma sections_fold (name : pystr) (base : counters) (gsuf : list (pystr * list pystr)) :
  forall (ssuf spre : list section) (lpre : list (list pystr)) (d : interface) (pos : nat),
    map (fun s : section => s.2) ssuf = map fst gsuf ->
    length lpre = length spre ->
    (pos <= length data)%nat ->
    fold_left
      (fun acc section_number =>
         st <- acc;;
         let '(interfaces, absolute_position) := st in
         section_labels <- py_index (lpre ++ map snd gsuf) (Z.of_nat section_number);;
         filled <- labels_loop section_labels data absolute_position;;
         let '(tmp, absolute_position) := filled in
         section <- py_index (spre ++ ssuf) (Z.of_nat section_number);;
         interfaces <- set_section interfaces name section.2 tmp;;
         Ok (interfaces, absolute_position))
      (seq (length spre) (length ssuf)) (Ok (<[name := d]> base, Z.of_nat pos))
    = if (pos + length (flattened gsuf) <=? length data)%nat
      then Ok (<[name := iface_fill gsuf (drop pos vals) d]> base,
               Z.of_nat (pos + length (flattened gsuf)))
      else Raise IndexError.
Proof.
  induction gsuf as [|g gsuf IH]; intros ssuf spre lpre d pos Hs Hl Hpos.
  - destruct ssuf; [|discriminate]. simpl. rewrite Nat.add_0_r.
    destruct (Nat.leb_spec pos (length data)); [reflexivity|lia].
  - destruct ssuf as [|s ssuf]; [discriminate|].
    simpl in Hs. injection Hs as Hs1 Hs.
    cbn [length seq fold_left]. cbn [rbind].
    rewrite (py_index_lookup _ _ g.2)
      by (rewrite lookup_app_r by lia; rewrite Hl, Nat.sub_diag; reflexivity).
    cbn [rbind]. rewrite labels_loop_result by assumption.
    rewrite length_flattened_cons.
    destruct (Nat.leb_spec (pos + length g.2) (length data)) as [Hfit|Hshort].
    + cbn [rbind].
      rewrite (py_index_lookup _ _ s)
        by (rewrite lookup_app_r by lia; rewrite Nat.sub_diag; reflexivity).
      cbn [rbind]. unfold set_section. rewrite lookup_insert_eq. cbn [rbind].
      rewrite insert_insert_eq.
      specialize (IH ssuf (spre ++ [s]) (lpre ++ [g.2])).
      rewrite <- !app_assoc in IH. simpl app in IH.
      rewrite !length_app in IH. simpl length in IH.
      replace (length spre + 1)%nat with (S (length spre)) in IH by lia.
      rewrite IH; [|assumption|lia|lia].
      rewrite Hs1. cbn [iface_fill]. rewrite drop_drop.
      replace (pos + length g.2 + length (flattened gsuf))%nat
        with (pos + (length g.2 + length (flattened gsuf)))%nat by lia.
      reflexivity.
    + cbn [rbind]. rewrite fold_rbind_raise.
      destruct (Nat.leb_spec (pos + (length g.2 + length (flattened gsuf))) (length data));
        [lia|reflexivity].
Qed.

Lemma sections_fill_result (sections : list section) (groups : list (pystr * list pystr))
    (name : pystr) (base : counters) :
  map (fun s : section => s.2) sections = map fst groups ->
  sections_fill sections (map snd groups) name data (<[name := ∅]> base)
  = if (length (flattened groups) <=? length data)%nat
    then Ok (<[name := iface_fill groups vals ∅]> base)
    else Raise IndexError.
Proof.
  intros Hs. unfold sections_fill.
  pose proof (sections_fold name base groups sections [] [] ∅ 0 Hs eq_refl) as H.
  simpl in H. change (Z.of_nat 0) with 0 in H.
  rewrite H by lia.
  destruct (length (flattened groups) <=? length data)%nat; reflexivity.
Qed.

End Row.

Lemma row_parse_tokens (n : nat) (row name : pystr) (vals : list Z) :
  row_parse n row = Some (name, vals) ->
  row_parse 0 row = Some (name, vals) /\ (n <= length vals)%nat.
Proof.
  unfold row_parse.
  destruct (py_split1 [":"%char] (py_strip_chars [NL] row)) as [|rawname [|data [|? ?]]];
    try discriminate.
  destruct (Nat.leb_spec n (length (py_split data))) as [Hn|]; [|discriminate].
  simpl Nat.leb. cbv iota.
  destruct (mapM int_option (py_split data)) as [vs|] eqn:Em; [|discriminate].
  simpl. intros E. injection E as <- <-. split; [reflexivity|].
  apply mapM_Some_1 in Em. apply Forall2_length in Em. lia.
Qed.

Lemma parse_row_result (sections : list section) (groups : list (pystr * list pystr))
    (base : counters) (row name : pystr) (vals : list Z) :
  map (fun s : section => s.2) sections = map fst groups ->
  row_parse 0 row = Some (name, vals) ->
  parse_row sections (map snd groups) base row
  = if (length (flattened groups) <=? length vals)%nat
    then Ok (<[name := iface_fill groups vals ∅]> base)
    else Raise IndexError.
Proof.
  intros Hs. unfold row_parse, parse_row.
  destruct (py_split1 [":"%char] (py_strip_chars [NL] row)) as [|rawname [|data [|? ?]]];
    try discriminate.
  simpl Nat.leb. cbv iota.
  destruct (mapM int_option (py_split data)) as [vs|] eqn:Em; [|discriminate].
  simpl. intros E. injection E as <- <-.
  apply mapM_Some_1 in Em.
  assert (Hvals : Forall2 (fun t v => py_int t = Ok v) (py_split data) vs).
  { eapply Forall2_impl; [exact Em|].
    intros t v. unfold int_option. destruct (py_int t); congruence. }
  rewrite (sections_fill_result _ _ Hvals) by assumption.
  rewrite (Forall2_length _ _ _ Hvals). reflexivity.
Qed.

Lemma rows_fold (sections : list section) (groups : list (pystr * list pystr))
    (rows : list pystr) (base : counters) :
  map (fun s : section => s.2) sections = map fst groups ->
  Forall (fun row => is_Some (row_parse (length (flattened groups)) row)) rows ->
  fold_left (fun acc info => interfaces <- acc;;
                             parse_row sections (map snd groups) interfaces info)
            rows (Ok base)
  = Ok (table_fill groups (length (flattened groups)) rows base).
Proof.
  intros Hs Hrows. revert base.
  induction Hrows as [|row rows [[name vals] Hrow] Hrows IH]; intros base; [reflexivity|].
  cbn [fold_left rbind]. unfold table_fill. cbn [fold_left]. rewrite Hrow.
  destruct (row_parse_tokens _ _ _ _ Hrow) as [Hrow0 Hn].
  rewrite (parse_row_result _ _ _ _ _ _ Hs Hrow0).
  destruct (Nat.leb_spec (length (flattened groups)) (length vals)); [|lia].
  apply IH.
Qed.

Lemma rows_fold_short (sections : list section) (groups : list (pystr * list pystr))
    (before after : list pystr) (short name : pystr) (vals : list Z) (base : counters) :
  map (fun s : section => s.2) sections = map fst groups ->
  Forall (fun row => is_Some (row_parse (length (flattened groups)) row)) before ->
  row_parse 0 short = Some (name, vals) ->
  (length vals < length (flattened groups))%nat ->
  fold_left (fun acc info => interfaces <- acc;;
                             parse_row sections (map snd groups) interfaces info)
            (before ++ short :: after) (Ok base)
  = Raise IndexError.
Proof.
  intros Hs Hbefore Hshort Hlen.
  rewrite fold_left_app, (rows_fold _ _ _ _ Hs Hbefore).
  cbn [fold_left rbind].
  rewrite (parse_row_result _ _ _ _ _ _ Hs Hshort).
  destruct (Nat.leb_spec (length (flattened groups)) (length vals)); [lia|].
  apply fold_rbind_raise.
Qed.

(** ** The parser of /proc/net/dev: the table *)

Lemma py_count_delimiter (c : ascii) (p s : pystr) : (py_count c (p ++ c :: s) =? 0) = false.
Proof.
  unfold py_count. rewrite filter_app, filter_cons_True by reflexivity.
  rewrite len_app. unfold len. simpl length.
  apply Z.eqb_neq. lia.
Qed.

Lemma length_py_split_on (c : ascii) (s : pystr) :
  (length (py_split_on c s) <= S (length s))%nat.
Proof.
  induction s as [|x s IH]; simpl; [lia|].
  destruct (Ascii.eqb x c); simpl; [lia|].
  destruct (py_split_on c s); simpl in *; lia.
Qed.

(** What [update] has in [sections] and [labels] when it reaches the data
    rows of a table whose header line has a first piece and a delimiter. *)
Lemma header_result (headerline labelline p0 : pystr) (ps : list pystr) :
  py_split_on "|" headerline = p0 :: ps -> p0 <> [] -> ps <> [] ->
  let groups := header_groups headerline labelline in
(py_count "|" headerline =? 0) = false /\
  exists sections,
    (sections <- sections_loop (S (length headerline)) headerline (Some (-1)) [];;
     py_pop0 sections) = Ok sections /\
    map (fun s : section => s.2) sections = map fst groups /\
    map (fun s : section => py_split (py_slice labelline s.1.1 s.1.2)) sections
    = map snd groups.
Proof.
  intros Hsplit Hp0 Hps groups. split.
  - destruct (py_split_on_inv _ _ _ _ Hsplit) as [_ [[-> _]|(s' & -> & _)]];
      [contradiction|apply py_count_delimiter].
  - exists (map named (tl (spans 0 (p0 :: ps)))).
    pose proof (sections_loop_spans (p0 :: ps) headerline [] [] (S (length headerline))
                  Hsplit) as Hloop.
    simpl app in Hloop. change (len [] - 1) with (-1) in Hloop.
    change (len (A:=ascii) []) with 0 in Hloop.
    rewrite Hloop.
    + split.
      * destruct ps as [|q ps]; [contradiction|]. reflexivity.
      * unfold groups, header_groups. rewrite Hsplit, !map_map. split; reflexivity.
    + unfold len. simpl. lia.
    + intros _. exact Hp0.
    + rewrite <- Hsplit. apply length_py_split_on.
Qed.

Lemma parse_table_lines (text headerline labelline : pystr) (rows : list pystr) :
  py_readlines text = headerline :: labelline :: rows ->
  parse_table text
  = if py_count "|" headerline =? 0 then Raise ValueError
    else
      sections <- (sections <- sections_loop (S (length headerline)) headerline (Some (-1)) [];;
                   py_pop0 sections);;
      fold_left
        (fun acc info =>
           interfaces <- acc;;
           parse_row sections
             (map (fun s : section =>
                     py_split (py_slice (py_strip_chars [NL] labelline) s.1.1 s.1.2))
                  sections)
             interfaces info)
        rows (Ok ∅).
Proof.
  intros E. unfold parse_table. rewrite E. cbn [hd tl].
  destruct (py_count "|" headerline =? 0); [reflexivity|].
  destruct (sections_loop (S (length headerline)) headerline (Some (-1)) []); reflexivity.
Qed.

(** A well-formed table parses to the dict [table_fill] describes. *)
Lemma parse_table_result (text headerline labelline p0 : pystr) (ps rows : list pystr) :
  py_readlines text = headerline :: labelline :: rows ->
  py_split_on "|" headerline = p0 :: ps -> p0 <> [] -> ps <> [] ->
  let groups := header_groups headerline (py_strip_chars [NL] labelline) in
  Forall (fun row => is_Some (row_parse (length (flattened groups)) row)) rows ->
  parse_table text = Ok (table_fill groups (length (flattened groups)) rows ∅).
Proof.
  intros Hlines Hsplit Hp0 Hps groups Hrows.
  rewrite (parse_table_lines _ _ _ _ Hlines).
  destruct (header_result headerline (py_strip_chars [NL] labelline) p0 ps Hsplit Hp0 Hps)
    as (-> & sections & -> & Hs & Hl).
  cbn [rbind]. rewrite Hl. apply rows_fold; assumption.
Qed.

(** A table with a row that is too short does not parse. *)
Lemma parse_table_short (text headerline labelline p0 short name : pystr)
    (ps before after : list pystr) (vals : list Z) :
  py_readlines text = headerline :: labelline :: before ++ short :: after ->
  py_split_on "|" headerline = p0 :: ps -> p0 <> [] -> ps <> [] ->
  let groups := header_groups headerline (py_strip_chars [NL] labelline) in
  Forall (fun row => is_Some (row_parse (length (flattened groups)) row)) before ->
  row_parse 0 short = Some (name, vals) ->
  (length vals < length (flattened groups))%nat ->
  parse_table text = Raise IndexError.
Proof.
  intros Hlines Hsplit Hp0 Hps groups Hbefore Hshort Hlen.
  rewrite (parse_table_lines _ _ _ _ Hlines).
  destruct (header_result headerline (py_strip_chars [NL] labelline) p0 ps Hsplit Hp0 Hps)
    as (-> & sections & -> & Hs & Hl).
  cbn [rbind]. rewrite Hl. eapply rows_fold_short; eassumption.
Qed.

(** ** The parser of /proc/net/dev: what the dict holds *)

Lemma fields_fold_notin (l : list (pystr * Z)) (tmp : fields) (f : pystr) :
  f ∉ l.*1 ->
  fold_left (fun tmp lv => <[lv.1 := lv.2]> tmp) l tmp !! f = tmp !! f.
Proof.
  revert tmp. induction l as [|[f' v'] l IH]; intros tmp Hf; [reflexivity|].
  simpl in *. rewrite not_elem_of_cons in Hf. destruct Hf as [Hne Hf].
  rewrite IH by assumption. apply lookup_insert_ne. congruence.
Qed.

Lemma fields_fold_in (l : list (pystr * Z)) (tmp : fields) (f : pystr) (v : Z) :
  NoDup l.*1 -> (f, v) ∈ l ->
  fold_left (fun tmp lv => <[lv.1 := lv.2]> tmp) l tmp !! f = Some v.
Proof.
  revert tmp. induction l as [|[f' v'] l IH]; intros tmp Hnd Hin.
  - inversion Hin.
  - simpl in *. apply NoDup_cons in Hnd as [Hf' Hnd].
    apply elem_of_cons in Hin as [E|Hin].
    + injection E as <- <-. rewrite fields_fold_notin by assumption.
      apply lookup_insert_eq.
    + apply IH; assumption.
Qed.

Lemma fields_of_lookup (labels : list pystr) (values : list Z) (j : nat) (f : pystr) :
  NoDup labels -> labels !! j = Some f -> (length labels <= length values)%nat ->
  fields_of labels values !! f = values !! j.
Proof.
  intros Hnd Hj Hlen. unfold fields_of.
  destruct (values !! j) as [v|] eqn:Ev.
  - apply fields_fold_in.
    + rewrite fst_zip by assumption. exact Hnd.
    + apply list_elem_of_lookup. exists j. apply lookup_zip_with_Some. eauto.
  - apply lookup_ge_None in Ev. apply lookup_lt_Some in Hj. lia.
Qed.

Lemma fields_of_dom (labels : list pystr) (values : list Z) (f : pystr) :
  is_Some (fields_of labels values !! f) -> f ∈ labels.
Proof.
  unfold fields_of. intros Hs.
  destruct (decide (f ∈ (zip labels values).*1)) as [Hin|Hnot].
  - apply list_elem_of_fmap in Hin as ([f' v] & -> & Hin).
    apply elem_of_zip_l in Hin. exact Hin.
  - rewrite fields_fold_notin in Hs by assumption.
    rewrite lookup_empty in Hs. destruct Hs as [? ?]. discriminate.
Qed.

Lemma iface_fill_notin (groups : list (pystr * list pystr)) (vals : list Z)
    (d : interface) (g : pystr) :
  g ∉ groups.*1 -> iface_fill groups vals d !! g = d !! g.
Proof.
  revert vals d. induction groups as [|g' groups IH]; intros vals d Hg; [reflexivity|].
  simpl in *. rewrite not_elem_of_cons in Hg. destruct Hg as [Hne Hg].
  rewrite IH by assumption. apply lookup_insert_ne. congruence.
Qed.

Lemma flattened_app (a b : list (pystr * list pystr)) :
  flattened (a ++ b) = flattened a ++ flattened b.
Proof. unfold flattened. apply flat_map_app. Qed.

Lemma iface_fill_lookup (groups : list (pystr * list pystr)) (vals : list Z)
    (d : interface) (i : nat) (g : pystr * list pystr) :
  NoDup groups.*1 -> groups !! i = Some g ->
  iface_fill groups vals d !! g.1
  = Some (fields_of g.2 (take (length g.2)
                              (drop (length (flattened (take i groups))) vals))).
Proof.
  revert vals d i. induction groups as [|g' groups IH]; intros vals d i Hnd Hi.
  - discriminate.
  - simpl in Hnd. apply NoDup_cons in Hnd as [Hg' Hnd].
    destruct i as [|i]; simpl in Hi.
    + injection Hi as ->. simpl. rewrite iface_fill_notin by assumption.
      apply lookup_insert_eq.
    + cbn [iface_fill take]. rewrite (IH _ _ i Hnd Hi).
      rewrite length_flattened_cons, drop_drop. reflexivity.
Qed.

Lemma iface_fill_dom (groups : list (pystr * list pystr)) (vals : list Z) (g : pystr) :
  is_Some (iface_fill groups vals ∅ !! g) -> g ∈ groups.*1.
Proof.
  intros Hs. destruct (decide (g ∈ groups.*1)) as [Hin|Hnot]; [assumption|].
  rewrite iface_fill_notin in Hs by assumption.
  rewrite lookup_empty in Hs. destruct Hs as [? ?]. discriminate.
Qed.

(** Where a position of the flattened field list lies: in a group, at a
    rank within it. *)
Lemma flattened_lookup (groups : list (pystr * list pystr)) (k : nat) (g f : pystr) :
  flattened groups !! k = Some (g, f) ->
  exists i gi j,
    groups !! i = Some gi /\ gi.1 = g /\ gi.2 !! j = Some f /\
    k = (length (flattened (take i groups)) + j)%nat.
Proof.
  revert k. induction groups as [|g' groups IH]; intros k Hk; [discriminate|].
  unfold flattened in Hk. simpl in Hk. fold (flattened groups) in Hk.
  destruct (decide (k < length g'.2)%nat) as [Hlt|Hge].
  - rewrite lookup_app_l in Hk by (rewrite length_map; exact Hlt).
    rewrite list_lookup_fmap in Hk.
    destruct (g'.2 !! k) as [f'|] eqn:Ef; [|discriminate].
    simpl in Hk. injection Hk as <- <-.
    exists 0%nat, g', k. simpl. auto.
  - rewrite lookup_app_r in Hk by (rewrite length_map; lia).
    rewrite length_map in Hk.
    destruct (IH _ Hk) as (i & gi & j & Hi & Hg & Hj & E).
    exists (S i), gi, j. repeat split; try assumption.
    change (take (S i) (g' :: groups)) with (g' :: take i groups).
    rewrite length_flattened_cons. lia.
Qed.

Lemma flattened_elem (groups : list (pystr * list pystr)) (gi : pystr * list pystr)
    (f : pystr) :
  gi ∈ groups -> f ∈ gi.2 -> (gi.1, f) ∈ flattened groups.
Proof.
  intros Hg Hf. unfold flattened. apply list_elem_of_In, in_flat_map.
  exists gi. split; [apply list_elem_of_In; exact Hg|].
  apply in_map, list_elem_of_In. exact Hf.
Qed.

Lemma flattened_prefix_length (groups : list (pystr * list pystr)) (i : nat)
    (g : pystr * list pystr) :
  groups !! i = Some g ->
  (length (flattened (take i groups)) + length g.2 <= length (flattened groups))%nat.
Proof.
  intros Hi. rewrite <- (take_drop_middle _ _ _ Hi) at 2.
  rewrite flattened_app, length_app, length_flattened_cons. lia.
Qed.

Lemma iface_fill_counter (groups : list (pystr * list pystr)) (vals : list Z)
    (k : nat) (g f : pystr) :
  NoDup groups.*1 -> Forall (fun g => NoDup g.2) groups ->
  (length (flattened groups) <= length vals)%nat ->
  flattened groups !! k = Some (g, f) ->
  (iface_fill groups vals ∅ !! g) ≫= (fun fs => fs !! f) = vals !! k.
Proof.
  intros Hnd Hlab Hlen Hk.
  destruct (flattened_lookup _ _ _ _ Hk) as (i & gi & j & Hi & <- & Hj & ->).
  rewrite (iface_fill_lookup _ _ _ _ _ Hnd Hi). simpl.
  pose proof (flattened_prefix_length _ _ _ Hi) as Hpre.
  pose proof (lookup_lt_Some _ _ _ Hj) as Hjlt.
  rewrite (fields_of_lookup _ _ j).
  - rewrite lookup_take_lt by assumption. apply lookup_drop.
  - rewrite Forall_forall in Hlab. apply Hlab.
    apply list_elem_of_lookup. eauto.
  - assumption.
  - rewrite length_take, length_drop. lia.
Qed.

Lemma iface_fill_counter_dom (groups : list (pystr * list pystr)) (vals : list Z)
    (g f : pystr) :
  NoDup groups.*1 ->
  is_Some ((iface_fill groups vals ∅ !! g) ≫= (fun fs => fs !! f)) ->
  (g, f) ∈ flattened groups.
Proof.
  intros Hnd Hs.
  destruct (iface_fill groups vals ∅ !! g) as [fs|] eqn:Eg;
    [|destruct Hs as [? ?]; discriminate].
  assert (Hg : g ∈ groups.*1) by (apply (iface_fill_dom _ vals); rewrite Eg; eauto).
  apply list_elem_of_fmap in Hg as (gi & -> & Hgi).
  apply list_elem_of_lookup in Hgi as [i Hi].
  rewrite (iface_fill_lookup _ _ _ _ _ Hnd Hi) in Eg. injection Eg as <-.
  simpl in Hs. apply fields_of_dom in Hs.
  apply flattened_elem; [apply list_elem_of_lookup; eauto|assumption].
Qed.

Lemma row_names_cons (n : nat) (row : pystr) (rows : list pystr) :
  row_names n (row :: rows)
  = match row_parse n row with
    | Some (name, _) => name :: row_names n rows
    | None => row_names n rows
    end.
Proof.
  unfold row_names. simpl. destruct (row_parse n row) as [[? ?]|]; reflexivity.
Qed.

Lemma table_fill_notin (groups : list (pystr * list pystr)) (n : nat) (rows : list pystr)
    (base : counters) (name : pystr) :
  name ∉ row_names n rows -> table_fill groups n rows base !! name = base !! name.
Proof.
  revert base. induction rows as [|row rows IH]; intros base Hn; [reflexivity|].
  rewrite row_names_cons in Hn. unfold table_fill in *. cbn [fold_left].
  destruct (row_parse n row) as [[name' vals']|].
  - rewrite not_elem_of_cons in Hn. destruct Hn as [Hne Hn].
    rewrite IH by assumption. apply lookup_insert_ne. congruence.
  - apply IH. assumption.
Qed.

Lemma table_fill_lookup (groups : list (pystr * list pystr)) (n : nat) (rows : list pystr)
    (base : counters) (row name : pystr) (vals : list Z) :
  NoDup (row_names n rows) -> row ∈ rows -> row_parse n row = Some (name, vals) ->
  table_fill groups n rows base !! name = Some (iface_fill groups vals ∅).
Proof.
  revert base. induction rows as [|row' rows IH]; intros base Hnd Hin Hrow.
  - inversion Hin.
  - rewrite row_names_cons in Hnd.
    apply elem_of_cons in Hin as [<-|Hin].
    + rewrite Hrow in Hnd. apply NoDup_cons in Hnd as [Hfresh _].
      unfold table_fill. cbn [fold_left]. rewrite Hrow.
      fold (table_fill groups n rows (<[name := iface_fill groups vals ∅]> base)).
      rewrite table_fill_notin by assumption. apply lookup_insert_eq.
    + unfold table_fill. cbn [fold_left].
      destruct (row_parse n row') as [[name' vals']|].
      * apply NoDup_cons in Hnd as [_ Hnd]. apply IH; assumption.
      * apply IH; assumption.
Qed.

Lemma table_fill_dom (groups : list (pystr * list pystr)) (n : nat) (rows : list pystr)
    (name : pystr) :
  is_Some (table_fill groups n rows ∅ !! name) -> name ∈ row_names n rows.
Proof.
  intros Hs. destruct (decide (name ∈ row_names n rows)) as [Hin|Hnot]; [assumption|].
  rewrite table_fill_notin in Hs by assumption.
  rewrite lookup_empty in Hs. destruct Hs as [? ?]. discriminate.
Qed.

Lemma row_names_elem (n : nat) (rows : list pystr) (name : pystr) :
  name ∈ row_names n rows <->
  exists row vals, row ∈ rows /\ row_parse n row = Some (name, vals).
Proof.
  unfold row_names. rewrite list_elem_of_omap. split.
  - intros (row & Hin & Hrow).
    destruct (row_parse n row) as [[name' vals]|] eqn:E; [|discriminate].
    simpl in Hrow. injection Hrow as ->. eauto.
  - intros (row & vals & Hin & Hrow). exists row. rewrite Hrow. auto.
Qed.

(** C7.  A well-formed table (a header line with a first piece and at least
    one "|", a label line, rows with a colon and enough integers, names of
    groups, labels and rows pairwise distinct) parses to a dict that has
    exactly the stripped row names as keys and, for each row, holds at the
    k-th (group, field) of the flattened field list the row's k-th integer,
    and nothing else.  The groups exclude the first piece of the header, and
    their labels are the words of the label line between the group's column
    offsets. *)
Theorem parse_table_flattened (text headerline labelline p0 : pystr)
    (ps rows : list pystr) :
  py_readlines text = headerline :: labelline :: rows ->
  py_split_on "|" headerline = p0 :: ps -> p0 <> [] -> ps <> [] ->
  let groups := header_groups headerline (py_strip_chars [NL] labelline) in
  let flat := flattened groups in
  NoDup groups.*1 -> Forall (fun g => NoDup g.2) groups ->
  Forall (fun row => is_Some (row_parse (length flat) row)) rows ->
  NoDup (row_names (length flat) rows) ->
  exists m,
    parse_table text = Ok m /\
    (forall name, is_Some (m !! name) <-> name ∈ row_names (length flat) rows) /\
    (forall row name vals k g f,
        row ∈ rows -> row_parse (length flat) row = Some (name, vals) ->
        flat !! k = Some (g, f) -> counter m name g f = vals !! k) /\
    (forall name g f, is_Some (counter m name g f) -> (g, f) ∈ flat).
Proof.
  intros Hlines Hsplit Hp0 Hps groups flat Hgroups Hlabels Hrows Hnames.
  exists (table_fill groups (length flat) rows ∅).
  split; [exact (parse_table_result _ _ _ _ _ _ Hlines Hsplit Hp0 Hps Hrows)|].
  split; [|split].
  - intros name. split; [apply table_fill_dom|].
    intros Hin. apply row_names_elem in Hin as (row & vals & Hin & Hrow).
    rewrite (table_fill_lookup _ _ _ _ _ _ _ Hnames Hin Hrow). eauto.
  - intros row name vals k g f Hin Hrow Hk. unfold counter.
    rewrite (table_fill_lookup _ _ _ _ _ _ _ Hnames Hin Hrow). simpl.
    destruct (row_parse_tokens _ _ _ _ Hrow) as [_ Hlen].
    exact (iface_fill_counter groups vals k g f Hgroups Hlabels Hlen Hk).
  - intros name g f Hs. unfold counter in Hs.
    destruct (table_fill groups (length flat) rows ∅ !! name) as [d|] eqn:Ed;
      [|destruct Hs as [? ?]; discriminate].
    assert (Hin : name ∈ row_names (length flat) rows)
      by (apply (table_fill_dom groups); rewrite Ed; eauto).
    apply row_names_elem in Hin as (row & vals & Hin & Hrow).
    rewrite (table_fill_lookup _ _ _ _ _ _ _ Hnames Hin Hrow) in Ed. injection Ed as <-.
    simpl in Hs. exact (iface_fill_counter_dom groups vals g f Hgroups Hs).
Qed.

(** The sample table yields exactly the expected nested mapping. *)
Example parse_sample_table : parse_table sample_table = Ok sample_counters.
Proof. reflexivity. Qed.

(** C9.  When a data row has fewer integers than the flattened field list
    has fields (the rows before it being well-formed), [update] raises
    IndexError and leaves the object as it was: [self.data] is only assigned
    after every row was read. *)
Theorem short_row_is_atomic (rd : ProcRead) (self : ProcNetDev)
    (headerline labelline p0 short name : pystr) (ps before after : list pystr)
    (vals : list Z) :
  py_readlines (proc_text rd) = headerline :: labelline :: before ++ short :: after ->
  py_split_on "|" headerline = p0 :: ps -> p0 <> [] -> ps <> [] ->
  let flat := flattened (header_groups headerline (py_strip_chars [NL] labelline)) in
  Forall (fun row => is_Some (row_parse (length flat) row)) before ->
  row_tokens short = Some (name, vals) ->
  (length vals < length flat)%nat ->
  ProcNetDev_update rd self = (Raise IndexError, self).
Proof.
  intros Hlines Hsplit Hp0 Hps flat Hbefore Hshort Hlen.
  unfold ProcNetDev_update.
  rewrite (parse_table_short _ _ _ _ _ _ _ _ _ _ Hlines Hsplit Hp0 Hps Hbefore Hshort Hlen).
  reflexivity.
Qed.

Lemma parse_table_flattened_witness :
  exists m,
    parse_table sample_table = Ok m /\
    counter m (py "lo") (py "receive") (py "errs") = Some 0 /\
    counter m (py "eth0") (py "receive") (py "bytes") = Some 9876543210 /\
    counter m (py "eth0") (py "transmit") (py "errs") = Some 13.
Proof.
  destruct (parse_table_flattened sample_table sample_header sample_labels
              (py "Inter-") [py "   Receive           "; py "  Transmit" ++ [NL]]
              [sample_row_lo; sample_row_eth0])
    as (m & Hm & _ & Hcnt & _).
  - reflexivity.
  - reflexivity.
  - discriminate.
  - discriminate.
  - vm_compute. compute_done.
  - vm_compute. compute_done.
  - repeat (constructor; [vm_compute; eexists; reflexivity|]). constructor.
  - vm_compute. compute_done.
  - exists m. split; [exact Hm|].
    assert (Hlo : sample_row_lo ∈ [sample_row_lo; sample_row_eth0]) by (left).
    assert (Heth : sample_row_eth0 ∈ [sample_row_lo; sample_row_eth0]) by (right; left).
    split; [|split].
    + exact (Hcnt sample_row_lo (py "lo") [1234; 10; 0; 1234; 10; 0] 2%nat
                  (py "receive") (py "errs") Hlo eq_refl eq_refl).
    + exact (Hcnt sample_row_eth0 (py "eth0") [9876543210; 123456; 7; 42; 0; 13] 0%nat
                  (py "receive") (py "bytes") Heth eq_refl eq_refl).
    + exact (Hcnt sample_row_eth0 (py "eth0") [9876543210; 123456; 7; 42; 0; 13] 5%nat
                  (py "transmit") (py "errs") Heth eq_refl eq_refl).
Defined.

Lemma short_row_is_atomic_witness :
  ProcNetDev_update (mkProcRead sample_short_table 0)
                    (mkProcNetDev (Some sample_counters) (Some 0) true)
  = (Raise IndexError, mkProcNetDev (Some sample_counters) (Some 0) true).
Proof.
  apply (short_row_is_atomic (mkProcRead sample_short_table 0) _
           sample_header sample_labels
           (py "Inter-") sample_row_short (py "eth1")
           [py "   Receive           "; py "  Transmit" ++ [NL]]
           [sample_row_lo] [] [5; 4; 3; 2; 1]).
  - reflexivity.
  - reflexivity.
  - discriminate.
  - discriminate.
  - repeat (constructor; [vm_compute; eexists; reflexivity|]). constructor.
  - reflexivity.
  - vm_compute. lia.
Defined.

(** ** The tick *)

Lemma counter_inv (t : counters) (a b c : pystr) (v : Z) :
  counter t a b c = Some v ->
  exists i s, t !! a = Some i /\ i !! b = Some s /\ s !! c = Some v.
Proof.
  unfold counter. intros H.
  destruct (t !! a) as [i|] eqn:Ei; [|discriminate]. simpl in H.
  destruct (i !! b) as [s|] eqn:Es; [|discriminate]. simpl in H.
  exists i, s. auto.
Qed.

Lemma pnd_getitem_ok (rd : ProcRead) (key : pystr) (h : Handler) (t : counters)
    (i : interface) :
  pnd_auto_update (pnd h) = true ->
  parse_table (proc_text rd) = Ok t ->
  t !! key = Some i ->
  pnd_getitem rd key h
  = (Ok i, set_pnd (mkProcNetDev (Some t) (Some (proc_utcnow rd)) true) h).
Proof.
  intros Hauto Ht Hi. unfold pnd_getitem, ProcNetDev_getitem, ProcNetDev_update.
  rewrite Hauto, Ht. cbn [pnd_data]. rewrite Hi. reflexivity.
Qed.

Lemma py_pop_last_snoc {A} (l : list A) (x : A) : py_pop_last (l ++ [x]) = Ok l.
Proof.
  unfold py_pop_last. rewrite removelast_last.
  destruct l; reflexivity.
Qed.

(** What [update] computes from the readings of a tick: the rates are the
    quotients of the differences with the stored values, whatever their sign,
    and the stored values become the ones just read. *)
Lemma update_message_reads (env : TickEnv) (h : Handler) (uptime tx_rate rx_rate : float)
    (cpu : list pystr) (free total new_tx new_rx : Z) :
  tick_reads env uptime cpu free total new_tx new_rx ->
  pnd_auto_update (pnd h) = true ->
  int_div_float (new_tx - tx h) (PrimFloat.sub (env_time_ts env) (ts h)) = Ok tx_rate ->
  int_div_float (new_rx - rx h) (PrimFloat.sub (env_time_ts env) (ts h)) = Ok rx_rate ->
  exists p,
    update_message env h
    = (Ok (mkSnapshot (env_time_stamp env) uptime cpu new_tx new_rx tx_rate rx_rate
                      free total),
       set_baseline new_tx new_rx (env_time_ts env) (set_pnd p h)).
Proof.
  intros (Hup & (a & b & Hcpu) & (memory & Hmem & Hfree & Htotal)
          & (t1 & Ht1 & Hc1) & (t2 & Ht2 & Hc2)) Hauto Htx Hrx.
  destruct (counter_inv _ _ _ _ _ Hc1) as (i1 & s1 & Hi1 & Hs1 & Hv1).
  destruct (counter_inv _ _ _ _ _ Hc2) as (i2 & s2 & Hi2 & Hs2 & Hv2).
  exists (mkProcNetDev (Some t2) (Some (proc_utcnow (env_net_dev_rx env))) true).
  unfold update_message.
  unfold bind at 1, lift at 1. rewrite Hup.
  unfold bind at 1, lift at 1. rewrite Hcpu.
  unfold bind at 1, lift at 1.
  change (cpu ++ [a; b]) with (cpu ++ [a] ++ [b]). rewrite app_assoc, py_pop_last_snoc.
  unfold bind at 1, lift at 1. rewrite py_pop_last_snoc.
  unfold bind at 1, lift at 1. rewrite Hmem.
  unfold bind at 1. rewrite (pnd_getitem_ok _ _ _ _ _ Hauto Ht1 Hi1).
  unfold bind at 1, lift at 1, py_getitem at 1. rewrite Hs1.
  unfold bind at 1, lift at 1, py_getitem at 1. rewrite Hv1.
  unfold bind at 1. rewrite (pnd_getitem_ok _ _ _ t2 i2); [|reflexivity|assumption..].
  unfold bind at 1, lift at 1, py_getitem at 1. rewrite Hs2.
  unfold bind at 1, lift at 1, py_getitem at 1. rewrite Hv2.
  cbv zeta.
  unfold bind at 1, gets at 1. unfold bind at 1, gets at 1. unfold bind at 1, gets at 1.
  cbn [tx rx ts set_pnd].
  unfold bind at 1, lift at 1. rewrite Htx.
  unfold bind at 1, lift at 1. rewrite Hrx.
  unfold bind at 1, modify at 1.
  unfold bind at 1, lift at 1, py_getitem at 1. rewrite Hfree.
  unfold bind at 1, lift at 1, py_getitem at 1. rewrite Htotal.
  unfold ret. reflexivity.
Qed.

Lemma int_div_float_ok (n : Z) (d f : float) :
  float_of_int n = Ok f -> PrimFloat.eqb d 0 = false ->
  int_div_float n d = Ok (PrimFloat.div f d).
Proof.
  intros Hf Hd. unfold int_div_float. rewrite Hf. cbn [rbind]. rewrite Hd. reflexivity.
Qed.

(** C3, as the code has it.  The first tick of a handler finds the class
    attributes tx = 0, rx = 0 and ts = 0 as its baseline: it reports the
    numeric rates float(tx) / (now - 0.0) and float(rx) / (now - 0.0), and
    records the readings as the new baseline. *)
Theorem first_tick_rate (env : TickEnv) (queue : list Event) (p : ProcNetDev)
    (segments : list pystr) (ticks : list TickEnv) (uptime ftx frx : float)
    (cpu : list pystr) (free total new_tx new_rx : Z) :
  tick_reads env uptime cpu free total new_tx new_rx ->
  pnd_auto_update p = true ->
  float_of_int new_tx = Ok ftx ->
  float_of_int new_rx = Ok frx ->
  PrimFloat.eqb (PrimFloat.sub (env_time_ts env) 0) 0 = false ->
  exists h',
    update_message env (new_handler queue p segments ticks)
    = (Ok (mkSnapshot (env_time_stamp env) uptime cpu new_tx new_rx
                      (PrimFloat.div ftx (PrimFloat.sub (env_time_ts env) 0))
                      (PrimFloat.div frx (PrimFloat.sub (env_time_ts env) 0))
                      free total), h') /\
    tx h' = new_tx /\ rx h' = new_rx /\ ts h' = env_time_ts env.
Proof.
  intros Hreads Hauto Hftx Hfrx Hd.
  destruct (update_message_reads env (new_handler queue p segments ticks) uptime
              (PrimFloat.div ftx (PrimFloat.sub (env_time_ts env) 0))
              (PrimFloat.div frx (PrimFloat.sub (env_time_ts env) 0))
              cpu free total new_tx new_rx Hreads Hauto) as [p' Hp'].
  - cbn [tx ts new_handler]. rewrite Z.sub_0_r. apply int_div_float_ok; assumption.
  - cbn [rx ts new_handler]. rewrite Z.sub_0_r. apply int_div_float_ok; assumption.
  - eexists. split; [exact Hp'|]. auto.
Qed.

(** C2, as the code has it.  When a tick reads a byte counter lower than the
    stored one, the rate it reports is the quotient of the negative
    difference by the elapsed time, computed like any other, and the stored
    values become the ones just read. *)
Theorem lower_counter_rate (env : TickEnv) (h : Handler) (uptime ftx frx : float)
    (cpu : list pystr) (free total new_tx new_rx : Z) :
  tick_reads env uptime cpu free total new_tx new_rx ->
  pnd_auto_update (pnd h) = true ->
  new_tx < tx h ->
  float_of_int (new_tx - tx h) = Ok ftx ->
  float_of_int (new_rx - rx h) = Ok frx ->
  PrimFloat.eqb (PrimFloat.sub (env_time_ts env) (ts h)) 0 = false ->
  exists h',
    update_message env h
    = (Ok (mkSnapshot (env_time_stamp env) uptime cpu new_tx new_rx
                      (PrimFloat.div ftx (PrimFloat.sub (env_time_ts env) (ts h)))
                      (PrimFloat.div frx (PrimFloat.sub (env_time_ts env) (ts h)))
                      free total), h') /\
    new_tx - tx h < 0 /\
    tx h' = new_tx /\ rx h' = new_rx /\ ts h' = env_time_ts env.
Proof.
  intros Hreads Hauto Hlower Hftx Hfrx Hd.
  destruct (update_message_reads env h uptime
              (PrimFloat.div ftx (PrimFloat.sub (env_time_ts env) (ts h)))
              (PrimFloat.div frx (PrimFloat.sub (env_time_ts env) (ts h)))
              cpu free total new_tx new_rx Hreads Hauto) as [p' Hp'].
  - apply int_div_float_ok; assumption.
  - apply int_div_float_ok; assumption.
  - eexists. split; [exact Hp'|]. split; [lia|]. auto.
Qed.

Lemma sample_tick_reads (rx_bytes tx_bytes : Z) (now : float) (t : counters) :
  parse_table (vlan2_table rx_bytes tx_bytes) = Ok t ->
  counter t (py "vlan2") (py "transmit") (py "bytes") = Some tx_bytes ->
  counter t (py "vlan2") (py "receive") (py "bytes") = Some rx_bytes ->
  tick_reads (sample_tick rx_bytes tx_bytes now) 86400.5%float
             [py "0.10"; py "0.20"; py "0.30"] 1000 2000 tx_bytes rx_bytes.
Proof.
  intros Ht Htx Hrx. unfold tick_reads, sample_tick. cbn.
  split; [reflexivity|]. split; [exists (py "1/123"), (py "4567"); reflexivity|].
  split; [eexists; split; [reflexivity|split; reflexivity]|].
  split; exists t; auto.
Qed.

(** The first tick of a session reports 1000 bytes / 10.0 s = 100.0. *)
Lemma first_tick_reports_a_rate :
  (update_message (sample_tick 2000 1000 10) sample_handler).1
  = Ok (mkSnapshot 10 86400.5 [py "0.10"; py "0.20"; py "0.30"] 1000 2000 100 200 1000 2000).
Proof. vm_compute. reflexivity. Qed.

(** After 1000 bytes at 10.0 and 1500 at 11.0, a reading of 1000 bytes at
    12.0 is reported as -500.0. *)
Lemma lower_counter_reports_negative_rate :
  tx sample_after_two_ticks = 1500 /\
  (update_message (sample_tick 2600 1000 12) sample_after_two_ticks).1
  = Ok (mkSnapshot 12 86400.5 [py "0.10"; py "0.20"; py "0.30"] 1000 2600 (-500) 100
                   1000 2000) /\
  PrimFloat.ltb (-500) 0 = true.
Proof. vm_compute. auto. Qed.

Lemma first_tick_rate_witness :
  exists h',
    update_message (sample_tick 2000 1000 10) sample_handler
    = (Ok (mkSnapshot 10 86400.5 [py "0.10"; py "0.20"; py "0.30"] 1000 2000
                      (PrimFloat.div 1000 (PrimFloat.sub 10 0))
                      (PrimFloat.div 2000 (PrimFloat.sub 10 0)) 1000 2000), h') /\
    tx h' = 1000 /\ rx h' = 2000 /\ ts h' = 10%float.
Proof.
  apply (first_tick_rate (sample_tick 2000 1000 10) [] sample_pnd [] [] 86400.5 1000 2000
           [py "0.10"; py "0.20"; py "0.30"] 1000 2000 1000 2000).
  - apply (sample_tick_reads 2000 1000 10 (vlan2_counters 2000 1000)); reflexivity.
  - reflexivity.
  - reflexivity.
  - reflexivity.
  - reflexivity.
Defined.

Lemma lower_counter_rate_witness :
  exists h',
    update_message (sample_tick 2600 1000 12) sample_after_two_ticks
    = (Ok (mkSnapshot 12 86400.5 [py "0.10"; py "0.20"; py "0.30"] 1000 2600
                      (PrimFloat.div (-500) (PrimFloat.sub 12 11))
                      (PrimFloat.div 100 (PrimFloat.sub 12 11)) 1000 2000), h') /\
    1000 - 1500 < 0 /\
    tx h' = 1000 /\ rx h' = 2600 /\ ts h' = 12%float.
Proof.
  apply (lower_counter_rate (sample_tick 2600 1000 12) sample_after_two_ticks
           86400.5 (-500) 100 [py "0.10"; py "0.20"; py "0.30"] 1000 2000 1000 2600).
  - apply (sample_tick_reads 2600 1000 12 (vlan2_counters 2600 1000)); reflexivity.
  - reflexivity.
  - reflexivity.
  - reflexivity.
  - reflexivity.
  - reflexivity.
Defined.

(** ** The scheduler *)

Lemma keeps_bind {A B C} (f : Handler -> C) (m : M A) (k : A -> M B) :
  keeps f m -> (forall a, keeps f (k a)) -> keeps f (bind m k).
Proof.
  intros Hm Hk h. unfold bind. specialize (Hm h).
  destruct (m h) as [[a| |] h1]; cbn [snd] in *; [|assumption..].
  rewrite Hk. exact Hm.
Qed.

Lemma keeps_lift {A B} (f : Handler -> B) (r : result A) : keeps f (lift r).
Proof. intros h. reflexivity. Qed.

Lemma keeps_gets {A B} (f : Handler -> B) (g : Handler -> A) : keeps f (gets g).
Proof. intros h. reflexivity. Qed.

Lemma keeps_ret {A B} (f : Handler -> B) (a : A) : keeps f (ret a).
Proof. intros h. reflexivity. Qed.

Lemma keeps_pnd_getitem {B} (f : Handler -> B) (rd : ProcRead) (key : pystr) :
  (forall p h, f (set_pnd p h) = f h) -> keeps f (pnd_getitem rd key).
Proof.
  intros Hf h. unfold pnd_getitem.
  destruct (ProcNetDev_getitem rd key (pnd h)) as [r p]. apply Hf.
Qed.

Lemma keeps_request_send {B} (f : Handler -> B) (data : pystr) :
  (forall v h, f (set_sent v h) = f h) -> keeps f (request_send data).
Proof.
  intros Hf h. unfold request_send. destruct (conn_open h); [apply Hf|reflexivity].
Qed.

Lemma update_message_keeps {B} (f : Handler -> B) (env : TickEnv) :
  (forall p h, f (set_pnd p h) = f h) ->
  (forall a b c h, f (set_baseline a b c h) = f h) ->
  keeps f (update_message env).
Proof.
  intros Hp Hb. unfold update_message.
  repeat first
    [ apply keeps_bind; [|intros ?]
    | apply keeps_lift
    | apply keeps_gets
    | apply keeps_ret
    | apply keeps_pnd_getitem; exact Hp
    | (intros ?; apply Hb) ].
Qed.

Lemma send_message_keeps {B} (f : Handler -> B) (message : pystr) :
  (forall v h, f (set_sent v h) = f h) -> keeps f (send_message message).
Proof.
  intros Hs. unfold send_message.
  repeat first
    [ apply keeps_bind; [|intros ?]
    | apply keeps_lift
    | apply keeps_ret
    | apply keeps_request_send; exact Hs
    | match goal with |- keeps _ (if ?c then _ else _) => destruct c end ].
Qed.

Lemma update_cases `{Library} (env : TickEnv) (h : Handler) :
  update env h
  = match update_message env h with
    | (Ok snapshot, h1) =>
        match send_message (json_dumps snapshot) h1 with
        | (Ok _, h2) => (Ok tt, set_s_queue (s_queue h2 ++ [mkEvent 0.5 1]) h2)
        | (Raise e, h2) => (Raise e, h2)
        | (Pending, h2) => (Pending, h2)
        end
    | (Raise e, h1) => (Raise e, h1)
    | (Pending, h1) => (Pending, h1)
    end.
Proof.
  unfold update. unfold bind at 1.
  destruct (update_message env h) as [[snapshot| |] h1]; [|reflexivity|reflexivity].
  unfold bind at 1.
  destruct (send_message (json_dumps snapshot) h1) as [[[]| |] h2]; reflexivity.
Qed.

(** What a tick does to the queue and to the surroundings still to come. *)
Lemma update_queue `{Library} (env : TickEnv) (h : Handler) :
  world (update env h).2 = world h /\
  match (update env h).1 with
  | Ok _ => s_queue (update env h).2 = s_queue h ++ [mkEvent 0.5 1]
  | _ => s_queue (update env h).2 = s_queue h
  end.
Proof.
  rewrite update_cases.
  pose proof (update_message_keeps s_queue env (fun _ _ => eq_refl)
                (fun _ _ _ _ => eq_refl) h) as Hq1.
  pose proof (update_message_keeps world env (fun _ _ => eq_refl)
                (fun _ _ _ _ => eq_refl) h) as Hw1.
  destruct (update_message env h) as [[snapshot| |] h1]; cbn [fst snd] in *; auto.
  pose proof (send_message_keeps s_queue (json_dumps snapshot) (fun _ _ => eq_refl) h1)
    as Hq2.
  pose proof (send_message_keeps world (json_dumps snapshot) (fun _ _ => eq_refl) h1)
    as Hw2.
  destruct (send_message (json_dumps snapshot) h1) as [[[]| |] h2]; cbn [fst snd] in *.
  - cbn. split; congruence.
  - split; congruence.
  - split; congruence.
Qed.

(** One turn of [sched.scheduler.run]. *)
Lemma s_run_step `{Library} (fuel : nat) (ev : Event) (q : list Event) (env : TickEnv)
    (w : list TickEnv) (h : Handler) :
  s_queue h = ev :: q -> world h = env :: w ->
  s_run (S fuel) h
  = match update env (set_world w (set_s_queue q h)) with
    | (Ok _, h1) => s_run fuel h1
    | (Raise e, h1) => (Raise e, h1)
    | (Pending, h1) => (Pending, h1)
    end.
Proof.
  intros Hq Hw. cbn [s_run]. unfold bind at 1, gets at 1. rewrite Hq.
  unfold bind at 1, gets at 1. rewrite Hw.
  unfold bind at 1, modify at 1. unfold bind at 1, modify at 1.
  unfold bind at 1.
  destruct (update env (set_world w (set_s_queue q h))) as [[[]| |] h1]; reflexivity.
Qed.

(** A tick that cannot read /proc/net/dev raises what the parser raised,
    before anything is stored or sent. *)
Lemma update_parse_error `{Library} (env : TickEnv) (h : Handler) (e : exn)
    (uptime : float) (cpu : list pystr) (a b : pystr) (memory : fields) :
  env_uptime env = Ok uptime ->
  env_loadavg env = Ok (cpu ++ [a; b]) ->
  env_meminfo env = Ok memory ->
  pnd_auto_update (pnd h) = true ->
  parse_table (proc_text (env_net_dev_tx env)) = Raise e ->
  update env h = (Raise e, h).
Proof.
  intros Hup Hcpu Hmem Hauto Hparse. unfold update, update_message.
  unfold bind at 1. unfold bind at 1, lift at 1. rewrite Hup.
  unfold bind at 1, lift at 1. rewrite Hcpu.
  unfold bind at 1, lift at 1.
  change (cpu ++ [a; b]) with (cpu ++ [a] ++ [b]). rewrite app_assoc, py_pop_last_snoc.
  unfold bind at 1, lift at 1. rewrite py_pop_last_snoc.
  unfold bind at 1, lift at 1. rewrite Hmem.
  unfold bind at 1.
  unfold pnd_getitem, ProcNetDev_getitem, ProcNetDev_update.
  rewrite Hauto, Hparse. destruct h as [? ? ? ? ? [? ? ?] ? ? ? ? ?]. reflexivity.
Qed.

(** C4, as the code has it, for a session whose scheduler queue holds the
    one event the session entered (a handler never has more than one event
    of its own queued, so that this is the queue of every session that does
    not inherit an event from an earlier connection).  A tick re-arms the
    next one only as its last step: when [update] returns, the queue has the
    new event alone and the scheduler goes on with the next tick; when it
    raises, the queue is empty, as the scheduler left it, the exception
    leaves [run], and the surroundings of the later ticks are never used.  A
    parse error of /proc/net/dev is such an exception. *)
Theorem tick_rearm_only_on_success `{Library} (env : TickEnv) (w : list TickEnv)
    (ev : Event) (h : Handler) :
  s_queue h = [ev] -> world h = env :: w ->
  let h0 := set_world w (set_s_queue [] h) in
  match update env h0 with
  | (Ok _, h1) =>
      s_queue h1 = [mkEvent 0.5 1] /\ world h1 = w /\
      s_run (S (length w)) h = s_run (length w) h1
  | (r, h1) =>
      s_queue h1 = [] /\ world h1 = w /\ s_run (S (length w)) h = (r, h1)
  end /\
  (forall e uptime cpu a b memory,
      env_uptime env = Ok uptime ->
      env_loadavg env = Ok (cpu ++ [a; b]) ->
      env_meminfo env = Ok memory ->
      pnd_auto_update (pnd h) = true ->
      parse_table (proc_text (env_net_dev_tx env)) = Raise e ->
      s_run (S (length w)) h = (Raise e, h0)).
Proof.
  intros Hq Hw h0. split.
  - rewrite (s_run_step _ _ [] _ _ _ Hq Hw). fold h0.
    destruct (update_queue env h0) as [Hw1 Hq1].
    change (s_queue h0) with (@nil Event) in Hq1. cbn [app] in Hq1.
    destruct (update env h0) as [[[]| |] h1]; cbn [fst snd] in *; auto.
  - intros e uptime cpu a b memory Hup Hcpu Hmem Hauto Hparse.
    rewrite (s_run_step _ _ [] _ _ _ Hq Hw). fold h0.
    rewrite (update_parse_error env h0 e uptime cpu a b memory); auto.
Qed.

(** A session, alone on the server, that handshakes, sends one frame, and
    then finds /proc/net/dev unreadable: the exception ends [handle]; the
    queue is left empty, the surroundings of the tick that would have
    followed are never used, and what was sent is the response and the one
    frame of the first tick. *)
Lemma parse_error_ends_the_session :
  (serve sample_client 2 sample_streaming_connection).1 = Raise ValueError /\
  s_queue (serve sample_client 2 sample_streaming_connection).2 = [] /\
  world (serve sample_client 2 sample_streaming_connection).2 = [sample_tick 2500 1500 12] /\
  exists prefix,
    sent (serve sample_client 2 sample_streaming_connection).2
    = handshake_response sample_accept
      ++ ["129"%char] ++ prefix ++ json_dumps sample_snapshot.
Proof.
  split; [reflexivity|]. split; [reflexivity|]. split; [reflexivity|].
  exists ["031"%char]. reflexivity.
Qed.

Lemma tick_rearm_only_on_success_witness :
  (exists h1,
      update (sample_tick 2000 1000 10) sample_handler = (Ok tt, h1) /\
      s_queue h1 = [mkEvent 0.5 1]) /\
  s_run 2 sample_before_bad_tick
  = (Raise ValueError,
     set_world [sample_tick 2500 1500 12] (set_s_queue [] sample_before_bad_tick)).
Proof.
  split.
  - pose proof (proj1 (tick_rearm_only_on_success (sample_tick 2000 1000 10) []
                         (mkEvent 0.5 1)
                         (new_handler [mkEvent 0.5 1] sample_pnd []
                                      [sample_tick 2000 1000 10])
                         eq_refl eq_refl)) as Hthm.
    cbv zeta in Hthm.
    change (set_world [] (set_s_queue [] (new_handler [mkEvent 0.5 1] sample_pnd []
                                             [sample_tick 2000 1000 10])))
      with sample_handler in Hthm.
    assert (Hok : (update (sample_tick 2000 1000 10) sample_handler).1 = Ok tt)
      by reflexivity.
    destruct (update (sample_tick 2000 1000 10) sample_handler) as [[[]| |] h1];
      try discriminate Hok.
    exists h1. split; [reflexivity|]. exact (proj1 Hthm).
  - exact (proj2 (tick_rearm_only_on_success (sample_bad_tick 11)
                    [sample_tick 2500 1500 12] (mkEvent 0.5 1) sample_before_bad_tick
                    eq_refl eq_refl)
                 ValueError 86400.5%float [py "0.10"; py "0.20"; py "0.30"]
                 (py "1/123") (py "4567")
                 (<[py "MemFree" := 1000]> (<[py "MemTotal" := 2000]> ∅))
                 eq_refl eq_refl eq_refl eq_refl eq_refl).
Defined.

(** ** The handshake and the main loop *)

Lemma request_recv_segment (seg : pystr) (rest : list pystr) (h : Handler) :
  inbound h = seg :: rest -> seg <> [] ->
  request_recv 1024 h
  = (Ok (take 1024 seg), set_inbound (push_segment (drop 1024 seg) rest) h).
Proof.
  intros Hin Hseg. unfold request_recv. rewrite Hin.
  destruct seg as [|c seg]; [contradiction|].
  change (Z.to_nat 1024) with 1024%nat.
  unfold push_segment. destruct (drop 1024 (c :: seg)); reflexivity.
Qed.

(** C5, as the code has it.  When the first request has a header block but
    no "Upgrade: websocket" header, [handshake] returns without sending
    anything and without raising, the handler is still waiting for its
    handshake, and the main loop runs [handshake] again on whatever the
    connection delivers next. *)
Theorem failed_handshake_is_retried `{Library} (seg first headers_text : pystr)
    (rest : list pystr) (h : Handler) (fuel : nat) :
  handshake_done h = 0 ->
  inbound h = seg :: rest -> seg <> [] ->
  py_split1 CRLF (py_strip (take 1024 seg)) = [first; headers_text] ->
  headers_get (Message headers_text) (py "Upgrade") <> Some (py "websocket") ->
  let h' := set_inbound (push_segment (drop 1024 seg) rest) h in
  handshake h = (Ok tt, h') /\
  sent h' = sent h /\ handshake_done h' = 0 /\
  handle (S fuel) h = handle fuel h'.
Proof.
  intros Hdone Hin Hseg Hsplit Hupgrade h'.
  assert (Hh : handshake h = (Ok tt, h')).
  { unfold handshake. unfold bind at 1.
    rewrite (request_recv_segment _ _ _ Hin Hseg). fold h'.
    cbv zeta. rewrite Hsplit.
    unfold bind at 1, lift at 1.
    change (py_index [first; headers_text] 1) with (Ok headers_text).
    cbv iota beta.
    rewrite bool_decide_eq_false_2 by assumption. reflexivity. }
  split; [exact Hh|]. split; [reflexivity|]. split; [exact Hdone|].
  cbn [handle]. unfold bind at 1, gets at 1. rewrite Hdone.
  change (0 =? 0) with true. cbv iota.
  unfold bind at 1. rewrite Hh. reflexivity.
Qed.

(** A connection whose first request asks for no upgrade and whose second
    request does: the handshake is run again, the accept response and a data
    frame are sent, and the handler is streaming when the model's
    surroundings run out. *)
Lemma failed_handshake_then_upgrade :
  handshake sample_retry_connection
  = (Ok tt, set_inbound [sample_upgrade_request] sample_retry_connection) /\
  (serve sample_client 2 sample_retry_connection).1 = Pending /\
  handshake_done (serve sample_client 2 sample_retry_connection).2 = 129 /\
  exists prefix,
    sent (serve sample_client 2 sample_retry_connection).2
    = handshake_response sample_accept
      ++ ["129"%char] ++ prefix ++ json_dumps sample_snapshot.
Proof.
  split; [reflexivity|]. split; [reflexivity|]. split; [reflexivity|].
  exists ["031"%char]. reflexivity.
Qed.

Lemma failed_handshake_is_retried_witness :
  handshake sample_retry_connection
  = (Ok tt, set_inbound [sample_upgrade_request] sample_retry_connection) /\
  handle 2 sample_retry_connection
  = handle 1 (set_inbound [sample_upgrade_request] sample_retry_connection).
Proof.
  destruct (failed_handshake_is_retried sample_plain_request
              (py "GET /status HTTP/1.1") (py "Host: 192.168.1.1:9999")
              [sample_upgrade_request] sample_retry_connection 1)
    as (Hh & _ & _ & Hl).
  - reflexivity.
  - reflexivity.
  - discriminate.
  - reflexivity.
  - intros E. vm_compute in E. discriminate E.
  - split; [exact Hh|exact Hl].
Defined.

(** * Further properties *)

(** ** The parser of /proc/net/dev: rows read token by token *)

Lemma fold_rbind_pending {A B} (k : B -> A -> result A) (l : list B) :
  fold_left (fun acc i => rbind acc (k i)) l Pending = Pending.
Proof. induction l as [|i l IH]; simpl; [reflexivity|exact IH]. Qed.

Lemma read_tokens_length (n : nat) :
  forall (tokens : list pystr) (vs : list Z),
    read_tokens n tokens = Ok vs -> length vs = n.
Proof.
  induction n as [|n IH]; intros tokens vs; simpl.
  - intros E. injection E as <-. reflexivity.
  - destruct tokens as [|t ts]; [discriminate|].
    destruct (py_int t) as [v| |]; simpl; try discriminate.
    destruct (read_tokens n ts) as [ws| |] eqn:E; simpl; try discriminate.
    intros E'. injection E' as <-. simpl. f_equal. eapply IH, E.
Qed.

Lemma read_tokens_add (a b : nat) :
  forall tokens : list pystr,
    read_tokens (a + b) tokens
    = (xs <- read_tokens a tokens;; ys <- read_tokens b (drop a tokens);; Ok (xs ++ ys)).
Proof.
  induction a as [|a IH]; intros tokens.
  - simpl. rewrite drop_0. destruct (read_tokens b tokens); reflexivity.
  - destruct tokens as [|t ts]; [reflexivity|].
    cbn [Nat.add read_tokens drop].
    destruct (py_int t) as [v| |]; cbn [rbind]; try reflexivity.
    rewrite IH.
    destruct (read_tokens a ts) as [xs| |]; cbn [rbind]; try reflexivity.
    destruct (read_tokens b (drop a ts)) as [ys| |]; reflexivity.
Qed.

Lemma read_tokens_take (n : nat) :
  forall tokens : list pystr, read_tokens n (take n tokens) = read_tokens n tokens.
Proof.
  induction n as [|n IH]; intros tokens; [reflexivity|].
  destruct tokens as [|t ts]; [reflexivity|].
  cbn [take read_tokens]. rewrite IH. reflexivity.
Qed.

Lemma labels_fold_read (data : list pystr) (suf pre : list pystr) (tmp : fields) (pos : nat) :
  fold_left
    (fun acc label_number =>
       st <- acc;;
       let '(tmp, absolute_position) := st in
       token <- py_index data absolute_position;;
       value <- py_int token;;
       label <- py_index (pre ++ suf) (Z.of_nat label_number);;
       Ok (<[label := value]> tmp, absolute_position + 1))
    (seq (length pre) (length suf)) (Ok (tmp, Z.of_nat pos))
  = (vs <- read_tokens (length suf) (drop pos data);;
     Ok (fold_left (fun tmp lv => <[lv.1 := lv.2]> tmp) (zip suf vs) tmp,
         Z.of_nat (pos + length suf))).
Proof.
  revert pre tmp pos. induction suf as [|x suf IH]; intros pre tmp pos.
  - simpl. rewrite Nat.add_0_r. reflexivity.
  - cbn [length seq fold_left]. cbn [rbind].
    destruct (data !! pos) as [t|] eqn:Et.
    + rewrite (py_index_lookup _ _ t Et). cbn [rbind].
      rewrite (drop_S _ _ _ Et). cbn [read_tokens].
      destruct (py_int t) as [v| |]; cbn [rbind].
      * rewrite (py_index_lookup _ _ x)
          by (rewrite lookup_app_r by lia; rewrite Nat.sub_diag; reflexivity).
        cbn [rbind].
        replace (Z.of_nat pos + 1) with (Z.of_nat (S pos)) by lia.
        specialize (IH (pre ++ [x]) (<[x := v]> tmp) (S pos)).
        rewrite <- app_assoc in IH. simpl app in IH.
        rewrite length_app in IH. simpl length in IH.
        replace (length pre + 1)%nat with (S (length pre)) in IH by lia.
        rewrite IH.
        replace (S pos + length suf)%nat with (pos + S (length suf))%nat by lia.
        destruct (read_tokens (length suf) (drop (S pos) data)); reflexivity.
      * apply fold_rbind_raise.
      * apply fold_rbind_pending.
    + pose proof (lookup_ge_None_1 _ _ Et) as Hge.
      rewrite py_index_beyond by assumption. cbn [rbind].
      rewrite fold_rbind_raise, drop_ge by lia. reflexivity.
Qed.

Lemma labels_loop_read (data labels : list pystr) (pos : nat) :
  labels_loop labels data (Z.of_nat pos)
  = (vs <- read_tokens (length labels) (drop pos data);;
     Ok (fields_of labels vs, Z.of_nat (pos + length labels))).
Proof. unfold labels_loop, fields_of. exact (labels_fold_read data labels [] ∅ pos). Qed.

Lemma sections_fold_read (data : list pystr) (name : pystr) (base : counters)
    (gsuf : list (pystr * list pystr)) :
  forall (ssuf spre : list section) (lpre : list (list pystr)) (d : interface) (pos : nat),
    map (fun s : section => s.2) ssuf = map fst gsuf ->
    length lpre = length spre ->
    fold_left
      (fun acc section_number =>
         st <- acc;;
         let '(interfaces, absolute_position) := st in
         section_labels <- py_index (lpre ++ map snd gsuf) (Z.of_nat section_number);;
         filled <- labels_loop section_labels data absolute_position;;
         let '(tmp, absolute_position) := filled in
         section <- py_index (spre ++ ssuf) (Z.of_nat section_number);;
         interfaces <- set_section interfaces name section.2 tmp;;
         Ok (interfaces, absolute_position))
      (seq (length spre) (length ssuf)) (Ok (<[name := d]> base, Z.of_nat pos))
    = (vs <- read_tokens (length (flattened gsuf)) (drop pos data);;
       Ok (<[name := iface_fill gsuf vs d]> base,
           Z.of_nat (pos + length (flattened gsuf)))).
Proof.
  induction gsuf as [|g gsuf IH]; intros ssuf spre lpre d pos Hs Hl.
  - destruct ssuf; [|discriminate]. simpl. rewrite Nat.add_0_r. reflexivity.
  - destruct ssuf as [|s ssuf]; [discriminate|].
    simpl in Hs. injection Hs as Hs1 Hs.
    cbn [length seq fold_left]. cbn [rbind].
    rewrite (py_index_lookup _ _ g.2)
      by (rewrite lookup_app_r by lia; rewrite Hl, Nat.sub_diag; reflexivity).
    cbn [rbind]. rewrite labels_loop_read.
    rewrite length_flattened_cons, read_tokens_add.
    destruct (read_tokens (length g.2) (drop pos data)) as [xs| |] eqn:Exs; cbn [rbind].
    + rewrite (py_index_lookup _ _ s)
        by (rewrite lookup_app_r by lia; rewrite Nat.sub_diag; reflexivity).
      cbn [rbind]. unfold set_section. rewrite lookup_insert_eq. cbn [rbind].
      rewrite insert_insert_eq.
      specialize (IH ssuf (spre ++ [s]) (lpre ++ [g.2])).
      rewrite <- !app_assoc in IH. simpl app in IH.
      rewrite !length_app in IH. simpl length in IH.
      replace (length spre + 1)%nat with (S (length spre)) in IH by lia.
      rewrite IH; [|assumption|lia].
      rewrite drop_drop.
      replace (length g.2 + pos)%nat with (pos + length g.2)%nat by lia.
      destruct (read_tokens (length (flattened gsuf)) (drop (pos + length g.2) data))
        as [ys| |]; cbn [rbind]; try reflexivity.
      pose proof (read_tokens_length _ _ _ Exs) as Hlen.
      cbn [iface_fill]. rewrite Hs1.
      rewrite <- Hlen, take_app_length, drop_app_length, Hlen.
      replace (pos + length g.2 + length (flattened gsuf))%nat
        with (pos + (length g.2 + length (flattened gsuf)))%nat by lia.
      reflexivity.
    + apply fold_rbind_raise.
    + apply fold_rbind_pending.
Qed.

Lemma sections_fill_read (data : list pystr) (sections : list section)
    (groups : list (pystr * list pystr)) (name : pystr) (base : counters) :
  map (fun s : section => s.2) sections = map fst groups ->
  sections_fill sections (map snd groups) name data (<[name := ∅]> base)
  = (vs <- read_tokens (length (flattened groups)) data;;
     Ok (<[name := iface_fill groups vs ∅]> base)).
Proof.
  intros Hs. unfold sections_fill.
  pose proof (sections_fold_read data name base groups sections [] [] ∅ 0 Hs eq_refl) as H.
  simpl in H. change (Z.of_nat 0) with 0 in H. rewrite drop_0 in H.
  rewrite H.
  destruct (read_tokens (length (flattened groups)) data); reflexivity.
Qed.

Lemma parse_row_read (sections : list section) (groups : list (pystr * list pystr))
    (base : counters) (row : pystr) :
  map (fun s : section => s.2) sections = map fst groups ->
  parse_row sections (map snd groups) base row
  = (nv <- row_read (length (flattened groups)) row;;
     Ok (<[nv.1 := iface_fill groups nv.2 ∅]> base)).
Proof.
  intros Hs. unfold row_read, parse_row.
  destruct (py_split1 [":"%char] (py_strip_chars [NL] row)) as [|rawname [|data [|? ?]]];
    try reflexivity.
  rewrite (sections_fill_read _ _ _ _ _ Hs).
  destruct (read_tokens (length (flattened groups)) (py_split data)); reflexivity.
Qed.

Lemma rows_fold_read (sections : list section) (groups : list (pystr * list pystr))
    (rows : list pystr) :
  map (fun s : section => s.2) sections = map fst groups ->
  forall acc : result counters,
    fold_left (fun acc info => interfaces <- acc;;
                               parse_row sections (map snd groups) interfaces info)
              rows acc
    = fold_left
        (fun acc row =>
           m <- acc;;
           nv <- row_read (length (flattened groups)) row;;
           Ok (<[nv.1 := iface_fill groups nv.2 ∅]> m))
        rows acc.
Proof.
  intros Hs. induction rows as [|row rows IH]; intros acc; [reflexivity|].
  cbn [fold_left]. rewrite <- IH. f_equal.
  destruct acc as [m| |]; cbn [rbind]; try reflexivity.
  apply parse_row_read, Hs.
Qed.

(** The table of a file whose header line has a first piece and a
    delimiter is the table read row by row. *)
Lemma parse_table_read (text headerline labelline p0 : pystr) (ps rows : list pystr) :
  py_readlines text = headerline :: labelline :: rows ->
  py_split_on "|" headerline = p0 :: ps -> p0 <> [] -> ps <> [] ->
  let groups := header_groups headerline (py_strip_chars [NL] labelline) in
  parse_table text = table_read groups (length (flattened groups)) rows ∅.
Proof.
  intros Hlines Hsplit Hp0 Hps groups.
  rewrite (parse_table_lines _ _ _ _ Hlines).
  destruct (header_result headerline (py_strip_chars [NL] labelline) p0 ps Hsplit Hp0 Hps)
    as (-> & sections & -> & Hs & Hl).
  cbn [rbind]. rewrite Hl. apply rows_fold_read, Hs.
Qed.

Lemma table_read_cons (groups : list (pystr * list pystr)) (n : nat) (row : pystr)
    (rows : list pystr) (base : counters) :
  table_read groups n (row :: rows) base
  = (nv <- row_read n row;;
     table_read groups n rows (<[nv.1 := iface_fill groups nv.2 ∅]> base)).
Proof.
  unfold table_read. cbn [fold_left rbind].
  destruct (row_read n row) as [nv| |]; cbn [rbind];
    [reflexivity|apply fold_rbind_raise|apply fold_rbind_pending].
Qed.

(** The first row that cannot be read decides how the table fails. *)
Lemma table_read_raise (groups : list (pystr * list pystr)) (n : nat)
    (before after : list pystr) (bad : pystr) (e : exn) :
  Forall (fun row => exists nv, row_read n row = Ok nv) before ->
  row_read n bad = Raise e ->
  forall base, table_read groups n (before ++ bad :: after) base = Raise e.
Proof.
  intros Hbefore Hbad.
  induction Hbefore as [|row before [nv Hrow] _ IH]; intros base.
  - simpl app. rewrite table_read_cons, Hbad. reflexivity.
  - simpl app. rewrite table_read_cons, Hrow. cbn [rbind]. apply IH.
Qed.

Lemma update_raise (rd : ProcRead) (self : ProcNetDev) (e : exn) :
  parse_table (proc_text rd) = Raise e -> ProcNetDev_update rd self = (Raise e, self).
Proof. intros E. unfold ProcNetDev_update. rewrite E. reflexivity. Qed.

Lemma lstrip_by_elem (p : ascii -> bool) (s : pystr) (c : ascii) :
  c ∈ lstrip_by p s -> c ∈ s.
Proof.
  induction s as [|x s IH]; simpl; [auto|].
  destruct (p x); [|auto]. intros H. right. apply IH, H.
Qed.

Lemma strip_by_elem (p : ascii -> bool) (s : pystr) (c : ascii) :
  c ∈ strip_by p s -> c ∈ s.
Proof.
  unfold strip_by. intros H.
  apply list_elem_of_In, in_rev, list_elem_of_In, lstrip_by_elem in H.
  apply list_elem_of_In, in_rev, list_elem_of_In, lstrip_by_elem in H. exact H.
Qed.

Lemma find_sub_absent (c : ascii) (s : pystr) : c ∉ s -> find_sub [c] s = None.
Proof.
  induction s as [|x s IH]; intros Hc; [reflexivity|].
  cbn [find_sub starts_with].
  destruct (Ascii.eqb_spec c x) as [->|Hne].
  - exfalso. apply Hc. left.
  - cbn [andb]. rewrite IH; [reflexivity|].
    intros Hin. apply Hc. right. exact Hin.
Qed.

Lemma row_read_no_colon (n : nat) (row : pystr) :
  ":"%char ∉ row -> row_read n row = Raise ValueError.
Proof.
  intros Hc. unfold row_read, py_split1.
  rewrite find_sub_absent; [reflexivity|].
  intros Hin. apply Hc. unfold py_strip_chars in Hin. eapply strip_by_elem, Hin.
Qed.

Lemma py_int_outcome (t : pystr) : (exists v, py_int t = Ok v) \/ py_int t = Raise ValueError.
Proof.
  unfold py_int.
  destruct (match t with
            | [] => (false, t)
            | c :: r => if Ascii.eqb c "-" then (true, r)
                        else if Ascii.eqb c "+" then (false, r) else (false, t)
            end) as [neg ds].
  destruct ds as [|d ds]; [right; reflexivity|].
  destruct (forallb is_digit (d :: ds)); [left; eexists; reflexivity|right; reflexivity].
Qed.

Lemma read_tokens_bad (n : nat) (bad : pystr) (more : list pystr) :
  forall good : list pystr,
    (length good < n)%nat ->
    Forall (fun t => is_Some (int_option t)) good ->
    int_option bad = None ->
    read_tokens n (good ++ bad :: more) = Raise ValueError.
Proof.
  induction n as [|n IH]; intros good Hlen Hgood Hbad; [lia|].
  destruct good as [|t good].
  - simpl. unfold int_option in Hbad.
    destruct (py_int_outcome bad) as [[v E]|E]; rewrite E in *; [discriminate|reflexivity].
  - apply Forall_cons in Hgood as [[v Ht] Hgood]. simpl in Hlen.
    simpl app. cbn [read_tokens]. unfold int_option in Ht.
    destruct (py_int t) as [w| |]; try discriminate. cbn [rbind].
    rewrite IH; [reflexivity|lia|assumption|assumption].
Qed.

(** X1.  A data row without a colon (an empty line, say) after rows that
    can be read makes [update] raise ValueError, from the unpacking of
    [info.split(":", 1)], and leaves the object as it was. *)
Theorem row_without_colon_raises (rd : ProcRead) (self : ProcNetDev)
    (headerline labelline p0 bad : pystr) (ps before after : list pystr) :
  py_readlines (proc_text rd) = headerline :: labelline :: before ++ bad :: after ->
  py_split_on "|" headerline = p0 :: ps -> p0 <> [] -> ps <> [] ->
  let flat := flattened (header_groups headerline (py_strip_chars [NL] labelline)) in
  Forall (fun row => exists nv, row_read (length flat) row = Ok nv) before ->
  ":"%char ∉ bad ->
  ProcNetDev_update rd self = (Raise ValueError, self).
Proof.
  intros Hlines Hsplit Hp0 Hps flat Hbefore Hbad.
  apply update_raise.
  rewrite (parse_table_read _ _ _ _ _ _ Hlines Hsplit Hp0 Hps).
  apply table_read_raise; [exact Hbefore|].
  apply row_read_no_colon, Hbad.
Qed.

Lemma row_without_colon_raises_witness :
  ProcNetDev_update (mkProcRead sample_blank_table 7)
                    (mkProcNetDev (Some sample_counters) (Some 0) true)
  = (Raise ValueError, mkProcNetDev (Some sample_counters) (Some 0) true).
Proof.
  apply (row_without_colon_raises (mkProcRead sample_blank_table 7) _
           sample_header sample_labels (py "Inter-") [NL]
           [py "   Receive           "; py "  Transmit" ++ [NL]]
           [sample_row_lo] [sample_row_eth0]).
  - reflexivity.
  - reflexivity.
  - discriminate.
  - discriminate.
  - repeat (constructor; [vm_compute; eexists; reflexivity|]). constructor.
  - compute_done.
Defined.

(** X2.  A token that is not an integer among the tokens a row is read
    for makes [update] raise ValueError, from [int], and leaves the object as
    it was; the tokens after it are not looked at. *)
Theorem non_integer_token_raises (rd : ProcRead) (self : ProcNetDev)
    (headerline labelline p0 row name data token : pystr)
    (ps before after good more : list pystr) :
  py_readlines (proc_text rd) = headerline :: labelline :: before ++ row :: after ->
  py_split_on "|" headerline = p0 :: ps -> p0 <> [] -> ps <> [] ->
  let flat := flattened (header_groups headerline (py_strip_chars [NL] labelline)) in
  Forall (fun row => exists nv, row_read (length flat) row = Ok nv) before ->
  py_split1 [":"%char] (py_strip_chars [NL] row) = [name; data] ->
  py_split data = good ++ token :: more ->
  (length good < length flat)%nat ->
  Forall (fun t => is_Some (int_option t)) good ->
  int_option token = None ->
  ProcNetDev_update rd self = (Raise ValueError, self).
Proof.
  intros Hlines Hsplit Hp0 Hps flat Hbefore Hrow Hdata Hlen Hgood Htoken.
  apply update_raise.
  rewrite (parse_table_read _ _ _ _ _ _ Hlines Hsplit Hp0 Hps).
  apply table_read_raise; [exact Hbefore|].
  unfold row_read. rewrite Hrow, Hdata.
  rewrite (read_tokens_bad _ _ _ _ Hlen Hgood Htoken). reflexivity.
Qed.

Lemma non_integer_token_raises_witness :
  ProcNetDev_update (mkProcRead sample_dash_table 7)
                    (mkProcNetDev (Some sample_counters) (Some 0) true)
  = (Raise ValueError, mkProcNetDev (Some sample_counters) (Some 0) true).
Proof.
  apply (non_integer_token_raises (mkProcRead sample_dash_table 7) _
           sample_header sample_labels (py "Inter-") sample_row_dash
           (py "  eth0") (py " 98 - 7 42 0 13") (py "-")
           [py "   Receive           "; py "  Transmit" ++ [NL]]
           [sample_row_lo] [] [py "98"] [py "7"; py "42"; py "0"; py "13"]).
  - reflexivity.
  - reflexivity.
  - discriminate.
  - discriminate.
  - repeat (constructor; [vm_compute; eexists; reflexivity|]). constructor.
  - reflexivity.
  - reflexivity.
  - vm_compute. lia.
  - repeat (constructor; [vm_compute; eexists; reflexivity|]). constructor.
  - reflexivity.
Defined.

(** X3.  [update] reads of a row only its name and as many tokens as the
    table has fields: two files that differ in what follows those tokens in
    one row, whatever it is, give the same result. *)
Theorem surplus_tokens_ignored (text text' headerline labelline p0 : pystr)
    (row row' name name' data data' : pystr) (ps before after : list pystr) :
  py_readlines text = headerline :: labelline :: before ++ row :: after ->
  py_readlines text' = headerline :: labelline :: before ++ row' :: after ->
  py_split_on "|" headerline = p0 :: ps -> p0 <> [] -> ps <> [] ->
  let flat := flattened (header_groups headerline (py_strip_chars [NL] labelline)) in
  py_split1 [":"%char] (py_strip_chars [NL] row) = [name; data] ->
  py_split1 [":"%char] (py_strip_chars [NL] row') = [name'; data'] ->
  py_strip name = py_strip name' ->
  take (length flat) (py_split data) = take (length flat) (py_split data') ->
  parse_table text = parse_table text'.
Proof.
  intros Hlines Hlines' Hsplit Hp0 Hps flat Hrow Hrow' Hname Hdata.
  rewrite (parse_table_read _ _ _ _ _ _ Hlines Hsplit Hp0 Hps).
  rewrite (parse_table_read _ _ _ _ _ _ Hlines' Hsplit Hp0 Hps).
  fold flat. unfold table_read. rewrite !fold_left_app. cbn [fold_left].
  assert (Hsame : row_read (length flat) row = row_read (length flat) row').
  { unfold row_read. rewrite Hrow, Hrow', Hname.
    rewrite <- (read_tokens_take _ (py_split data)), Hdata, read_tokens_take.
    reflexivity. }
  rewrite Hsame. reflexivity.
Qed.

Lemma surplus_tokens_ignored_witness :
  parse_table sample_surplus_table = parse_table sample_table.
Proof.
  apply (surplus_tokens_ignored sample_surplus_table sample_table
           sample_header sample_labels (py "Inter-")
           sample_row_surplus sample_row_lo (py "    lo") (py "    lo")
           (py "    1234      10    0     1234      10    0   7 up")
           (py "    1234      10    0     1234      10    0")
           [py "   Receive           "; py "  Transmit" ++ [NL]]
           [] [sample_row_eth0]).
  - reflexivity.
  - reflexivity.
  - reflexivity.
  - discriminate.
  - discriminate.
  - reflexivity.
  - reflexivity.
  - reflexivity.
  - vm_compute. reflexivity.
Defined.

(** ** The parser of /proc/net/dev: what a table read row by row holds *)

Lemma table_read_nil (groups : list (pystr * list pystr)) (n : nat) (base : counters) :
  table_read groups n [] base = Ok base.
Proof. reflexivity. Qed.

Lemma table_read_cons_inv (groups : list (pystr * list pystr)) (n : nat) (row : pystr)
    (rows : list pystr) (base m : counters) :
  table_read groups n (row :: rows) base = Ok m ->
  exists name vs,
    row_read n row = Ok (name, vs) /\
    table_read groups n rows (<[name := iface_fill groups vs ∅]> base) = Ok m.
Proof.
  rewrite table_read_cons.
  destruct (row_read n row) as [[name vs]| |]; cbn [rbind]; try discriminate.
  intros E. exists name, vs. split; [reflexivity|exact E].
Qed.

Lemma read_names_cons (n : nat) (row : pystr) (rows : list pystr) :
  read_names n (row :: rows)
  = match row_read n row with
    | Ok nv => nv.1 :: read_names n rows
    | _ => read_names n rows
    end.
Proof. unfold read_names. simpl. destruct (row_read n row); reflexivity. Qed.

Lemma table_read_lookup (groups : list (pystr * list pystr)) (n : nat) (rows : list pystr) :
  forall (base m : counters) (name : pystr) (d : interface),
    table_read groups n rows base = Ok m ->
    m !! name = Some d ->
    base !! name = Some d \/
    exists row vs, row ∈ rows /\ row_read n row = Ok (name, vs) /\
                   d = iface_fill groups vs ∅.
Proof.
  induction rows as [|row rows IH]; intros base m name d Hm Hd.
  - rewrite table_read_nil in Hm. injection Hm as <-. left. exact Hd.
  - apply table_read_cons_inv in Hm as (rname & vs & Hrow & Hm).
    destruct (IH _ _ _ _ Hm Hd) as [Hbase|(r & ws & Hin & Hr & ->)].
    + destruct (decide (rname = name)) as [->|Hne].
      * rewrite lookup_insert_eq in Hbase. injection Hbase as <-.
        right. exists row, vs. split; [left|]. split; [exact Hrow|reflexivity].
      * rewrite lookup_insert_ne in Hbase by exact Hne. left. exact Hbase.
    + right. exists r, ws. split; [right; exact Hin|]. split; [exact Hr|reflexivity].
Qed.

Lemma table_read_keeps (groups : list (pystr * list pystr)) (n : nat) (rows : list pystr)
    (name : pystr) :
  forall base m : counters,
    table_read groups n rows base = Ok m ->
    Forall (fun r => forall nv, row_read n r = Ok nv -> nv.1 <> name) rows ->
    m !! name = base !! name.
Proof.
  induction rows as [|row rows IH]; intros base m Hm Hrows.
  - rewrite table_read_nil in Hm. injection Hm as <-. reflexivity.
  - apply table_read_cons_inv in Hm as (rname & vs & Hrow & Hm).
    apply Forall_cons in Hrows as [Hr Hrows].
    rewrite (IH _ _ Hm Hrows).
    apply lookup_insert_ne. exact (Hr _ Hrow).
Qed.

Lemma table_read_app_inv (groups : list (pystr * list pystr)) (n : nat)
    (before after : list pystr) :
  forall base m : counters,
    table_read groups n (before ++ after) base = Ok m ->
    exists mid, table_read groups n before base = Ok mid /\
                table_read groups n after mid = Ok m.
Proof.
  induction before as [|row before IH]; intros base m Hm.
  - exists base. split; [reflexivity|exact Hm].
  - simpl app in Hm. apply table_read_cons_inv in Hm as (rname & vs & Hrow & Hm).
    destruct (IH _ _ Hm) as (mid & Hmid & Hafter).
    exists mid. split; [|exact Hafter].
    rewrite table_read_cons, Hrow. exact Hmid.
Qed.

Lemma table_read_dom (groups : list (pystr * list pystr)) (n : nat) (rows : list pystr)
    (name : pystr) :
  forall base m : counters,
    table_read groups n rows base = Ok m ->
    (is_Some (m !! name) <-> is_Some (base !! name) \/ name ∈ read_names n rows).
Proof.
  induction rows as [|row rows IH]; intros base m Hm.
  - rewrite table_read_nil in Hm. injection Hm as <-.
    split; [auto|]. intros [H|H]; [exact H|]. inversion H.
  - apply table_read_cons_inv in Hm as (rname & vs & Hrow & Hm).
    rewrite (IH _ _ Hm), read_names_cons, Hrow. cbn [fst].
    destruct (decide (rname = name)) as [->|Hne].
    + rewrite lookup_insert_eq. split; [intros _; right; left|].
      intros _. left. eexists. reflexivity.
    + rewrite lookup_insert_ne by exact Hne. rewrite elem_of_cons.
      split; [intros [H|H]; auto|]. intros [H|[H|H]]; auto. congruence.
Qed.

Lemma table_read_size (groups : list (pystr * list pystr)) (n : nat) (rows : list pystr) :
  forall base m : counters,
    table_read groups n rows base = Ok m ->
    NoDup (read_names n rows) ->
    (forall name, name ∈ read_names n rows -> base !! name = None) ->
    size m = (size base + length rows)%nat.
Proof.
  induction rows as [|row rows IH]; intros base m Hm Hnd Hfresh.
  - rewrite table_read_nil in Hm. injection Hm as <-. simpl. lia.
  - apply table_read_cons_inv in Hm as (rname & vs & Hrow & Hm).
    rewrite read_names_cons, Hrow in Hnd, Hfresh. cbn [fst] in Hnd, Hfresh.
    apply NoDup_cons in Hnd as [Hnotin Hnd].
    rewrite (IH _ _ Hm Hnd).
    + rewrite map_size_insert_None by (apply Hfresh; left). simpl. lia.
    + intros name Hin. rewrite lookup_insert_ne; [apply Hfresh; right; exact Hin|].
      intros ->. contradiction.
Qed.

Lemma read_tokens_outcome (n : nat) :
  forall tokens : list pystr,
    (exists vs, read_tokens n tokens = Ok vs) \/
    read_tokens n tokens = Raise ValueError \/ read_tokens n tokens = Raise IndexError.
Proof.
  induction n as [|n IH]; intros tokens; [left; eexists; reflexivity|].
  destruct tokens as [|t ts]; [right; right; reflexivity|].
  cbn [read_tokens].
  destruct (py_int_outcome t) as [[v ->]| ->]; cbn [rbind]; [|right; left; reflexivity].
  destruct (IH ts) as [[vs ->]|[-> | ->]]; cbn [rbind];
    [left; eexists; reflexivity|right; left; reflexivity|right; right; reflexivity].
Qed.

Lemma row_read_outcome (n : nat) (row : pystr) :
  (exists nv, row_read n row = Ok nv) \/
  row_read n row = Raise ValueError \/ row_read n row = Raise IndexError.
Proof.
  unfold row_read.
  destruct (py_split1 [":"%char] (py_strip_chars [NL] row)) as [|rawname [|data [|? ?]]];
    try (right; left; reflexivity).
  destruct (read_tokens_outcome n (py_split data)) as [[vs ->]|[-> | ->]]; cbn [rbind];
    [left; eexists; reflexivity|right; left; reflexivity|right; right; reflexivity].
Qed.

Lemma table_read_outcome (groups : list (pystr * list pystr)) (n : nat) (rows : list pystr) :
  forall base : counters,
    (exists m, table_read groups n rows base = Ok m) \/
    table_read groups n rows base = Raise ValueError \/
    table_read groups n rows base = Raise IndexError.
Proof.
  induction rows as [|row rows IH]; intros base; [left; eexists; reflexivity|].
  rewrite table_read_cons.
  destruct (row_read_outcome n row) as [[nv ->]|[-> | ->]]; cbn [rbind];
    [apply IH|right; left; reflexivity|right; right; reflexivity].
Qed.

(** Whatever the header line, the rows are read against the sections the
    header loop found and the labels cut out for them. *)
Lemma parse_row_zip (sections : list section) (labels : list (list pystr))
    (base : counters) (row : pystr) :
  length labels = length sections ->
  let groups := zip (map (fun s : section => s.2) sections) labels in
  parse_row sections labels base row
  = (nv <- row_read (length (flattened groups)) row;;
     Ok (<[nv.1 := iface_fill groups nv.2 ∅]> base)).
Proof.
  intros Hlen groups.
  assert (Hl : map snd groups = labels).
  { apply (snd_zip (map (fun s : section => s.2) sections) labels).
    rewrite length_map. lia. }
  assert (Hs : map (fun s : section => s.2) sections = map fst groups).
  { symmetry. apply (fst_zip (map (fun s : section => s.2) sections) labels).
    rewrite length_map. lia. }
  rewrite <- Hl at 1. apply parse_row_read, Hs.
Qed.

Lemma rows_fold_zip (sections : list section) (labels : list (list pystr))
    (rows : list pystr) (base : counters) :
  length labels = length sections ->
  let groups := zip (map (fun s : section => s.2) sections) labels in
  fold_left (fun acc info => interfaces <- acc;; parse_row sections labels interfaces info)
            rows (Ok base)
  = table_read groups (length (flattened groups)) rows base.
Proof.
  intros Hlen groups. unfold table_read. generalize (Ok base).
  induction rows as [|row rows IH]; intros acc; [reflexivity|].
  cbn [fold_left]. rewrite <- IH. f_equal.
  destruct acc as [a| |]; cbn [rbind]; try reflexivity.
  apply (parse_row_zip sections labels a row Hlen).
Qed.

Lemma parse_table_outcome (text : pystr) :
  (exists m, parse_table text = Ok m) \/
  parse_table text = Raise ValueError \/ parse_table text = Raise IndexError.
Proof.
  unfold parse_table.
  destruct (py_count "|" (hd [] (py_readlines text)) =? 0); [right; left; reflexivity|].
  destruct (sections_loop_total (hd [] (py_readlines text))) as [sections ->].
  cbn [rbind].
  destruct sections as [|junk sections]; [right; right; reflexivity|].
  cbn [py_pop0 rbind].
  rewrite rows_fold_zip by apply length_map.
  apply table_read_outcome.
Qed.

(** X4.  On any text of the file, [update] either succeeds, and then holds
    the new dict and the time of the read, or raises ValueError or
    IndexError and leaves the object as it was: its header loop always ends,
    and it raises nothing else. *)
Theorem update_outcomes (rd : ProcRead) (self : ProcNetDev) :
  (exists m,
      ProcNetDev_update rd self
      = (Ok tt, mkProcNetDev (Some m) (Some (proc_utcnow rd)) (pnd_auto_update self))) \/
  ProcNetDev_update rd self = (Raise ValueError, self) \/
  ProcNetDev_update rd self = (Raise IndexError, self).
Proof.
  unfold ProcNetDev_update.
  destruct (parse_table_outcome (proc_text rd)) as [[m ->]|[-> | ->]];
    [left; exists m; reflexivity|right; left; reflexivity|right; right; reflexivity].
Qed.

Lemma sections_loop_leading (more : pystr) (fuel : nat) :
  sections_loop (S fuel) ("|"%char :: more) (Some (-1)) [] = Ok [(0, Some 0, [])].
Proof.
  cbn [sections_loop]. change (-1 =? 0) with false. cbv iota.
  change (-1 + 1) with 0.
  assert (Hfind : py_find "|" ("|"%char :: more) 0 = 0).
  { unfold py_find, slice_index. change (0 <? 0) with false. cbv iota.
    rewrite Z.min_l by apply len_nonneg. reflexivity. }
  rewrite Hfind. change (0 <? 0) with false. cbv iota.
  assert (Hslice : py_slice ("|"%char :: more) 0 (Some 0) = []).
  { unfold py_slice, slice_index. change (0 <? 0) with false. cbv iota.
    rewrite Z.min_l by apply len_nonneg. reflexivity. }
  rewrite Hslice. destruct fuel; reflexivity.
Qed.

Lemma table_read_bare (rows : list pystr) :
  forall base m : counters,
    table_read [] 0 rows base = Ok m ->
    (forall name d, base !! name = Some d -> d = ∅) ->
    forall name d, m !! name = Some d -> d = ∅.
Proof.
  intros base m Hm Hbase name d Hd.
  destruct (table_read_lookup _ _ _ _ _ _ _ Hm Hd) as [H|(row & vs & _ & _ & ->)];
    [exact (Hbase _ _ H)|reflexivity].
Qed.

(** X5.  When the header line begins with the delimiter, the header loop
    stops after its first section and that one is discarded: the rows are
    read against no section at all, so that every interface of the result
    has an empty dict and no counter can be looked up. *)
Theorem leading_delimiter_drops_sections (text more labelline : pystr) (rows : list pystr) :
  py_readlines text = ("|"%char :: more) :: labelline :: rows ->
  parse_table text = table_read [] 0 rows ∅ /\
  forall m, parse_table text = Ok m ->
            (forall name d, m !! name = Some d -> d = ∅) /\
            (forall name g f, counter m name g f = None).
Proof.
  intros Hlines.
  assert (Hread : parse_table text = table_read [] 0 rows ∅).
  { rewrite (parse_table_lines _ _ _ _ Hlines).
    pose proof (py_count_delimiter "|" [] more) as Hcount. simpl app in Hcount.
    rewrite Hcount.
    rewrite sections_loop_leading. cbn [rbind py_pop0 map].
    apply (rows_fold_zip [] [] rows ∅ eq_refl). }
  split; [exact Hread|].
  intros m Hm. rewrite Hread in Hm.
  assert (Hempty : forall name d, m !! name = Some d -> d = ∅).
  { apply (table_read_bare _ _ _ Hm). intros name d H. rewrite lookup_empty in H.
    discriminate. }
  split; [exact Hempty|].
  intros name g f. unfold counter.
  destruct (m !! name) as [d|] eqn:Ed; [|reflexivity].
  rewrite (Hempty _ _ Ed). reflexivity.
Qed.

Lemma leading_delimiter_drops_sections_witness :
  parse_table sample_bare_table = Ok (<[py "lo" := ∅]> ∅).
Proof.
  destruct (leading_delimiter_drops_sections sample_bare_table
              (py "   Receive           |  Transmit" ++ [NL]) sample_labels
              [sample_row_lo] eq_refl) as [-> _].
  reflexivity.
Defined.

Lemma table_read_ok (groups : list (pystr * list pystr)) (n : nat) (rows : list pystr) :
  Forall (fun row => exists nv, row_read n row = Ok nv) rows ->
  forall base, exists m, table_read groups n rows base = Ok m.
Proof.
  induction 1 as [|row rows [nv Hrow] _ IH]; intros base; [eexists; reflexivity|].
  rewrite table_read_cons, Hrow. cbn [rbind]. apply IH.
Qed.

Lemma iface_fill_some (groups : list (pystr * list pystr)) (g : pystr) :
  forall (vals : list Z) (d : interface),
    g ∈ groups.*1 -> is_Some (iface_fill groups vals d !! g).
Proof.
  induction groups as [|g0 groups IH]; intros vals d Hin; [inversion Hin|].
  cbn [iface_fill].
  destruct (decide (g ∈ groups.*1)) as [Hlater|Hnot]; [apply IH, Hlater|].
  rewrite iface_fill_notin by exact Hnot.
  simpl in Hin. apply elem_of_cons in Hin as [->|Hin]; [|contradiction].
  rewrite lookup_insert_eq. eexists. reflexivity.
Qed.

(** X6.  When two rows have the same name the later one replaces the
    earlier: the counters kept under a name are those of the last row that
    has it, field [k] of the flattened list being its token [k]. *)
Theorem last_row_wins (text headerline labelline p0 row name : pystr)
    (ps before after : list pystr) (vals : list Z) (m : counters) :
  py_readlines text = headerline :: labelline :: before ++ row :: after ->
  py_split_on "|" headerline = p0 :: ps -> p0 <> [] -> ps <> [] ->
  let groups := header_groups headerline (py_strip_chars [NL] labelline) in
  let flat := flattened groups in
  NoDup groups.*1 -> Forall (fun g => NoDup g.2) groups ->
  parse_table text = Ok m ->
  row_read (length flat) row = Ok (name, vals) ->
  Forall (fun r => forall nv, row_read (length flat) r = Ok nv -> nv.1 <> name) after ->
  forall k g f, flat !! k = Some (g, f) -> counter m name g f = vals !! k.
Proof.
  intros Hlines Hsplit Hp0 Hps groups flat Hgroups Hlabels Hm Hrow Hafter k g f Hk.
  rewrite (parse_table_read _ _ _ _ _ _ Hlines Hsplit Hp0 Hps) in Hm.
  fold groups flat in Hm.
  apply table_read_app_inv in Hm as (mid & _ & Hm).
  apply table_read_cons_inv in Hm as (name' & vals' & Hrow' & Hm).
  rewrite Hrow in Hrow'. injection Hrow' as <- <-.
  pose proof (table_read_keeps _ _ _ name _ _ Hm Hafter) as Hname.
  rewrite lookup_insert_eq in Hname.
  unfold counter. rewrite Hname. cbn.
  apply iface_fill_counter; try assumption.
  unfold row_read in Hrow.
  destruct (py_split1 [":"%char] (py_strip_chars [NL] row)) as [|rawname [|data [|? ?]]];
    try discriminate.
  destruct (read_tokens (length flat) (py_split data)) as [vs| |] eqn:Evs; try discriminate.
  cbn [rbind] in Hrow. injection Hrow as _ <-.
  rewrite (read_tokens_length _ _ _ Evs). fold flat. lia.
Qed.

Lemma last_row_wins_witness :
  parse_table sample_twice_table = Ok sample_twice_counters /\
  counter sample_twice_counters (py "lo") (py "receive") (py "packets") = Some 2.
Proof.
  assert (Hm : parse_table sample_twice_table = Ok sample_twice_counters) by reflexivity.
  split; [exact Hm|].
  apply (last_row_wins sample_twice_table sample_header sample_labels (py "Inter-")
           sample_row_lo_again (py "lo")
           [py "   Receive           "; py "  Transmit" ++ [NL]]
           [sample_row_lo; sample_row_eth0] [] [1; 2; 3; 4; 5; 6] sample_twice_counters)
    with (k := 1%nat).
  - reflexivity.
  - reflexivity.
  - discriminate.
  - discriminate.
  - vm_compute. compute_done.
  - vm_compute. compute_done.
  - exact Hm.
  - vm_compute. reflexivity.
  - constructor.
  - reflexivity.
Defined.

(** X7.  Every interface of a parsed table has the same keys, the names of
    the header's column groups, a group without labels included. *)
Theorem interface_keys_are_groups (text headerline labelline p0 name : pystr)
    (ps rows : list pystr) (m : counters) (d : interface) :
  py_readlines text = headerline :: labelline :: rows ->
  py_split_on "|" headerline = p0 :: ps -> p0 <> [] -> ps <> [] ->
  let groups := header_groups headerline (py_strip_chars [NL] labelline) in
  parse_table text = Ok m ->
  m !! name = Some d ->
  forall g, is_Some (d !! g) <-> g ∈ groups.*1.
Proof.
  intros Hlines Hsplit Hp0 Hps groups Hm Hd g.
  rewrite (parse_table_read _ _ _ _ _ _ Hlines Hsplit Hp0 Hps) in Hm.
  fold groups in Hm.
  destruct (table_read_lookup _ _ _ _ _ _ _ Hm Hd) as [H|(row & vs & _ & _ & ->)].
  - rewrite lookup_empty in H. discriminate.
  - split; [apply iface_fill_dom|apply iface_fill_some].
Qed.

Lemma interface_keys_are_groups_witness :
  is_Some (<[py "receive" :=
               <[py "bytes" := 1234]> (<[py "packets" := 10]> (<[py "errs" := 0]> ∅))]>
           (<[py "transmit" :=
               <[py "bytes" := 1234]> (<[py "packets" := 10]> (<[py "errs" := 0]> ∅))]>
            (∅ : interface)) !! py "transmit")
  <-> py "transmit" ∈ (header_groups sample_header (py_strip_chars [NL] sample_labels)).*1.
Proof.
  apply (interface_keys_are_groups sample_table sample_header sample_labels (py "Inter-")
           (py "lo") [py "   Receive           "; py "  Transmit" ++ [NL]]
           [sample_row_lo; sample_row_eth0] sample_counters).
  - reflexivity.
  - reflexivity.
  - discriminate.
  - discriminate.
  - reflexivity.
  - reflexivity.
Defined.

Lemma len_keys (data : counters) : len (map fst (map_to_list data)) = Z.of_nat (size data).
Proof. unfold len. rewrite length_map, length_map_to_list. reflexivity. Qed.

(** X8.  On a table whose rows can all be read and have different names,
    the constructor succeeds, [len] of the object is the number of data rows
    and the object is true. *)
Theorem len_counts_rows (rd : ProcRead) (auto_update : bool)
    (headerline labelline p0 : pystr) (ps rows : list pystr) :
  py_readlines (proc_text rd) = headerline :: labelline :: rows ->
  py_split_on "|" headerline = p0 :: ps -> p0 <> [] -> ps <> [] ->
  let flat := flattened (header_groups headerline (py_strip_chars [NL] labelline)) in
  Forall (fun row => exists nv, row_read (length flat) row = Ok nv) rows ->
  NoDup (read_names (length flat) rows) ->
  exists self,
    ProcNetDev_init rd auto_update = Ok self /\
    ProcNetDev_len self = Some (len rows) /\
    ProcNetDev_nonzero self = true.
Proof.
  intros Hlines Hsplit Hp0 Hps flat Hrows Hnames.
  pose proof (parse_table_read _ _ _ _ _ _ Hlines Hsplit Hp0 Hps) as Hread.
  cbv zeta in Hread. fold flat in Hread.
  destruct (table_read_ok (header_groups headerline (py_strip_chars [NL] labelline))
              _ _ Hrows ∅) as [m Hm].
  exists (mkProcNetDev (Some m) (Some (proc_utcnow rd)) auto_update).
  unfold ProcNetDev_init, ProcNetDev_update. rewrite Hread, Hm.
  split; [reflexivity|]. split; [|reflexivity].
  unfold ProcNetDev_len. cbn [pnd_data]. rewrite len_keys.
  rewrite (table_read_size _ _ _ _ _ Hm Hnames).
  - rewrite map_size_empty. reflexivity.
  - intros name _. apply lookup_empty.
Qed.

Lemma len_counts_rows_witness :
  exists self,
    ProcNetDev_init (mkProcRead sample_table 7) true = Ok self /\
    ProcNetDev_len self = Some 2 /\
    ProcNetDev_nonzero self = true.
Proof.
  apply (len_counts_rows (mkProcRead sample_table 7) true sample_header sample_labels
           (py "Inter-") [py "   Receive           "; py "  Transmit" ++ [NL]]
           [sample_row_lo; sample_row_eth0]).
  - reflexivity.
  - reflexivity.
  - discriminate.
  - discriminate.
  - repeat (constructor; [vm_compute; eexists; reflexivity|]). constructor.
  - vm_compute. compute_done.
Defined.

(** X9.  With [auto_update] on, [key in pnd] reads the file again: it
    answers whether the key is an interface of the file as it is now and
    keeps that table; a file that does not parse makes it raise, not answer
    False, and leaves the object as it was. *)
Theorem contains_rereads_file (rd : ProcRead) (key : pystr) (self : ProcNetDev) :
  pnd_auto_update self = true ->
  (forall m, parse_table (proc_text rd) = Ok m ->
             ProcNetDev_contains rd key self
             = (Ok (bool_decide (is_Some (m !! key))),
                mkProcNetDev (Some m) (Some (proc_utcnow rd)) true)) /\
  (forall e, parse_table (proc_text rd) = Raise e ->
             ProcNetDev_contains rd key self = (Raise e, self)).
Proof.
  intros Hauto.
  unfold ProcNetDev_contains, ProcNetDev_getitem, ProcNetDev_update. rewrite Hauto.
  split.
  - intros m ->. cbn [pnd_data].
    destruct (m !! key) as [d|] eqn:Ed.
    + rewrite bool_decide_eq_true_2 by (eexists; reflexivity). reflexivity.
    + rewrite bool_decide_eq_false_2 by (intros [? ?]; discriminate). reflexivity.
  - intros e He. rewrite He.
    destruct (parse_table_outcome (proc_text rd)) as [[m Hm]|[Hm|Hm]];
      rewrite Hm in He; [discriminate|injection He as <-|injection He as <-]; reflexivity.
Qed.

Lemma contains_rereads_file_witness :
  ProcNetDev_contains (mkProcRead sample_table 7) (py "eth1")
                      (mkProcNetDev (Some sample_twice_counters) (Some 0) true)
  = (Ok false, mkProcNetDev (Some sample_counters) (Some 7) true) /\
  ProcNetDev_contains (mkProcRead sample_blank_table 7) (py "lo")
                      (mkProcNetDev (Some sample_counters) (Some 0) true)
  = (Raise ValueError, mkProcNetDev (Some sample_counters) (Some 0) true).
Proof.
  split.
  - destruct (contains_rereads_file (mkProcRead sample_table 7) (py "eth1")
                (mkProcNetDev (Some sample_twice_counters) (Some 0) true) eq_refl)
      as [H _].
    rewrite (H sample_counters) by reflexivity. reflexivity.
  - destruct (contains_rereads_file (mkProcRead sample_blank_table 7) (py "lo")
                (mkProcNetDev (Some sample_counters) (Some 0) true) eq_refl)
      as [_ H].
    apply H. reflexivity.
Defined.

(** ** The frame decoder at the end of the stream *)

(** What [read_next_message] does once the first two bytes and the bytes
    of the extended length have arrived, whatever the two reads that follow
    return. *)
Lemma read_frame_body (control second : ascii) (ext mask_bytes body decoded : pystr)
    (n : Z) (mid mid' rest : list pystr) (h : Handler) :
  (Z.land (ord second) 127 = n /\ n <> 126 /\ n <> 127 /\ ext = []) \/
  (Z.land (ord second) 127 = 126 /\ length ext = 2%nat /\ be_value ext = n) \/
  (Z.land (ord second) 127 = 127 /\ length ext = 8%nat /\ be_value ext = n) ->
  delivers (inbound h) (control :: second :: ext) mid ->
  read_segments 4 mid = Some (mask_bytes, mid') ->
  read_segments (Z.to_nat n) mid' = Some (body, rest) ->
  unmask (map ord mask_bytes) body = Ok decoded ->
  read_next_message h
  = (Ok tt, set_stdout (stdout h ++ [decoded]) (set_inbound rest h)).
Proof.
  intros Hcode Hin Hmask Hbody Hdecoded.
  change (control :: second :: ext) with ([control; second] ++ ext) in Hin.
  destruct (delivers_app _ _ _ _ Hin) as (mid1 & Hhead & Hext).
  assert (Htail : forall h1,
    inbound h1 = mid ->
    (mask_bytes <~ rfile_read 4;;
     let masks := map ord mask_bytes in
     body <~ rfile_read n;;
     decoded <~ lift (unmask masks body);;
     on_message decoded) h1
    = (Ok tt, set_stdout (stdout h1 ++ [decoded]) (set_inbound rest h1))).
  { intros h1 E1.
    unfold bind at 1. unfold rfile_read at 1.
    change (Z.to_nat 4) with 4%nat. rewrite E1, Hmask. cbv zeta.
    unfold bind at 1. unfold rfile_read at 1. cbn [inbound set_inbound].
    rewrite Hbody. unfold bind, lift. rewrite Hdecoded. reflexivity. }
  unfold read_next_message.
  erewrite bind_ok; cycle 1.
  { apply (rfile_read_delivers [control; second]). exact Hhead. }
  unfold bind at 1. unfold lift at 1.
  change (py_index [control; second] 1) with (Ok (A:=ascii) second).
  cbv iota beta zeta.
  destruct Hcode as [(Hland & H126 & H127 & ->)|[(Hland & Hl & Hv)|(Hland & Hl & Hv)]];
    rewrite Hland.
  - apply delivers_nil in Hext. subst mid.
    destruct (Z.eqb_spec n 126); [lia|].
    destruct (Z.eqb_spec n 127); [lia|].
    unfold bind at 1, ret at 1.
    rewrite Htail by reflexivity. reflexivity.
  - change (126 =? 126) with true. cbv iota.
    erewrite bind_ok; cycle 1.
    { erewrite bind_ok; cycle 1.
      { replace 2 with (len ext) by (unfold len; rewrite Hl; reflexivity).
        apply rfile_read_delivers. exact Hext. }
      unfold lift, struct_unpack_be. rewrite Hl. simpl Nat.eqb. cbv iota.
      rewrite Hv. reflexivity. }
    rewrite Htail by reflexivity. reflexivity.
  - change (127 =? 126) with false. change (127 =? 127) with true. cbv iota.
    erewrite bind_ok; cycle 1.
    { erewrite bind_ok; cycle 1.
      { replace 8 with (len ext) by (unfold len; rewrite Hl; reflexivity).
        apply rfile_read_delivers. exact Hext. }
      unfold lift, struct_unpack_be. rewrite Hl. simpl Nat.eqb. cbv iota.
      rewrite Hv. reflexivity. }
    rewrite Htail by reflexivity. reflexivity.
Qed.

(** A read that asks for at least the bytes left before the end of the
    stream returns those bytes. *)
Lemma read_segments_to_end (segs : list pystr) :
  forall (x : pystr) (rest : list pystr) (n : nat),
    delivers segs x ([] :: rest) -> (length x <= n)%nat ->
    read_segments n segs = Some (x, [] :: rest).
Proof.
  unfold delivers.
  induction segs as [|seg segs IH]; intros x rest n E Hn.
  - destruct x; simpl in E; discriminate.
  - destruct (decide (seg = [])) as [->|Hseg].
    + destruct x as [|c x]; [|simpl in E; discriminate].
      simpl in E. injection E as <-. destruct n; reflexivity.
    + destruct (decide (x = [])) as [->|Hx].
      { simpl in E. injection E as E. contradiction. }
      pose proof (length_pos_nonempty _ Hx) as Hxpos.
      rewrite read_segments_cons in E by (assumption || lia).
      rewrite read_segments_cons by (assumption || lia).
      destruct (Nat.leb_spec (length x) (length seg)) as [Hle|Hgt].
      * injection E as Etake Erest.
        assert (Hdrop : drop (length x) seg = []).
        { destruct (drop (length x) seg); [reflexivity|]. simpl in Erest. discriminate. }
        rewrite Hdrop in Erest. simpl in Erest. subst segs.
        assert (Hlen : length seg = length x).
        { apply (f_equal length) in Hdrop. rewrite length_drop in Hdrop. simpl in Hdrop.
          lia. }
        rewrite <- Hlen, firstn_all in Etake. subst x.
        destruct (Nat.leb_spec n (length seg)) as [Hle'|Hgt'].
        -- replace n with (length seg) by lia.
           rewrite firstn_all, skipn_all. reflexivity.
        -- destruct (n - length seg)%nat eqn:En; [lia|].
           simpl. rewrite app_nil_r. reflexivity.
      * destruct (read_segments (length x - length seg) segs) as [[got rest']|] eqn:Eg;
          [|discriminate].
        injection E as Ex Erest. subst rest'.
        assert (Hgot : length got = (length x - length seg)%nat).
        { rewrite <- Ex, length_app. lia. }
        rewrite <- Hgot in Eg.
        destruct (Nat.leb_spec n (length seg)) as [Hle'|Hgt']; [lia|].
        rewrite (IH got rest (n - length seg)%nat Eg) by lia.
        rewrite Ex. reflexivity.
Qed.

Lemma xor_char_twice (c m : ascii) : xor_char (xor_char c m) m = c.
Proof.
  unfold xor_char.
  rewrite N_ascii_embedding by (apply lxor_byte; apply N_ascii_bounded).
  rewrite N.lxor_assoc, N.lxor_nilpotent, N.lxor_0_r.
  apply ascii_N_embedding.
Qed.

Lemma xor_mask_from_twice (mask : list ascii) (s : pystr) :
  forall i, xor_mask_from i mask (xor_mask_from i mask s) = s.
Proof.
  induction s as [|c s IH]; intros i; [reflexivity|].
  cbn [xor_mask_from]. rewrite xor_char_twice, IH. reflexivity.
Qed.

Lemma unmask_any (mask : list ascii) (s : pystr) :
  length mask = 4%nat -> unmask (map ord mask) s = Ok (xor_mask mask s).
Proof.
  intros Hmask.
  rewrite <- (xor_mask_from_twice mask s 0) at 1.
  apply (unmask_xor_mask mask (xor_mask mask s) Hmask).
Qed.

(** X10.  A frame whose payload is cut short by the end of the stream is
    taken as complete: the bytes that did arrive are unmasked and printed,
    and nothing is raised. *)
Theorem short_payload_accepted (control second : ascii) (ext mask short : pystr) (n : Z)
    (rest : list pystr) (h : Handler) :
  (Z.land (ord second) 127 = n /\ n <> 126 /\ n <> 127 /\ ext = []) \/
  (Z.land (ord second) 127 = 126 /\ length ext = 2%nat /\ be_value ext = n) \/
  (Z.land (ord second) 127 = 127 /\ length ext = 8%nat /\ be_value ext = n) ->
  length mask = 4%nat ->
  len short <= n ->
  delivers (inbound h) (control :: second :: ext ++ mask ++ short) ([] :: rest) ->
  read_next_message h
  = (Ok tt, set_stdout (stdout h ++ [xor_mask mask short]) (set_inbound ([] :: rest) h)).
Proof.
  intros Hcode Hmask Hshort Hin.
  change (control :: second :: ext ++ mask ++ short)
    with ((control :: second :: ext) ++ mask ++ short) in Hin.
  destruct (delivers_app _ _ _ _ Hin) as (mid & Hhead & Hin1).
  destruct (delivers_app _ _ _ _ Hin1) as (mid' & Hmid & Hbody).
  apply (read_frame_body control second ext mask short (xor_mask mask short) n mid mid');
    try assumption.
  - unfold delivers in Hmid. rewrite Hmask in Hmid. exact Hmid.
  - apply read_segments_to_end; [exact Hbody|]. unfold len in Hshort. lia.
  - apply unmask_any, Hmask.
Qed.

Lemma short_payload_accepted_witness :
  read_next_message sample_cut_connection
  = (Ok tt, set_stdout [py "Hel"] (set_inbound [[]] sample_cut_connection)).
Proof.
  apply (short_payload_accepted "129"%char "133"%char []
           ["055"%char; "250"%char; "033"%char; "061"%char]
           ["127"%char; "159"%char; "077"%char] 5 [] sample_cut_connection).
  - left. split; [reflexivity|]. split; [discriminate|]. split; [discriminate|reflexivity].
  - reflexivity.
  - vm_compute. discriminate.
  - reflexivity.
Defined.

(** X11.  A frame that announces an extended length and is cut by the end
    of the stream before the two or eight bytes of it are complete makes
    [read_next_message] raise struct.error. *)
Theorem cut_length_raises (control second : ascii) (part : pystr) (need : nat)
    (rest : list pystr) (h : Handler) :
  (Z.land (ord second) 127 = 126 /\ need = 2%nat) \/
  (Z.land (ord second) 127 = 127 /\ need = 8%nat) ->
  (length part < need)%nat ->
  delivers (inbound h) (control :: second :: part) ([] :: rest) ->
  read_next_message h = (Raise StructError, set_inbound ([] :: rest) h).
Proof.
  intros Hcode Hpart Hin.
  change (control :: second :: part) with ([control; second] ++ part) in Hin.
  destruct (delivers_app _ _ _ _ Hin) as (mid & Hhead & Hext).
  assert (Hread : forall k : Z, Z.to_nat k = need ->
            rfile_read k (set_inbound mid h) = (Ok part, set_inbound ([] :: rest) h)).
  { intros k Hk. unfold rfile_read. cbn [inbound set_inbound]. rewrite Hk.
    rewrite (read_segments_to_end mid part rest need Hext) by lia. reflexivity. }
  assert (Hunpack : struct_unpack_be need part = Raise StructError).
  { unfold struct_unpack_be.
    destruct (Nat.eqb_spec (length part) need); [lia|reflexivity]. }
  unfold read_next_message.
  erewrite bind_ok; cycle 1.
  { apply (rfile_read_delivers [control; second]). exact Hhead. }
  unfold bind at 1. unfold lift at 1.
  change (py_index [control; second] 1) with (Ok (A:=ascii) second).
  cbv iota beta zeta.
  destruct Hcode as [[Hland ->]|[Hland ->]]; rewrite Hland.
  - change (126 =? 126) with true. cbv iota.
    unfold bind at 1. unfold bind at 1. rewrite (Hread 2 eq_refl).
    unfold lift. rewrite Hunpack. reflexivity.
  - change (127 =? 126) with false. change (127 =? 127) with true. cbv iota.
    unfold bind at 1. unfold bind at 1. rewrite (Hread 8 eq_refl).
    unfold lift. rewrite Hunpack. reflexivity.
Qed.

Lemma cut_length_raises_witness :
  read_next_message sample_cut_length_connection
  = (Raise StructError, set_inbound [[]] sample_cut_length_connection).
Proof.
  apply (cut_length_raises "129"%char "254"%char ["000"%char] 2 []
           sample_cut_length_connection).
  - left. split; reflexivity.
  - simpl. lia.
  - reflexivity.
Defined.

(** X12.  The decoder does not ask for the shortest form of a length: a
    frame that writes the length of its payload in the two-byte or the
    eight-byte form is decoded whatever that length is. *)
Theorem long_form_length_accepted (control second : ascii) (ext mask payload : pystr)
    (rest : list pystr) (h : Handler) :
  (Z.land (ord second) 127 = 126 /\ length ext = 2%nat) \/
  (Z.land (ord second) 127 = 127 /\ length ext = 8%nat) ->
  be_value ext = len payload ->
  length mask = 4%nat ->
  delivers (inbound h) (control :: second :: ext ++ mask ++ xor_mask mask payload) rest ->
  read_next_message h
  = (Ok tt, set_stdout (stdout h ++ [payload]) (set_inbound rest h)).
Proof.
  intros Hcode Hvalue Hmask Hin.
  apply (read_frame control second ext mask payload rest h); [|assumption|assumption].
  destruct Hcode as [[Hland Hl]|[Hland Hl]]; [right; left|right; right]; auto.
Qed.

Lemma long_form_length_accepted_witness :
  read_next_message sample_long_form_connection
  = (Ok tt, set_stdout [py "Hello"] (set_inbound [] sample_long_form_connection)).
Proof.
  apply (long_form_length_accepted "129"%char "254"%char ["000"%char; "005"%char]
           ["055"%char; "250"%char; "033"%char; "061"%char] (py "Hello") []
           sample_long_form_connection).
  - left. split; reflexivity.
  - reflexivity.
  - reflexivity.
  - reflexivity.
Defined.

Lemma handle_at_eof `{Library} (rest : list pystr) (h : Handler) (fuel : nat) :
  inbound h = [] :: rest ->
  handle (S fuel) h = (Raise IndexError, h).
Proof.
  intros Hin. cbn [handle]. unfold bind at 1. unfold gets at 1.
  destruct (handshake_done h =? 0).
  - unfold bind at 1. unfold handshake. unfold bind at 1.
    unfold request_recv. rewrite Hin. reflexivity.
  - unfold bind at 1. unfold read_next_message. unfold bind at 1.
    unfold rfile_read. rewrite Hin. cbn.
    destruct h. cbn in Hin. subst. reflexivity.
Qed.

(** X13.  Once the peer has closed the connection the main loop ends with
    IndexError, before and after the handshake alike: [handshake] indexes
    the one piece of an empty request, [read_next_message] the second byte of
    an empty read. *)
Theorem closed_connection_ends_handle `{Library} (rest : list pystr) (h : Handler)
    (fuel : nat) :
  inbound h = [] :: rest ->
  handle (S fuel) h = (Raise IndexError, h).
Proof. apply handle_at_eof. Qed.

Lemma closed_connection_ends_handle_witness :
  handle 3 sample_closed_connection = (Raise IndexError, sample_closed_connection) /\
  handle 3 (set_handshake_done 129 sample_closed_connection)
  = (Raise IndexError, set_handshake_done 129 sample_closed_connection).
Proof.
  split.
  - apply (closed_connection_ends_handle [] sample_closed_connection 2). reflexivity.
  - apply (closed_connection_ends_handle [] (set_handshake_done 129 sample_closed_connection)
             2).
    reflexivity.
Defined.

(** ** The handshake *)

(** X14.  A request in which, once stripped, no CRLF is left (a request
    line alone, with or without the empty line after it) makes [handshake]
    raise IndexError: nothing is sent and the main loop ends. *)
Theorem request_without_headers_raises `{Library} (seg : pystr) (rest : list pystr)
    (h : Handler) (fuel : nat) :
  handshake_done h = 0 ->
  inbound h = seg :: rest -> seg <> [] ->
  find_sub CRLF (py_strip (take 1024 seg)) = None ->
  let h' := set_inbound (push_segment (drop 1024 seg) rest) h in
  handshake h = (Raise IndexError, h') /\
  sent h' = sent h /\
  handle (S fuel) h = (Raise IndexError, h').
Proof.
  intros Hdone Hin Hseg Hfind h'.
  assert (Hh : handshake h = (Raise IndexError, h')).
  { unfold handshake. unfold bind at 1.
    rewrite (request_recv_segment _ _ _ Hin Hseg). fold h'.
    cbv zeta. unfold py_split1. rewrite Hfind. reflexivity. }
  split; [exact Hh|]. split; [reflexivity|].
  cbn [handle]. unfold bind at 1, gets at 1. rewrite Hdone.
  change (0 =? 0) with true. cbv iota.
  unfold bind at 1. rewrite Hh. reflexivity.
Qed.

Lemma request_without_headers_raises_witness :
  handshake (new_handler [] sample_pnd [sample_bare_request] [])
  = (Raise IndexError, new_handler [] sample_pnd [] []) /\
  handle 2 (new_handler [] sample_pnd [sample_bare_request] [])
  = (Raise IndexError, new_handler [] sample_pnd [] []).
Proof.
  destruct (request_without_headers_raises sample_bare_request []
              (new_handler [] sample_pnd [sample_bare_request] []) 1
              eq_refl eq_refl) as (Hh & _ & Hl).
  - discriminate.
  - reflexivity.
  - split; [exact Hh|exact Hl].
Defined.

(** X15.  An upgrade request without a Sec-WebSocket-Key header makes
    [handshake] raise KeyError after it has printed its message: nothing is
    sent and [handshake_done] stays as it was. *)
Theorem upgrade_without_key_raises `{Library} (seg first headers_text : pystr)
    (rest : list pystr) (h : Handler) :
  inbound h = seg :: rest -> seg <> [] ->
  py_split1 CRLF (py_strip (take 1024 seg)) = [first; headers_text] ->
  headers_get (Message headers_text) (py "Upgrade") = Some (py "websocket") ->
  Message headers_text !! py_lower (py "Sec-WebSocket-Key") = None ->
  handshake h
  = (Raise KeyError,
     set_stdout (stdout h ++ [py "Handshaking..."])
                (set_inbound (push_segment (drop 1024 seg) rest) h)).
Proof.
  intros Hin Hseg Hsplit Hupgrade Hkey.
  unfold handshake. unfold bind at 1.
  rewrite (request_recv_segment _ _ _ Hin Hseg).
  cbv zeta. rewrite Hsplit.
  unfold bind at 1, lift at 1.
  change (py_index [first; headers_text] 1) with (Ok headers_text).
  cbv iota beta.
  rewrite bool_decide_eq_true_2 by assumption.
  unfold bind at 1. unfold print at 1, modify at 1.
  unfold bind at 1, lift at 1, py_getitem at 1. rewrite Hkey. reflexivity.
Qed.

Lemma upgrade_without_key_raises_witness :
  handshake (new_handler [] sample_pnd [sample_keyless_request] [])
  = (Raise KeyError,
     set_stdout [py "Handshaking..."] (new_handler [] sample_pnd [] [])).
Proof.
  apply (upgrade_without_key_raises sample_keyless_request (py "GET /chat HTTP/1.1")
           (py "Upgrade: websocket" ++ CRLF ++ py "Connection: Upgrade") []
           (new_handler [] sample_pnd [sample_keyless_request] [])).
  - reflexivity.
  - discriminate.
  - reflexivity.
  - reflexivity.
  - reflexivity.
Defined.

(** X16.  An upgrade request with a key on an open connection is answered
    with the 101 response that carries the accept token of the key;
    [handshake_done] becomes the length of that response, which is not zero,
    and the handshake goes on into the scheduler. *)
Theorem handshake_accepts `{Library} (seg first headers_text key : pystr)
    (rest : list pystr) (h : Handler) :
  inbound h = seg :: rest -> seg <> [] ->
  py_split1 CRLF (py_strip (take 1024 seg)) = [first; headers_text] ->
  headers_get (Message headers_text) (py "Upgrade") = Some (py "websocket") ->
  Message headers_text !! py_lower (py "Sec-WebSocket-Key") = Some key ->
  conn_open h = true ->
  let response := handshake_response (b64encode (sha1_digest (key ++ magic))) in
  let h1 :=
    set_handshake_done (len response)
      (set_sent (sent h ++ response)
         (set_stdout (stdout h ++ [py "Handshaking..."])
            (set_inbound (push_segment (drop 1024 seg) rest) h))) in
  handshake h = s_run (S (length (world h))) h1 /\ 0 < len response.
Proof.
  intros Hin Hseg Hsplit Hupgrade Hkey Hopen response h1.
  split.
  - unfold handshake. unfold bind at 1.
    rewrite (request_recv_segment _ _ _ Hin Hseg).
    cbv zeta. rewrite Hsplit.
    unfold bind at 1, lift at 1.
    change (py_index [first; headers_text] 1) with (Ok headers_text).
    cbv iota beta.
    rewrite bool_decide_eq_true_2 by assumption.
    unfold bind at 1. unfold print at 1, modify at 1.
    unfold bind at 1, lift at 1, py_getitem at 1. rewrite Hkey.
    unfold bind at 1, lift at 1, accept_digest at 1, hexdigest.
    rewrite hex_decode_encode. cbn [rbind].
    unfold bind at 1. rewrite request_send_ok by exact Hopen.
    unfold bind at 1, modify at 1.
    unfold bind at 1, gets at 1. reflexivity.
  - unfold response, handshake_response. rewrite len_app.
    match goal with
    | |- 0 < len ?a + len ?b =>
        pose proof (len_nonneg b); change (len a) with 32; lia
    end.
Qed.

Lemma handshake_accepts_witness :
  (handshake (new_handler [] sample_pnd [sample_upgrade_request] [])).1 = Ok tt /\
  sent (handshake (new_handler [] sample_pnd [sample_upgrade_request] [])).2
  = handshake_response sample_accept /\
  handshake_done (handshake (new_handler [] sample_pnd [sample_upgrade_request] [])).2
  = 129.
Proof.
  destruct (handshake_accepts sample_upgrade_request (py "GET /chat HTTP/1.1")
              (py "Host: 192.168.1.1:9999" ++ CRLF ++
               py "Upgrade: websocket" ++ CRLF ++
               py "Connection: Upgrade" ++ CRLF ++
               py "Sec-WebSocket-Key: dGhlIHNhbXBsZSBub25jZQ==" ++ CRLF ++
               py "Sec-WebSocket-Version: 13")
              (py "dGhlIHNhbXBsZSBub25jZQ==") []
              (new_handler [] sample_pnd [sample_upgrade_request] []))
    as [Hh _].
  - reflexivity.
  - discriminate.
  - reflexivity.
  - reflexivity.
  - reflexivity.
  - reflexivity.
  - rewrite Hh. repeat split; reflexivity.
Defined.

(** ** The scheduler and the main loop *)

Lemma s_run_blocked `{Library} (fuel : nat) (h : Handler) :
  s_queue h <> [] -> (fuel = 0%nat \/ world h = []) -> s_run fuel h = (Pending, h).
Proof.
  intros Hq Hstop.
  destruct (s_queue h) as [|ev q] eqn:Eq; [contradiction|].
  destruct fuel as [|fuel].
  - cbn [s_run]. unfold bind, gets. rewrite Eq. reflexivity.
  - destruct Hstop as [Hf|Hw]; [discriminate|].
    cbn [s_run]. unfold bind at 1, gets at 1. rewrite Eq.
    unfold bind at 1, gets at 1. rewrite Hw. reflexivity.
Qed.

(** While an event is queued [run] does not return: a tick that succeeds
    puts an event back for the one that was taken. *)
Lemma s_run_pending_events `{Library} (fuel : nat) :
  forall h : Handler,
    s_queue h <> [] ->
    (s_run fuel h).1 <> Ok tt /\
    (length (s_queue h) - 1 <= length (s_queue (s_run fuel h).2) <= length (s_queue h))%nat /\
    (forall e, (s_run fuel h).1 = Raise e ->
               length (s_queue (s_run fuel h).2) = (length (s_queue h) - 1)%nat).
Proof.
  induction fuel as [|fuel IH]; intros h Hq.
  - rewrite s_run_blocked by auto. cbn [fst snd].
    split; [discriminate|]. split; [lia|discriminate].
  - destruct (world h) as [|env w] eqn:Ew.
    { rewrite s_run_blocked by auto. cbn [fst snd].
      split; [discriminate|]. split; [lia|discriminate]. }
    destruct (s_queue h) as [|ev q] eqn:Eq; [contradiction|].
    rewrite (s_run_step fuel ev q env w h Eq Ew).
    pose proof (update_queue env (set_world w (set_s_queue q h))) as [_ Hupd].
    cbn [s_queue set_world set_s_queue] in Hupd.
    destruct (update env (set_world w (set_s_queue q h))) as [[[]|e|] h1];
      cbn [fst snd] in Hupd |- *.
    + assert (Hq1 : s_queue h1 <> []).
      { rewrite Hupd. destruct q; discriminate. }
      destruct (IH h1 Hq1) as (Hok & Hlen & Hraise).
      rewrite Hupd, length_app in Hlen, Hraise. cbn [length] in Hlen, Hraise |- *.
      split; [exact Hok|]. split; [lia|].
      intros e He. rewrite (Hraise e He). lia.
    + rewrite Hupd. cbn [length]. split; [discriminate|]. split; [lia|].
      intros _ _. lia.
    + rewrite Hupd. cbn [length]. split; [discriminate|]. split; [lia|discriminate].
Qed.

(** X17.  While an event is queued, [scheduler.run] does not return
    normally: every tick that succeeds puts one event back for the one it
    took, so the queue keeps its length, and the run ends only when a tick
    raises, with one event less. *)
Theorem scheduler_never_returns `{Library} (fuel : nat) (h : Handler) :
  s_queue h <> [] ->
  (s_run fuel h).1 <> Ok tt /\
  (length (s_queue h) - 1 <= length (s_queue (s_run fuel h).2) <= length (s_queue h))%nat /\
  (forall e, (s_run fuel h).1 = Raise e ->
             length (s_queue (s_run fuel h).2) = (length (s_queue h) - 1)%nat).
Proof. apply s_run_pending_events. Qed.

Lemma scheduler_never_returns_witness :
  (s_run 2 sample_before_bad_tick).1 <> Ok tt /\
  (1 - 1 <= length (s_queue (s_run 2 sample_before_bad_tick).2) <= 1)%nat /\
  (forall e, (s_run 2 sample_before_bad_tick).1 = Raise e ->
             length (s_queue (s_run 2 sample_before_bad_tick).2) = (1 - 1)%nat).
Proof.
  apply (scheduler_never_returns 2 sample_before_bad_tick). discriminate.
Defined.

Lemma request_recv_keeps {B} (f : Handler -> B) (bufsize : Z) :
  (forall v h, f (set_inbound v h) = f h) -> keeps f (request_recv bufsize).
Proof.
  intros Hf h. unfold request_recv.
  destruct (inbound h) as [|[|c seg] rest]; cbn [snd]; [reflexivity|reflexivity|].
  apply Hf.
Qed.

(** A handshake that returns has left the scheduler and the flag alone. *)
Lemma handshake_returns `{Library} (h h' : Handler) :
  s_queue h <> [] ->
  handshake h = (Ok tt, h') ->
  handshake_done h' = handshake_done h /\ s_queue h' = s_queue h.
Proof.
  intros Hq. unfold handshake. unfold bind at 1.
  pose proof (request_recv_keeps s_queue 1024 (fun _ _ => eq_refl) h) as Hq0.
  pose proof (request_recv_keeps handshake_done 1024 (fun _ _ => eq_refl) h) as Hd0.
  destruct (request_recv 1024 h) as [[data| |] h0]; cbn [snd] in Hq0, Hd0;
    try discriminate.
  cbv zeta. unfold bind at 1, lift at 1.
  destruct (py_index (py_split1 CRLF (py_strip data)) 1) as [text| |]; try discriminate.
  destruct (bool_decide (headers_get (Message text) (py "Upgrade") = Some (py "websocket"))).
  - unfold bind at 1, print at 1, modify at 1.
    unfold bind at 1, lift at 1.
    destruct (py_getitem (Message text) (py_lower (py "Sec-WebSocket-Key")));
      try discriminate.
    unfold bind at 1, lift at 1.
    destruct (accept_digest a); try discriminate.
    unfold bind at 1, request_send at 1. cbn [conn_open set_stdout].
    destruct (conn_open h0); try discriminate.
    unfold bind at 1, modify at 1. unfold bind at 1, gets at 1.
    intros E. exfalso.
    match type of E with
    | s_run ?n ?st = _ =>
        destruct (s_run_pending_events n st) as [Hok _];
          [cbn; rewrite Hq0; exact Hq|rewrite E in Hok; apply Hok; reflexivity]
    end.
  - unfold ret. intros E. injection E as <-. split; assumption.
Qed.

Lemma handle_is_handshake_loop `{Library} (fuel : nat) :
  forall h : Handler,
    handshake_done h = 0 -> s_queue h <> [] ->
    handle fuel h = handshake_loop fuel h.
Proof.
  induction fuel as [|fuel IH]; intros h Hdone Hq; [reflexivity|].
  cbn [handle handshake_loop]. unfold bind at 1, gets at 1. rewrite Hdone.
  change (0 =? 0) with true. cbv iota.
  unfold bind. destruct (handshake h) as [[[]| |] h'] eqn:Eh; try reflexivity.
  destruct (handshake_returns h h' Hq Eh) as [Hd' Hq'].
  apply IH; congruence.
Qed.

(** X18.  On a served connection [read_next_message] is never called: the
    main loop only ever runs [handshake], because a handshake that succeeds
    enters the scheduler, which does not return while the event that [setup]
    queued, or its successor, is there. *)
Theorem served_connection_reads_no_frame `{Library} (client_address : pystr) (fuel : nat)
    (h : Handler) :
  serve client_address fuel h = (setup client_address >> handshake_loop fuel) h.
Proof.
  unfold serve, bind.
  destruct (setup client_address h) as [[[]| |] h0] eqn:Es; try reflexivity.
  unfold setup, bind, print, modify, s_enter in Es. injection Es as <-.
  apply handle_is_handshake_loop; [reflexivity|].
  cbn. destruct (s_queue h); discriminate.
Qed.

(** X19.  When the peer closes the connection before any request, the
    connection ends with IndexError and the event that [setup] entered stays
    in the scheduler's queue, which belongs to the class. *)
Theorem setup_event_outlives_connection `{Library} (client_address : pystr) (fuel : nat)
    (rest : list pystr) (h : Handler) :
  inbound h = [] :: rest ->
  exists h',
    serve client_address (S fuel) h = (Raise IndexError, h') /\
    s_queue h' = s_queue h ++ [mkEvent 0.5 1] /\
    sent h' = sent h.
Proof.
  intros Hin.
  set (h0 := set_s_queue (s_queue h ++ [mkEvent 0.5 1])
               (set_handshake_done 0
                  (set_stdout (stdout h ++ [py "connection established " ++ client_address])
                              h))).
  exists h0. split; [|split; reflexivity].
  unfold serve. unfold bind at 1.
  change (setup client_address h) with (Ok tt, h0).
  cbv iota beta. apply (handle_at_eof rest). exact Hin.
Qed.

Lemma setup_event_outlives_connection_witness :
  exists h',
    serve sample_client 3 sample_closed_connection = (Raise IndexError, h') /\
    s_queue h' = [mkEvent 0.5 1] /\
    sent h' = [].
Proof.
  apply (setup_event_outlives_connection sample_client 2 [] sample_closed_connection).
  reflexivity.
Defined.

(** ** The tick: failures and the frame it sends *)

(** [update] up to its two divisions, when every reading before them
    succeeds. *)
Lemma update_message_rates (env : TickEnv) (h : Handler) (uptime : float)
    (cpu : list pystr) (a b : pystr) (memory : fields) (t1 t2 : counters)
    (new_tx new_rx : Z) :
  env_uptime env = Ok uptime ->
  env_loadavg env = Ok (cpu ++ [a; b]) ->
  env_meminfo env = Ok memory ->
  pnd_auto_update (pnd h) = true ->
  parse_table (proc_text (env_net_dev_tx env)) = Ok t1 ->
  counter t1 (py "vlan2") (py "transmit") (py "bytes") = Some new_tx ->
  parse_table (proc_text (env_net_dev_rx env)) = Ok t2 ->
  counter t2 (py "vlan2") (py "receive") (py "bytes") = Some new_rx ->
  let h1 := set_pnd (mkProcNetDev (Some t2) (Some (proc_utcnow (env_net_dev_rx env))) true)
                    h in
  let diff_ts := PrimFloat.sub (env_time_ts env) (ts h) in
  update_message env h
  = match int_div_float (new_tx - tx h) diff_ts with
    | Ok tx_rate =>
        match int_div_float (new_rx - rx h) diff_ts with
        | Ok rx_rate =>
            (free <- py_getitem memory (py "MemFree");;
             total <- py_getitem memory (py "MemTotal");;
             Ok (mkSnapshot (env_time_stamp env) uptime cpu new_tx new_rx
                            tx_rate rx_rate free total),
             set_baseline new_tx new_rx (env_time_ts env) h1)
        | Raise e => (Raise e, h1)
        | Pending => (Pending, h1)
        end
    | Raise e => (Raise e, h1)
    | Pending => (Pending, h1)
    end.
Proof.
  intros Hup Hcpu Hmem Hauto Ht1 Hc1 Ht2 Hc2 h1 diff_ts.
  destruct (counter_inv _ _ _ _ _ Hc1) as (i1 & s1 & Hi1 & Hs1 & Hv1).
  destruct (counter_inv _ _ _ _ _ Hc2) as (i2 & s2 & Hi2 & Hs2 & Hv2).
  unfold update_message.
  unfold bind at 1, lift at 1. rewrite Hup.
  unfold bind at 1, lift at 1. rewrite Hcpu.
  unfold bind at 1, lift at 1.
  change (cpu ++ [a; b]) with (cpu ++ [a] ++ [b]). rewrite app_assoc, py_pop_last_snoc.
  unfold bind at 1, lift at 1. rewrite py_pop_last_snoc.
  unfold bind at 1, lift at 1. rewrite Hmem.
  unfold bind at 1. rewrite (pnd_getitem_ok _ _ _ _ _ Hauto Ht1 Hi1).
  unfold bind at 1, lift at 1, py_getitem at 1. rewrite Hs1.
  unfold bind at 1, lift at 1, py_getitem at 1. rewrite Hv1.
  unfold bind at 1. rewrite (pnd_getitem_ok _ _ _ t2 i2); [|reflexivity|assumption..].
  unfold bind at 1, lift at 1, py_getitem at 1. rewrite Hs2.
  unfold bind at 1, lift at 1, py_getitem at 1. rewrite Hv2.
  cbv zeta.
  unfold bind at 1, gets at 1. unfold bind at 1, gets at 1. unfold bind at 1, gets at 1.
  cbn [tx rx ts set_pnd].
  unfold bind at 1, lift at 1. fold diff_ts.
  destruct (int_div_float (new_tx - tx h) diff_ts) as [tx_rate| |]; try reflexivity.
  unfold bind at 1, lift at 1.
  destruct (int_div_float (new_rx - rx h) diff_ts) as [rx_rate| |]; try reflexivity.
  unfold bind at 1, modify at 1.
  unfold bind at 1, lift at 1.
  destruct (py_getitem memory (py "MemFree")) as [free| |]; try reflexivity.
  unfold bind at 1, lift at 1.
  destruct (py_getitem memory (py "MemTotal")) as [total| |]; reflexivity.
Qed.

Lemma update_raise_in_message `{Library} (env : TickEnv) (h h1 : Handler) (e : exn) :
  update_message env h = (Raise e, h1) -> update env h = (Raise e, h1).
Proof. intros E. rewrite update_cases, E. reflexivity. Qed.

(** X20.  A tick whose clock reading equals the stored [ts] raises
    ZeroDivisionError at the first rate: nothing is sent, the tick is not
    entered again, and the baseline is left as it was. *)
Theorem stalled_clock_raises `{Library} (env : TickEnv) (h : Handler) (uptime f : float)
    (cpu : list pystr) (free total new_tx new_rx : Z) :
  tick_reads env uptime cpu free total new_tx new_rx ->
  pnd_auto_update (pnd h) = true ->
  float_of_int (new_tx - tx h) = Ok f ->
  PrimFloat.eqb (PrimFloat.sub (env_time_ts env) (ts h)) 0 = true ->
  exists p, update env h = (Raise ZeroDivisionError, set_pnd p h).
Proof.
  intros (Hup & (a & b & Hcpu) & (memory & Hmem & _) & (t1 & Ht1 & Hc1) & (t2 & Ht2 & Hc2))
         Hauto Hf Hzero.
  eexists. apply update_raise_in_message.
  rewrite (update_message_rates env h uptime cpu a b memory t1 t2 new_tx new_rx)
    by assumption.
  cbv zeta. unfold int_div_float at 1. rewrite Hf. cbn [rbind]. rewrite Hzero.
  reflexivity.
Qed.

Lemma stalled_clock_raises_witness :
  exists p,
    update (sample_tick 2600 1000 11) sample_after_two_ticks
    = (Raise ZeroDivisionError, set_pnd p sample_after_two_ticks).
Proof.
  apply (stalled_clock_raises (sample_tick 2600 1000 11) sample_after_two_ticks
           86400.5 (-500) [py "0.10"; py "0.20"; py "0.30"] 1000 2000 1000 2600).
  - apply (sample_tick_reads 2600 1000 11 (vlan2_counters 2600 1000)); reflexivity.
  - reflexivity.
  - reflexivity.
  - reflexivity.
Defined.

(** X21.  When /proc/net/dev parses but has no vlan2 row, the tick raises
    KeyError at [self.pnd['vlan2']]: nothing is sent, the baseline is left as
    it was, and [pnd] holds the table that was just read. *)
Theorem missing_interface_raises `{Library} (env : TickEnv) (h : Handler) (uptime : float)
    (cpu : list pystr) (a b : pystr) (memory : fields) (t : counters) :
  env_uptime env = Ok uptime ->
  env_loadavg env = Ok (cpu ++ [a; b]) ->
  env_meminfo env = Ok memory ->
  pnd_auto_update (pnd h) = true ->
  parse_table (proc_text (env_net_dev_tx env)) = Ok t ->
  t !! py "vlan2" = None ->
  update env h
  = (Raise KeyError,
     set_pnd (mkProcNetDev (Some t) (Some (proc_utcnow (env_net_dev_tx env))) true) h).
Proof.
  intros Hup Hcpu Hmem Hauto Hparse Hnone.
  apply update_raise_in_message. unfold update_message.
  unfold bind at 1, lift at 1. rewrite Hup.
  unfold bind at 1, lift at 1. rewrite Hcpu.
  unfold bind at 1, lift at 1.
  change (cpu ++ [a; b]) with (cpu ++ [a] ++ [b]). rewrite app_assoc, py_pop_last_snoc.
  unfold bind at 1, lift at 1. rewrite py_pop_last_snoc.
  unfold bind at 1, lift at 1. rewrite Hmem.
  unfold bind at 1.
  unfold pnd_getitem, ProcNetDev_getitem, ProcNetDev_update.
  rewrite Hauto, Hparse. cbn [pnd_data]. rewrite Hnone. reflexivity.
Qed.

Lemma missing_interface_raises_witness :
  update (sample_no_vlan2_tick 10) sample_handler
  = (Raise KeyError, set_pnd (mkProcNetDev (Some sample_counters) (Some 0) true)
                             sample_handler).
Proof.
  apply (missing_interface_raises (sample_no_vlan2_tick 10) sample_handler 86400.5
           [py "0.10"; py "0.20"; py "0.30"] (py "1/123") (py "4567")
           (<[py "MemFree" := 1000]> (<[py "MemTotal" := 2000]> ∅)) sample_counters).
  - reflexivity.
  - reflexivity.
  - reflexivity.
  - reflexivity.
  - reflexivity.
  - reflexivity.
Defined.

(** X22.  When /proc/meminfo gave no MemFree or no MemTotal, the tick
    raises KeyError while it builds the message, after the baseline has been
    replaced: nothing is sent and the tick is not entered again, yet [tx],
    [rx] and [ts] are those of this tick. *)
Theorem missing_memory_key_raises `{Library} (env : TickEnv) (h : Handler)
    (uptime tx_rate rx_rate : float) (cpu : list pystr) (a b : pystr) (memory : fields)
    (t1 t2 : counters) (new_tx new_rx : Z) :
  env_uptime env = Ok uptime ->
  env_loadavg env = Ok (cpu ++ [a; b]) ->
  env_meminfo env = Ok memory ->
  memory !! py "MemFree" = None \/ memory !! py "MemTotal" = None ->
  pnd_auto_update (pnd h) = true ->
  parse_table (proc_text (env_net_dev_tx env)) = Ok t1 ->
  counter t1 (py "vlan2") (py "transmit") (py "bytes") = Some new_tx ->
  parse_table (proc_text (env_net_dev_rx env)) = Ok t2 ->
  counter t2 (py "vlan2") (py "receive") (py "bytes") = Some new_rx ->
  int_div_float (new_tx - tx h) (PrimFloat.sub (env_time_ts env) (ts h)) = Ok tx_rate ->
  int_div_float (new_rx - rx h) (PrimFloat.sub (env_time_ts env) (ts h)) = Ok rx_rate ->
  exists h',
    update env h = (Raise KeyError, h') /\
    tx h' = new_tx /\ rx h' = new_rx /\ ts h' = env_time_ts env /\
    sent h' = sent h /\ s_queue h' = s_queue h.
Proof.
  intros Hup Hcpu Hmem Hkey Hauto Ht1 Hc1 Ht2 Hc2 Htx Hrx.
  eexists. split.
  - apply update_raise_in_message.
    rewrite (update_message_rates env h uptime cpu a b memory t1 t2 new_tx new_rx)
      by assumption.
    cbv zeta. rewrite Htx, Hrx. unfold py_getitem.
    destruct Hkey as [Hfree|Htotal].
    + rewrite Hfree. reflexivity.
    + rewrite Htotal. destruct (memory !! py "MemFree"); reflexivity.
  - repeat split; reflexivity.
Qed.

Lemma missing_memory_key_raises_witness :
  exists h',
    update (sample_no_memfree_tick 2000 1000 10) sample_handler = (Raise KeyError, h') /\
    tx h' = 1000 /\ rx h' = 2000 /\ ts h' = 10%float /\
    sent h' = [] /\ s_queue h' = [].
Proof.
  apply (missing_memory_key_raises (sample_no_memfree_tick 2000 1000 10) sample_handler
           86400.5 100 200 [py "0.10"; py "0.20"; py "0.30"] (py "1/123") (py "4567")
           (<[py "MemTotal" := 2000]> ∅)
           (vlan2_counters 2000 1000) (vlan2_counters 2000 1000) 1000 2000).
  - reflexivity.
  - reflexivity.
  - reflexivity.
  - left. reflexivity.
  - reflexivity.
  - reflexivity.
  - reflexivity.
  - reflexivity.
  - reflexivity.
  - reflexivity.
  - reflexivity.
Defined.




(** ** Further edges *)

(** X24.  A frame cut by the end of the stream inside its mask is taken
    as a frame with an empty payload: the empty message is printed and
    nothing is raised. *)
Theorem cut_mask_accepted (control second : ascii) (ext part : pystr) (n : Z)
    (rest : list pystr) (h : Handler) :
  (Z.land (ord second) 127 = n /\ n <> 126 /\ n <> 127 /\ ext = []) \/
  (Z.land (ord second) 127 = 126 /\ length ext = 2%nat /\ be_value ext = n) \/
  (Z.land (ord second) 127 = 127 /\ length ext = 8%nat /\ be_value ext = n) ->
  (length part < 4)%nat ->
  delivers (inbound h) (control :: second :: ext ++ part) ([] :: rest) ->
  read_next_message h
  = (Ok tt, set_stdout (stdout h ++ [[]]) (set_inbound ([] :: rest) h)).
Proof.
  intros Hcode Hpart Hin.
  change (control :: second :: ext ++ part)
    with ((control :: second :: ext) ++ part) in Hin.
  destruct (delivers_app _ _ _ _ Hin) as (mid & Hhead & Hmask).
  apply (read_frame_body control second ext part [] [] n mid ([] :: rest));
    try assumption.
  - apply read_segments_to_end; [exact Hmask|lia].
  - destruct (Z.to_nat n); reflexivity.
  - reflexivity.
Qed.

Lemma cut_mask_accepted_witness :
  read_next_message sample_cut_mask_connection
  = (Ok tt, set_stdout [[]] (set_inbound [[]] sample_cut_mask_connection)).
Proof.
  apply (cut_mask_accepted "129"%char "133"%char [] ["055"%char; "250"%char] 5 []
           sample_cut_mask_connection).
  - left. split; [reflexivity|]. split; [discriminate|]. split; [discriminate|reflexivity].
  - simpl. lia.
  - reflexivity.
Defined.

(** X25.  When the line of /proc/loadavg has fewer than two tokens the
    tick raises IndexError at [cpu.pop(-1)], before /proc/net/dev is read:
    the handler is left as it was. *)
Theorem short_loadavg_raises `{Library} (env : TickEnv) (h : Handler) (uptime : float)
    (cpu : list pystr) :
  env_uptime env = Ok uptime ->
  env_loadavg env = Ok cpu ->
  (length cpu < 2)%nat ->
  update env h = (Raise IndexError, h).
Proof.
  intros Hup Hcpu Hlen.
  apply update_raise_in_message. unfold update_message.
  unfold bind at 1, lift at 1. rewrite Hup.
  unfold bind at 1, lift at 1. rewrite Hcpu.
  destruct cpu as [|x [|y cpu]]; [reflexivity|reflexivity|simpl in Hlen; lia].
Qed.

Lemma short_loadavg_raises_witness :
  update (sample_no_loadavg_tick 10) sample_handler = (Raise IndexError, sample_handler).
Proof.
  apply (short_loadavg_raises (sample_no_loadavg_tick 10) sample_handler 86400.5 []).
  - reflexivity.
  - reflexivity.
  - simpl. lia.
Defined.

Lemma sections_loop_extends (headerline : pystr) (fuel : nat) :
  forall (p : option Z) (acc r : list section),
    sections_loop fuel headerline p acc = Ok r -> exists more, r = acc ++ more.
Proof.
  induction fuel as [|fuel IH]; intros [p|] acc r; cbn [sections_loop].
  - destruct (p =? 0); [|discriminate].
    intros E. injection E as <-. exists []. rewrite app_nil_r. reflexivity.
  - intros E. injection E as <-. exists []. rewrite app_nil_r. reflexivity.
  - destruct (p =? 0).
    + intros E. injection E as <-. exists []. rewrite app_nil_r. reflexivity.
    + intros E. apply IH in E as [more ->]. rewrite <- app_assoc. eexists. reflexivity.
  - intros E. injection E as <-. exists []. rewrite app_nil_r. reflexivity.
Qed.

Lemma py_count_absent (c : ascii) (s : pystr) : c ∉ s -> py_count c s = 0.
Proof.
  intros Hc. unfold py_count.
  induction s as [|x s IH]; [reflexivity|].
  rewrite filter_cons_False.
  - apply IH. intros Hin. apply Hc. right. exact Hin.
  - intros ->. apply Hc. left.
Qed.

(** X26.  A file that has a header line with a delimiter and no data row
    (with or without the line of labels) parses to the empty dict: the
    constructor succeeds, [len] is 0 and the object is true. *)
Theorem table_without_rows_is_empty (rd : ProcRead) (auto_update : bool) :
  py_count "|" (hd [] (py_readlines (proc_text rd))) <> 0 ->
  tl (tl (py_readlines (proc_text rd))) = [] ->
  parse_table (proc_text rd) = Ok ∅ /\
  exists self,
    ProcNetDev_init rd auto_update = Ok self /\
    ProcNetDev_len self = Some 0 /\
    ProcNetDev_nonzero self = true.
Proof.
  intros Hcount Hrows.
  assert (Hparse : parse_table (proc_text rd) = Ok ∅).
  { unfold parse_table. rewrite Hrows.
    destruct (Z.eqb_spec (py_count "|" (hd [] (py_readlines (proc_text rd)))) 0);
      [contradiction|].
    destruct (sections_loop_total (hd [] (py_readlines (proc_text rd)))) as [sections E].
    rewrite E. cbn [rbind].
    cbn [sections_loop] in E. change (-1 =? 0) with false in E. cbv iota zeta in E.
    apply sections_loop_extends in E as [more ->]. reflexivity. }
  split; [exact Hparse|].
  exists (mkProcNetDev (Some ∅) (Some (proc_utcnow rd)) auto_update).
  unfold ProcNetDev_init, ProcNetDev_update. rewrite Hparse.
  repeat split; reflexivity.
Qed.

Lemma table_without_rows_is_empty_witness :
  parse_table (sample_header ++ sample_labels) = Ok ∅ /\
  exists self,
    ProcNetDev_init (mkProcRead (sample_header ++ sample_labels) 7) true = Ok self /\
    ProcNetDev_len self = Some 0 /\
    ProcNetDev_nonzero self = true.
Proof.
  apply (table_without_rows_is_empty (mkProcRead (sample_header ++ sample_labels) 7) true).
  - vm_compute. discriminate.
  - reflexivity.
Defined.

(** X27.  A file whose first line has no delimiter, the empty file
    included, makes [update] raise ValueError and leaves the object as it
    was. *)
Theorem header_without_delimiter_raises (rd : ProcRead) (self : ProcNetDev) :
  "|"%char ∉ hd [] (py_readlines (proc_text rd)) ->
  ProcNetDev_update rd self = (Raise ValueError, self).
Proof.
  intros Hc. apply update_raise. unfold parse_table.
  rewrite (py_count_absent _ _ Hc). reflexivity.
Qed.

Lemma header_without_delimiter_raises_witness :
  ProcNetDev_update (mkProcRead [] 7) (mkProcNetDev (Some sample_counters) (Some 0) true)
  = (Raise ValueError, mkProcNetDev (Some sample_counters) (Some 0) true).
Proof.
  apply (header_without_delimiter_raises (mkProcRead [] 7)). compute_done.
Defined.
